(** * Formula deletion of ritchie-cli ([pkg/cmd/delete_formula.go])

    A shallow embedding of the [rit delete formula] command: the recursive
    group deletion engine [deleteFormula], its prunability check [canDelete],
    the path resolver [readFormulas], the index regenerator
    [recriateTreeJson] and the two entry points [runPrompt] and [runStdin].

    The Go code talks to its surroundings through interfaces (the struct
    fields of [deleteFormulaCmd]) and through the [os], [ioutil] and [json]
    packages.  These are the operations of the class [Env]; the command is
    written once over an arbitrary environment, in a state-and-error monad
    that also records every call in a trace.  A concrete environment, a
    directory tree kept as a finite map from paths to nodes, gives the
    meaning of [os.RemoveAll] and [ioutil.ReadDir] for the claims about
    what is left on disk. *)

From Stdlib Require Import Ascii.
From stdpp Require Import gmap strings list fin_maps sorting.

(** ** Paths

    A directory is named by its absolute, cleaned path: the list of its
    components below the filesystem root.  The workspace arguments of the
    command are taken as such paths.  Segment strings are arbitrary Go
    strings and go through [filepath.Join], which splits them at the
    separator and cleans the result. *)

Abbreviation path := (list string).

(** The components of a string between separators: [strings.Split s "/"]. *)
Fixpoint components (s : string) : list string :=
  match s with
  | EmptyString => [""]
  | String c s' =>
      if Ascii.eqb c "/"%char then "" :: components s'
      else match components s' with
           | x :: l => String c x :: l
           | [] => [String c ""]
           end
  end.

(** One step of [filepath.Clean] on a rooted path: empty and [.] components
    vanish, [..] drops the last component (and stays at the root). *)
Definition join_component (p : path) (c : string) : path :=
  if decide (c = "") then p
  else if decide (c = ".") then p
  else if decide (c = "..") then removelast p
  else p ++ [c].

Definition join_elem (p : path) (e : string) : path :=
  fold_left join_component (components e) p.

(** [filepath.Join(base, elems...)] for a rooted, cleaned [base]. *)
Definition filepath_Join (base : path) (elems : list string) : path :=
  fold_left join_elem elems base.

(** A plain directory name: one non-empty component other than [.] and [..]. *)
Fixpoint has_separator (s : string) : bool :=
  match s with
  | EmptyString => false
  | String c s' => Ascii.eqb c "/"%char || has_separator s'
  end.

Definition plain_name (s : string) : bool :=
  negb (has_separator s)
  && bool_decide (s ≠ "") && bool_decide (s ≠ ".") && bool_decide (s ≠ "..").

(** ** Errors and results *)

Inductive errno := ENOENT | ENOTDIR | EISDIR | EINVAL | EACCES.

(** Go [error] values: an [*os.PathError], the sentinel
    [ErrCouldNotFindFormula], or any other error of a collaborator. *)
Inductive error :=
| PathError (op : string) (p : path) (e : errno)
| ErrCouldNotFindFormula
| ErrOther (msg : string).

Definition msgFormulaNotFound : string := "Could not find formula".

Definition errno_message (e : errno) : string :=
  match e with
  | ENOENT => "no such file or directory"
  | ENOTDIR => "not a directory"
  | EISDIR => "is a directory"
  | EINVAL => "invalid argument"
  | EACCES => "permission denied"
  end.

(** The method [Error()]: of [*os.PathError], of [errors.New(msg)]. *)
Definition error_message (e : error) : string :=
  match e with
  | PathError op p e =>
      op +:+ " /" +:+ String.concat "/" p +:+ ": " +:+ errno_message e
  | ErrCouldNotFindFormula => msgFormulaNotFound
  | ErrOther msg => msg
  end.

(** [os.IsNotExist]. *)
Definition is_not_exist (e : error) : bool :=
  match e with
  | PathError _ _ ENOENT => true
  | _ => false
  end.

(** The [syscall.Errno] an [*os.PathError] wraps. *)
Definition errno_of (e : error) : option errno :=
  match e with
  | PathError _ _ n => Some n
  | _ => None
  end.

(** The outcome of a Go function: a value with a nil error, a non-nil
    error, or a run-time panic (an index out of range).  [OutOfFuel] is the
    model's own: a recursion that the given fuel did not let finish. *)
Inductive result (A : Type) :=
| Ok (a : A)
| Err (e : error)
| Panic
| OutOfFuel.
Arguments Ok {A} a.
Arguments Err {A} e.
Arguments Panic {A}.
Arguments OutOfFuel {A}.

(** ** Data of the command *)

(** [os.FileInfo], as far as the command looks at it. *)
Record FileInfo := { Name : string; IsDir : bool }.

(** [formula.Workspace] (declared in [pkg/formula]). *)
Module formula.
Record Workspace := { Name : string; Dir : path }.
End formula.

Record deleteFormulaStdin := { Workspace : path; Groups : list string }.

Record deleteFormulaCmd := { userHomeDir : path; ritchieHomeDir : path }.

(** ** The trace of calls

    One event per call that leaves the command, with the error it
    returned ([None] is Go's nil). *)
Inductive event :=
| EvWorkspaceList (r : option error)
| EvWorkspaceInput (r : option error)
| EvValidate (w : formula.Workspace) (r : option error)
| EvAdd (w : formula.Workspace) (r : option error)
| EvList (dir : path) (r : option error)
| EvSelect (options : list string) (r : option error)
| EvConfirm (question : string) (r : option error)
| EvRemoveAll (p : path) (r : option error)
| EvReadDir (p : path) (r : option error)
| EvGenerate (p : path) (r : option error)
| EvWriteFile (p : path) (data : string) (r : option error)
| EvReadJson (r : option error)
| EvSuccess (msg : string).

(** ** The environment

    [W] is the state of the world outside the command, [Tree] the type
    [formula.Tree] (declared outside this file).  A call returns the Go
    error or the value, and the world after it. *)
Class Env (W Tree : Type) := {
  workspace_List : W → (error + gmap string path) * W;
  workspace_Validate : formula.Workspace → W → (error + unit) * W;
  workspace_Add : formula.Workspace → W → (error + unit) * W;
  FormulaWorkspaceInput : gmap string path → W → (error + formula.Workspace) * W;
  directory_List : path → bool → W → (error + list string) * W;
  inList_List : string → list string → W → (error + string) * W;
  inBool_Bool : string → list string → W → (error + bool) * W;
  os_RemoveAll : path → W → (error + unit) * W;
  ioutil_ReadDir : path → W → (error + list FileInfo) * W;
  treeGen_Generate : path → W → (error + Tree) * W;
  json_MarshalIndent : Tree → string → string → string * option error;
  ioutil_WriteFile : path → string → N → W → (error + unit) * W;
  stdin_ReadJson : W → (error + deleteFormulaStdin) * W;
  prompt_Success : string → W → W;
}.

(** ** The monad: world, trace, and early return on error *)

Record state (W : Type) := State { world : W; trace : list event }.
Arguments State {W} world trace.
Arguments world {W} s.
Arguments trace {W} s.

Definition M (W A : Type) : Type := state W → result A * state W.

Definition ret {W A} (a : A) : M W A := λ s, (Ok a, s).

Definition fail {W A} (e : error) : M W A := λ s, (Err e, s).

Definition panic {W A} : M W A := λ s, (Panic, s).

Definition out_of_fuel {W A} : M W A := λ s, (OutOfFuel, s).

(** [v, err := m; if err != nil { return err }; k v]. *)
Definition bind {W A B} (m : M W A) (k : A → M W B) : M W B :=
  λ s, match m s with
       | (Ok a, s') => k a s'
       | (Err e, s') => (Err e, s')
       | (Panic, s') => (Panic, s')
       | (OutOfFuel, s') => (OutOfFuel, s')
       end.

Notation "x <- m ;; k" := (bind m (λ x, k))
  (at level 100, m at level 90, right associativity, only parsing).
Notation "m ;;; k" := (bind m (λ _, k))
  (at level 100, right associativity, only parsing).

Definition failure {A} (r : error + A) : option error :=
  match r with inl e => Some e | inr _ => None end.

(** A call of the environment: run it on the world, log it, and turn its
    answer into a result (a non-nil error returns at once, see [bind]). *)
Definition call {W A} (ev : option error → event) (op : W → (error + A) * W)
  : M W A :=
  λ s, let '(r, w) := op (world s) in
       (match r with inl e => Err e | inr a => Ok a end,
        State w (trace s ++ [ev (failure r)])).

(** ** The command *)

Section Command.
Context {W Tree : Type} `{!Env W Tree}.

(** Constants declared elsewhere in package [cmd] and in [pkg/formula]. *)
Variable docsDir : string.
Variable DefaultWorkspaceDir : string.
Variable DefaultWorkspaceName : string.

(** [isFormula(dirs []string) bool], declared elsewhere in package [cmd]. *)
Variable isFormula : list string → bool.

(** The receiver [d deleteFormulaCmd]; its interface fields are [Env]. *)
Variable d : deleteFormulaCmd.

(** Modelled from the spec: [sliceutil.Remove] is not among the sources;
    the listing is taken "excluding a fixed set of reserved non-command
    entries", here the entries named [docsDir]. *)
Definition sliceutil_Remove (l : list string) (x : string) : list string :=
  filter (λ y, y ≠ x) l.

(** The indentation ["\t"] and the permission bits [os.ModePerm]. *)
Definition tab : string := String "009"%char "".

Definition os_ModePerm : N := 511.

(** [prompt.Success]. *)
Definition success (msg : string) : M W unit :=
  λ s, (Ok tt, State (prompt_Success msg (world s)) (trace s ++ [EvSuccess msg])).

(** [readFormulas]: the descent follows what the lister and the selector
    answer, so it is bounded by fuel.  Go's nil slice is the empty list:
    every other slice this function returns has an element. *)
Fixpoint readFormulas (fuel : nat) (dir : path) : M W (list string) :=
  match fuel with
  | O => out_of_fuel
  | S fuel' =>
      dirs <- call (EvList dir) (directory_List dir false) ;;
      let dirs := sliceutil_Remove dirs docsDir in
      let groups : list string := [] in
      if isFormula dirs then ret groups
      else
        selected <- call (EvSelect dirs)
                      (inList_List "Select a formula or group: " dirs) ;;
        aux <- readFormulas fuel' (filepath_Join dir [selected]) ;;
        let aux := [selected] ++ aux in
        ret (groups ++ aux)
  end.

(** [canDelete]: list the directory, and answer false at the first entry
    that is a directory. *)
Fixpoint canDelete_loop (files : list FileInfo) : bool :=
  match files with
  | [] => true
  | file :: files' => if IsDir file then false else canDelete_loop files'
  end.

Definition canDelete (workspace : path) : M W bool :=
  files <- call (EvReadDir workspace) (ioutil_ReadDir workspace) ;;
  ret (canDelete_loop files).

(** [deleteFormula]: the recursion is on [len(groups) - index], which the
    fuel bounds; [deleteFormula] below starts it with enough. *)
Fixpoint deleteFormula_rec (fuel : nat) (workspace : path)
    (groups : list string) (index : nat) : M W unit :=
  match fuel with
  | O => out_of_fuel
  | S fuel' =>
      if decide (index = length groups) then
        call (EvRemoveAll workspace) (os_RemoveAll workspace)
      else
        match groups !! index with
        | None => panic
        | Some g =>
            let newWorkspace := filepath_Join workspace [g] in
            deleteFormula_rec fuel' newWorkspace groups (index + 1) ;;;
            if decide (index = 0) then ret tt
            else
              ok <- canDelete workspace ;;
              if ok : bool then
                call (EvRemoveAll workspace) (os_RemoveAll workspace)
              else ret tt
        end
  end.

Definition deleteFormula (workspace : path) (groups : list string)
    (index : nat) : M W unit :=
  deleteFormula_rec (S (length groups - index)) workspace groups index.

(** [recriateTreeJson]: the error of [json.MarshalIndent] is assigned to
    the blank identifier. *)
Definition recriateTreeJson (workspace : path) : M W unit :=
  localTree <- call (EvGenerate workspace) (treeGen_Generate workspace) ;;
  let '(jsonString, _) := json_MarshalIndent localTree "" tab in
  let file := filepath_Join (ritchieHomeDir d) ["repos"; "local"; "tree.json"] in
  call (EvWriteFile file jsonString) (ioutil_WriteFile file jsonString os_ModePerm).

(** The local variable [ritchieLocalWorkspace] of both entry points. *)
Definition ritchieLocalWorkspace : path :=
  filepath_Join (ritchieHomeDir d) ["repos"; "local"].

(** [runPrompt], first part (up to the workspace being registered). *)
Definition runPrompt_workspace : M W formula.Workspace :=
  workspaces <- call EvWorkspaceList workspace_List ;;
  let defaultWorkspace := filepath_Join (userHomeDir d) [DefaultWorkspaceDir] in
  let workspaces := <[DefaultWorkspaceName := defaultWorkspace]> workspaces in
  wspace <- call EvWorkspaceInput (FormulaWorkspaceInput workspaces) ;;
  (if decide (formula.Dir wspace ≠ defaultWorkspace) then
     call (EvValidate wspace) (workspace_Validate wspace) ;;;
     call (EvAdd wspace) (workspace_Add wspace)
   else ret tt) ;;;
  ret wspace.

Definition question_of (groups : list string) : string :=
  "Are you sure you want to delete the formula: rit " +:+ String.concat " " groups.

(** [runPrompt], from the resolution of the formula on. *)
Definition runPrompt_formula (fuel : nat) (wspace : formula.Workspace) : M W unit :=
  groups <- readFormulas fuel (formula.Dir wspace) ;;
  if decide (groups = []) then fail ErrCouldNotFindFormula
  else
    let question := question_of groups in
    ans <- call (EvConfirm question) (inBool_Bool question ["no"; "yes"]) ;;
    if negb ans then ret tt
    else
      deleteFormula (formula.Dir wspace) groups 0 ;;;
      deleteFormula ritchieLocalWorkspace groups 0 ;;;
      recriateTreeJson ritchieLocalWorkspace ;;;
      success "✔ Formula successfully deleted!" ;;;
      ret tt.

Definition runPrompt (fuel : nat) : M W unit :=
  wspace <- runPrompt_workspace ;;
  runPrompt_formula fuel wspace.

Definition runStdin : M W unit :=
  deleteStdin <- call EvReadJson stdin_ReadJson ;;
  deleteFormula (Workspace deleteStdin) (Groups deleteStdin) 0 ;;;
  deleteFormula ritchieLocalWorkspace (Groups deleteStdin) 0 ;;;
  recriateTreeJson ritchieLocalWorkspace ;;;
  ret tt.

End Command.

(** ** A directory tree as an environment

    The disk is a finite map from paths to nodes.  [os.RemoveAll] drops a
    path and everything below it and is no error on a path that is not
    there; [ioutil.ReadDir] lists the entries of a directory by name.  A
    path that runs through a regular file is ENOTDIR for both, as in Go's
    implementation on Unix.  Permissions and symbolic links are not
    modelled, and the root [[]] is a directory like the others. *)

Inductive node := File (data : string) | Directory.

Global Instance node_eq_dec : EqDecision node.
Proof. solve_decision. Defined.

Abbreviation disk := (gmap path node).

Definition is_dir (o : option node) : bool :=
  match o with Some Directory => true | _ => false end.

Definition is_file (o : option node) : bool :=
  match o with Some (File _) => true | _ => false end.

(** Some proper prefix of [p] is a regular file. *)
Definition file_above (fs : disk) (p : path) : bool :=
  existsb (λ i, is_file (fs !! take i p)) (seq 0 (length p)).

(** The disk without [p] and what is below it. *)
Definition rm (p : path) (fs : disk) : disk :=
  filter (λ kv, ¬ p `prefix_of` kv.1) fs.

Definition fs_RemoveAll (p : path) (fs : disk) : (error + unit) * disk :=
  if file_above fs p then (inl (PathError "unlinkat" p ENOTDIR), fs)
  else (inr tt, rm p fs).

(** [child_name p q] is the entry name when [q] is an entry of [p]. *)
Fixpoint child_name (p q : path) : option string :=
  match p, q with
  | [], [x] => Some x
  | a :: p', b :: q' => if decide (a = b) then child_name p' q' else None
  | _, _ => None
  end.

Definition child_info (p : path) (kv : path * node) : option FileInfo :=
  x ← child_name p kv.1; Some {| Name := x; IsDir := is_dir (Some kv.2) |}.

Definition name_le (a b : FileInfo) : Prop := String.le (Name a) (Name b).

Global Instance name_le_dec : RelDecision name_le.
Proof. intros a b. unfold name_le. apply _. Defined.

(** The entries of [p], sorted by name as [ioutil.ReadDir] does. *)
Definition entries (fs : disk) (p : path) : list FileInfo :=
  merge_sort name_le (omap (child_info p) (map_to_list fs)).

Definition fs_ReadDir (p : path) (fs : disk) : error + list FileInfo :=
  if file_above fs p then inl (PathError "open" p ENOTDIR)
  else match fs !! p with
       | None => inl (PathError "open" p ENOENT)
       | Some (File _) => inl (PathError "readdirent" p ENOTDIR)
       | Some Directory => inr (entries fs p)
       end.

(** [ioutil.WriteFile]: create or truncate, in a directory that exists. *)
Definition fs_WriteFile (p : path) (data : string) (fs : disk)
  : (error + unit) * disk :=
  if is_dir (fs !! p) || bool_decide (p = []) then
    (inl (PathError "open" p EISDIR), fs)
  else if is_dir (fs !! removelast p) then (inr tt, <[p := File data]> fs)
  else (inl (PathError "open" p ENOENT), fs).

(** A stand-in for the tree generator: the command paths below a root, one
    per directory; it fails on a root that is not a directory. *)
Definition command_of (root : path) (kv : path * node) : option (list string) :=
  if bool_decide (root `prefix_of` kv.1 ∧ kv.1 ≠ root) && is_dir (Some kv.2)
  then Some (drop (length root) kv.1) else None.

Definition fs_Generate (root : path) (fs : disk) : error + list (list string) :=
  if is_dir (fs !! root) then inr (omap (command_of root) (map_to_list fs))
  else inl (PathError "open" root ENOENT).

Definition render_tree (t : list (list string)) : string * option error :=
  (String.concat (String "010"%char "") (String.concat " " <$> t), None).

(** The world: the disk, the workspace registry, scripted answers of the
    prompts (as the mocks of the test suite give them), what stdin
    decodes to, and what was printed. *)
Record fsworld := FsWorld {
  disk_of : disk;
  registry : gmap string path;
  input : error + formula.Workspace;
  picks : list string;
  answers : list bool;
  stdin_of : error + deleteFormulaStdin;
  printed : list string;
}.

Definition set_disk (w : fsworld) (fs : disk) : fsworld :=
  FsWorld fs (registry w) (input w) (picks w) (answers w) (stdin_of w) (printed w).

Definition hidden (x : string) : bool :=
  match x with String "."%char _ => true | _ => false end.

Definition fs_List (p : path) (includeHidden : bool) (fs : disk)
  : error + list string :=
  match fs_ReadDir p fs with
  | inl e => inl e
  | inr l => inr (filter (λ x, includeHidden || negb (hidden x)) (Name <$> l))
  end.

Global Instance fs_env : Env fsworld (list (list string)) := {|
  workspace_List w := (inr (registry w), w);
  workspace_Validate ws w :=
    (if is_dir (disk_of w !! formula.Dir ws) then inr tt
     else inl (PathError "stat" (formula.Dir ws) ENOENT), w);
  workspace_Add ws w :=
    (inr tt,
     FsWorld (disk_of w) (<[formula.Name ws := formula.Dir ws]> (registry w))
       (input w) (picks w) (answers w) (stdin_of w) (printed w));
  FormulaWorkspaceInput _ w := (input w, w);
  directory_List p includeHidden w := (fs_List p includeHidden (disk_of w), w);
  inList_List _ _ w :=
    match picks w with
    | [] => (inl (ErrOther "EOF"), w)
    | x :: l => (inr x, FsWorld (disk_of w) (registry w) (input w) l
                          (answers w) (stdin_of w) (printed w))
    end;
  inBool_Bool _ _ w :=
    match answers w with
    | [] => (inl (ErrOther "EOF"), w)
    | b :: l => (inr b, FsWorld (disk_of w) (registry w) (input w) (picks w)
                          l (stdin_of w) (printed w))
    end;
  os_RemoveAll p w :=
    let '(r, fs) := fs_RemoveAll p (disk_of w) in (r, set_disk w fs);
  ioutil_ReadDir p w := (fs_ReadDir p (disk_of w), w);
  treeGen_Generate p w := (fs_Generate p (disk_of w), w);
  json_MarshalIndent t _ _ := render_tree t;
  ioutil_WriteFile p data _ w :=
    let '(r, fs) := fs_WriteFile p data (disk_of w) in (r, set_disk w fs);
  stdin_ReadJson w := (stdin_of w, w);
  prompt_Success msg w :=
    FsWorld (disk_of w) (registry w) (input w) (picks w) (answers w)
      (stdin_of w) (printed w ++ [msg]);
|}.

(** The disk holds exactly these directories and these files (the lists
    without repetition). *)
Definition holds_exactly (fs : disk) (dirs files : list path) : bool :=
  bool_decide (size fs = length dirs + length files)
  && forallb (λ p, is_dir (fs !! p)) dirs
  && forallb (λ p, is_file (fs !! p)) files.

(** A disk given by its directories and files. *)
Definition mkdisk (dirs files : list path) : disk :=
  list_to_map (((λ p, (p, Directory)) <$> dirs) ++ ((λ p, (p, File "")) <$> files)).

Definition mkworld (fs : disk) : fsworld :=
  FsWorld fs ∅ (inl (ErrOther "no input")) [] [] (inl (ErrOther "no input")) [].

(** A well-formed disk: what holds an entry is a directory. *)
Definition wf (fs : disk) : Prop :=
  ∀ p x, is_Some (fs !! (p ++ [x])) → fs !! p = Some Directory.

(** The same, as a check over the entries of the disk. *)
Definition wf_check (fs : disk) : bool :=
  forallb (λ kv : path * node,
             match kv.1 with
             | [] => true
             | _ => is_dir (fs !! removelast kv.1)
             end)
          (map_to_list fs).

(** * Vocabulary of the properties *)

(** ** Levels of a path and chains of single sub-directories *)

(** The directory at segment index [i]: the root joined with the first [i]
    segments. *)
Definition level (root : path) (segs : list string) (i : nat) : path :=
  root ++ take i segs.

(** An event of the unwinding at one of the levels [i .. n-1]. *)
Definition unwinding_at (root : path) (segs : list string) (i : nat)
    (ev : event) : Prop :=
  ∃ j r, i ≤ j < length segs ∧
         (ev = EvRemoveAll (level root segs j) r ∨ ev = EvReadDir (level root segs j) r).

(** The names of the sub-directories of [p]. *)
Definition subdirs (fs : disk) (p : path) : list string :=
  Name <$> filter (λ fi, IsDir fi = true) (entries fs p).

(** [p] has no sub-directory other than [x]. *)
Definition only_subdir (fs : disk) (p : path) (x : string) : bool :=
  bool_decide (Forall (λ y, y = x) (subdirs fs p)).

(** From level [i] down to the parent of the leaf, each directory has the
    next one on the path as its only sub-directory. *)
Definition chain (fs : disk) (root : path) (segs : list string) (i : nat) : bool :=
  forallb (λ j, match segs !! j with
                | Some g => only_subdir fs (level root segs j) g
                | None => true
                end)
          (seq i (length segs - i)).

(** The calls of a run from index [i] that meets no error and removes the
    levels from [c] on: the leaf, then each level from the parent of the
    leaf up to [i] is listed, and removed when it is at [c] or below. *)
Definition unwind_step (root : path) (segs : list string) (c j : nat) : list event :=
  EvReadDir (level root segs j) None
  :: (if decide (c ≤ j) then [EvRemoveAll (level root segs j) None] else []).

Definition unwind_trace (root : path) (segs : list string) (c i : nat) : list event :=
  EvRemoveAll (level root segs (length segs)) None
  :: flat_map (unwind_step root segs c) (rev (seq i (length segs - i))).

Arguments level : simpl never.
Arguments filepath_Join : simpl never.
Arguments unwind_step : simpl never.
Arguments unwind_trace : simpl never.
Arguments rm : simpl never.
Arguments entries : simpl never.

(** ** Events, failures and shapes of traces *)

(** The error an event records. *)
Definition event_error (ev : event) : option error :=
  match ev with
  | EvWorkspaceList r | EvWorkspaceInput r | EvValidate _ r | EvAdd _ r
  | EvList _ r | EvSelect _ r | EvConfirm _ r | EvRemoveAll _ r
  | EvReadDir _ r | EvGenerate _ r | EvWriteFile _ _ r | EvReadJson r => r
  | EvSuccess _ => None
  end.

Definition error_of {A} (r : result A) : option error :=
  match r with Err e => Some e | _ => None end.

(** Calls of the two deletion passes, of the index regeneration, of the
    path resolution, and of the workspace selection. *)
Definition is_deletion (ev : event) : bool :=
  match ev with EvRemoveAll _ _ | EvReadDir _ _ => true | _ => false end.

Definition is_index (ev : event) : bool :=
  match ev with EvGenerate _ _ | EvWriteFile _ _ _ => true | _ => false end.

Definition is_resolution (ev : event) : bool :=
  match ev with EvList _ _ | EvSelect _ _ => true | _ => false end.

Definition is_workspace (ev : event) : bool :=
  match ev with
  | EvWorkspaceList _ | EvWorkspaceInput _ | EvValidate _ _ | EvAdd _ _ => true
  | _ => false
  end.

(** Calls of the interactive entry point that only ask: the listings and
    selections of the resolution and the confirmation. *)
Definition is_question (ev : event) : bool :=
  match ev with EvList _ _ | EvSelect _ _ | EvConfirm _ _ => true | _ => false end.

Definition is_success (ev : event) : bool :=
  match ev with EvSuccess _ => true | _ => false end.

(** No call of [tr] failed. *)
Definition clean (tr : list event) : Prop :=
  Forall (λ ev, event_error ev = None) tr.

(** How the calls [tr] of a run relate to the error [oe] it returns:
    either no call failed, and the only error the run can return is the
    command's own sentinel; or the last call failed, no call before it
    did, and its error is what the run returns. *)
Definition propagated (tr : list event) (oe : option error) : Prop :=
  (clean tr ∧ ∀ e, oe = Some e → e = ErrCouldNotFindFormula)
  ∨ (∃ pre ev e, tr = pre ++ [ev] ∧ clean pre ∧ event_error ev = Some e ∧ oe = Some e).

(** A computation whose every run adds events of the class [P] to the
    trace, the last of which is the failing one if it returns an error. *)
Definition emits {W A} (P : event → Prop) (m : M W A) : Prop :=
  ∀ s, ∃ tr, trace (m s).2 = trace s ++ tr
             ∧ Forall P tr
             ∧ propagated tr (error_of (m s).1).

(** What the index regeneration adds to the trace: a failed generation, or
    a generation and one write of the index file. *)
Definition index_events (d : deleteFormulaCmd) (idx : list event) : Prop :=
  (∃ e, idx = [EvGenerate (ritchieLocalWorkspace d) (Some e)])
  ∨ (∃ data r,
       idx = [EvGenerate (ritchieLocalWorkspace d) None;
              EvWriteFile (filepath_Join (ritchieHomeDir d)
                             ["repos"; "local"; "tree.json"]) data r]).

(** The part both entry points share, with what follows it. *)
Definition passes {W Tree : Type} `{!Env W Tree} (d : deleteFormulaCmd)
    (ws : path) (groups : list string) (k : M W unit) : M W unit :=
  deleteFormula ws groups 0 ;;;
  deleteFormula (ritchieLocalWorkspace d) groups 0 ;;;
  recriateTreeJson d (ritchieLocalWorkspace d) ;;;
  k.

(** A call of [deleteFormula] on the directory of the first [j] segments,
    for some [j] from [lo] on, whatever the segment strings are. *)
Definition touches (ws : path) (groups : list string) (lo : nat)
    (ev : event) : Prop :=
  ∃ j r, lo ≤ j ≤ length groups
         ∧ (ev = EvRemoveAll (filepath_Join ws (take j groups)) r
            ∨ ev = EvReadDir (filepath_Join ws (take j groups)) r).

(** The calls of a resolution that chose [groups] below [dir], being
    offered [opts]: each directory on the way is listed and a name chosen,
    the last one is only listed. *)
Fixpoint resolution_trace (dir : path) (groups : list string)
    (opts : list (list string)) : list event :=
  match groups, opts with
  | g :: groups', o :: opts' =>
      EvList dir None :: EvSelect o None
      :: resolution_trace (filepath_Join dir [g]) groups' opts'
  | _, _ => [EvList dir None]
  end.

(** The answers of the environment in such a resolution, from the world
    [w] to the world [w']: each directory on the way is listed; its
    listing, without the reserved entry, is [o], which is not classified
    as a formula; the selector, asked to choose among [o], answers the
    segment [g]; and the listing of the last directory is classified as a
    formula. *)
Section Resolution.
Context {W Tree : Type} `{!Env W Tree}.
Variables (docsDir : string) (isFormula : list string → bool).

Fixpoint resolves (dir : path) (groups : list string) (opts : list (list string))
    (w w' : W) : Prop :=
  match groups, opts with
  | [], [] =>
      ∃ dirs, directory_List dir false w = (inr dirs, w')
              ∧ isFormula (sliceutil_Remove dirs docsDir) = true
  | g :: groups', o :: opts' =>
      ∃ dirs w1 w2,
        directory_List dir false w = (inr dirs, w1)
        ∧ o = sliceutil_Remove dirs docsDir
        ∧ isFormula o = false
        ∧ inList_List "Select a formula or group: " o w1 = (inr g, w2)
        ∧ resolves (filepath_Join dir [g]) groups' opts' w2 w'
  | _, _ => False
  end.

End Resolution.

(** ** The classification of the spec *)

(** Modelled from the spec: [isFormula] is declared in a file of package
    [cmd] that is not among the sources.  "Classify the listing as a
    Formula leaf if it contains only non-directory entries"; "an empty
    directory at any level [...] is treated as a Formula leaf".  The
    listing holds names, so which of them name directories is left to
    [is_dir_name]. *)
Definition isFormula_spec (is_dir_name : string → bool) (dirs : list string) : bool :=
  forallb (λ n, negb (is_dir_name n)) dirs.

(** ** Disks and worlds of the examples *)

(** The command of the examples. *)
Definition cmd0 : deleteFormulaCmd :=
  {| userHomeDir := ["home"]; ritchieHomeDir := ["home"; ".rit"] |}.

(** The disk of the examples: a workspace [/home/ws] with the formula
    [a/b/c]. *)
Definition demo : disk :=
  mkdisk [[]; ["home"]; ["home"; "ws"]; ["home"; "ws"; "a"];
          ["home"; "ws"; "a"; "b"]; ["home"; "ws"; "a"; "b"; "c"]]
         [["home"; "ws"; "a"; "b"; "c"; "main.go"]].

(** A workspace with the formulas [docker/build] and [docker/push]. *)
Definition docker : disk :=
  mkdisk [[]; ["home"]; ["home"; "ws"]; ["home"; "ws"; "docker"];
          ["home"; "ws"; "docker"; "build"]; ["home"; "ws"; "docker"; "push"]]
         [["home"; "ws"; "docker"; "build"; "Makefile"];
          ["home"; "ws"; "docker"; "push"; "Makefile"]].

(** A group that holds a stray file beside its one formula. *)
Definition stray : disk :=
  mkdisk [[]; ["home"]; ["home"; "ws"]; ["home"; "ws"; "aws"];
          ["home"; "ws"; "aws"; "s3"]]
         [["home"; "ws"; "aws"; "README.md"];
          ["home"; "ws"; "aws"; "s3"; "main.go"]].

(** A workspace and the local mirror, each holding the formula [a/b]. *)
Definition synced : disk :=
  mkdisk [[]; ["home"]; ["home"; "ws"]; ["home"; "ws"; "a"]; ["home"; "ws"; "a"; "b"];
          ["home"; ".rit"]; ["home"; ".rit"; "repos"];
          ["home"; ".rit"; "repos"; "local"];
          ["home"; ".rit"; "repos"; "local"; "a"];
          ["home"; ".rit"; "repos"; "local"; "a"; "b"]]
         [["home"; "ws"; "a"; "b"; "main.go"];
          ["home"; ".rit"; "repos"; "local"; "a"; "b"; "main.go"];
          ["home"; ".rit"; "repos"; "local"; "tree.json"]].

(** A workspace holding the formula [a/b] that the local mirror lacks. *)
Definition unsynced : disk :=
  mkdisk [[]; ["home"]; ["home"; "ws"]; ["home"; "ws"; "a"]; ["home"; "ws"; "a"; "b"];
          ["home"; ".rit"]; ["home"; ".rit"; "repos"];
          ["home"; ".rit"; "repos"; "local"]]
         [["home"; "ws"; "a"; "b"; "main.go"];
          ["home"; ".rit"; "repos"; "local"; "tree.json"]].

(** A local mirror holding the formula [a/b] that the workspace lacks. *)
Definition mirror_only : disk :=
  mkdisk [[]; ["home"]; ["home"; "ws"];
          ["home"; ".rit"]; ["home"; ".rit"; "repos"];
          ["home"; ".rit"; "repos"; "local"];
          ["home"; ".rit"; "repos"; "local"; "a"];
          ["home"; ".rit"; "repos"; "local"; "a"; "b"]]
         [["home"; ".rit"; "repos"; "local"; "a"; "b"; "main.go"];
          ["home"; ".rit"; "repos"; "local"; "tree.json"]].

(** An empty workspace directory. *)
Definition empty_ws : disk :=
  mkdisk [[]; ["home"]; ["home"; "ws"]; ["home"; ".rit"]; ["home"; ".rit"; "repos"];
          ["home"; ".rit"; "repos"; "local"]] [].

(** A group that holds a file and no formula. *)
Definition readme_only : disk :=
  mkdisk [[]; ["home"]; ["home"; "ws"]; ["home"; "ws"; "aws"]]
         [["home"; "ws"; "aws"; "README.md"]].

(** A workspace where the name of a group is taken by a regular file. *)
Definition blocked : disk :=
  mkdisk [[]; ["home"]; ["home"; "ws"]] [["home"; "ws"; "a"]].

(** A classifier for the examples: a listing that holds [main.go] is a
    formula. *)
Definition holds_main (dirs : list string) : bool := bool_decide ("main.go" ∈ dirs).

(** Worlds of the examples: a batch request on stdin, or scripted answers
    to the prompts. *)
Definition stdin_world (fs : disk) (req : deleteFormulaStdin) : fsworld :=
  FsWorld fs ∅ (inl (ErrOther "no input")) [] [] (inr req) [].

Definition prompt_world (fs : disk) (wspace : formula.Workspace)
    (picks : list string) (answers : list bool) : fsworld :=
  FsWorld fs ∅ (inr wspace) picks answers (inl (ErrOther "no input")) [].

(** * Properties *)

(** ** Paths *)

Lemma components_plain (s : string) :
  has_separator s = false → components s = [s].
Proof.
  induction s as [|c s IH]; intros Hs; simpl in *; [done|].
  apply orb_false_iff in Hs as [Hc Hs]. by rewrite Hc, (IH Hs).
Qed.

Lemma plain_name_spec (g : string) :
  plain_name g = true ↔
  has_separator g = false ∧ g ≠ "" ∧ g ≠ "." ∧ g ≠ "..".
Proof.
  unfold plain_name. rewrite !andb_true_iff, negb_true_iff, !bool_decide_eq_true.
  tauto.
Qed.

(** Joining a plain name appends one component. *)
Lemma filepath_Join_plain (p : path) (g : string) :
  plain_name g = true → filepath_Join p [g] = p ++ [g].
Proof.
  intros (Hs & H1 & H2 & H3)%plain_name_spec.
  unfold filepath_Join, join_elem; simpl.
  rewrite (components_plain _ Hs); simpl.
  unfold join_component. by repeat case_decide.
Qed.

(** ** The monad *)

Section Monad.
Context {W : Type}.

Lemma bind_Ok {A B} (m : M W A) (k : A → M W B) s a s' :
  m s = (Ok a, s') → bind m k s = k a s'.
Proof. unfold bind. by intros ->. Qed.

Lemma bind_Err {A B} (m : M W A) (k : A → M W B) s e s' :
  m s = (Err e, s') → bind m k s = (Err e, s').
Proof. unfold bind. by intros ->. Qed.

Lemma bind_ext {A B} (m m' : M W A) (k k' : A → M W B) s :
  m s = m' s → (∀ a s', k a s' = k' a s') → bind m k s = bind m' k' s.
Proof.
  unfold bind. intros -> Hk. destruct (m' s) as [[a| | |] s']; auto.
Qed.

End Monad.

(** ** [deleteFormula] on every environment *)

Section Generic.
Context {W Tree : Type} `{!Env W Tree}.

(** More fuel than the distance to the end of the segments changes nothing. *)
Lemma deleteFormula_rec_fuel (fuel fuel' : nat) ws groups index s :
  length groups - index < fuel → length groups - index < fuel' →
  deleteFormula_rec fuel ws groups index s
  = deleteFormula_rec fuel' ws groups index s.
Proof.
  revert fuel' ws index s.
  induction fuel as [|fuel IH]; intros [|fuel'] ws index s Hf Hf'; try lia.
  simpl. case_decide; [done|].
  destruct (groups !! index) as [g|] eqn:Hg; [|done].
  apply lookup_lt_Some in Hg.
  apply bind_ext; [|done]. apply IH; lia.
Qed.

(** The base case: at the end of the segments the directory goes. *)
Lemma deleteFormula_base ws groups s :
  deleteFormula ws groups (length groups) s
  = call (EvRemoveAll ws) (os_RemoveAll ws) s.
Proof. unfold deleteFormula. simpl. by rewrite decide_True. Qed.

(** The recursive case, as the source has it. *)
Lemma deleteFormula_step ws groups index g s :
  groups !! index = Some g →
  deleteFormula ws groups index s
  = (deleteFormula (filepath_Join ws [g]) groups (index + 1) ;;;
     if decide (index = 0) then ret tt
     else
       ok <- canDelete ws ;;
       if ok : bool then call (EvRemoveAll ws) (os_RemoveAll ws) else ret tt) s.
Proof.
  intros Hg. pose proof (lookup_lt_Some _ _ _ Hg) as Hlt.
  unfold deleteFormula at 1. simpl.
  rewrite decide_False by lia. rewrite Hg.
  apply bind_ext; [|done].
  unfold deleteFormula. apply deleteFormula_rec_fuel; lia.
Qed.

(** Past the end of the segments the index expression panics. *)
Lemma deleteFormula_out_of_range ws groups index s :
  length groups < index → deleteFormula ws groups index s = (Panic, s).
Proof.
  intros Hlt. unfold deleteFormula. simpl.
  rewrite decide_False by lia. by rewrite lookup_ge_None_2 by lia.
Qed.

End Generic.

(** ** The disk *)

Section Disk.
Implicit Types (fs : disk) (p q : path).

Lemma lookup_rm p fs q :
  rm p fs !! q = if decide (p `prefix_of` q) then None else fs !! q.
Proof.
  unfold rm. rewrite map_lookup_filter.
  destruct (fs !! q) as [n|]; simpl; [|by case_decide].
  case_decide; case_guard; simpl in *; done.
Qed.

Lemma lookup_rm_under p fs q : p `prefix_of` q → rm p fs !! q = None.
Proof. intros. rewrite lookup_rm. by rewrite decide_True. Qed.

Lemma lookup_rm_other p fs q : ¬ p `prefix_of` q → rm p fs !! q = fs !! q.
Proof. intros. rewrite lookup_rm. by rewrite decide_False. Qed.

Lemma lookup_rm_None p fs q : fs !! q = None → rm p fs !! q = None.
Proof. intros. rewrite lookup_rm. by case_decide. Qed.

(** Removing a directory after something below it is removing the directory. *)
Lemma rm_rm p q fs : p `prefix_of` q → rm p (rm q fs) = rm p fs.
Proof.
  intros Hpq. apply map_eq; intros r. rewrite !lookup_rm.
  case_decide; [done|]. rewrite decide_False; [done|].
  intros Hqr. by destruct H; etrans.
Qed.

Lemma rm_absent p fs :
  (∀ q, p `prefix_of` q → fs !! q = None) → rm p fs = fs.
Proof.
  intros Hp. apply map_eq; intros r. rewrite lookup_rm.
  case_decide; [by rewrite Hp|done].
Qed.

Lemma file_above_true fs p :
  file_above fs p = true ↔ ∃ i, i < length p ∧ is_file (fs !! take i p) = true.
Proof.
  unfold file_above. rewrite existsb_exists. split.
  - intros (i & Hi%in_seq & Hf). exists i. split; [lia|done].
  - intros (i & Hi & Hf). exists i. split; [apply in_seq; lia|done].
Qed.

Lemma file_above_false fs p :
  file_above fs p = false ↔ ∀ i, i < length p → is_file (fs !! take i p) = false.
Proof.
  rewrite <- not_true_iff_false, file_above_true. split.
  - intros Hn i Hi. apply not_true_iff_false. intros Hf. apply Hn. eauto.
  - intros Hall (i & Hi & Hf). by rewrite Hall in Hf.
Qed.

Lemma wf_check_sound fs : wf_check fs = true → wf fs.
Proof.
  unfold wf_check. rewrite forallb_forall. intros Hall p x [n Hn].
  apply elem_of_map_to_list, list_elem_of_In, Hall in Hn. simpl in Hn.
  rewrite removelast_last in Hn.
  destruct (p ++ [x]) eqn:Hpx; [by destruct p|].
  by destruct (fs !! p) as [[]|].
Qed.

Lemma wf_above fs p q :
  wf fs → is_Some (fs !! (p ++ q)) → q ≠ [] → fs !! p = Some Directory.
Proof.
  intros Hwf. induction q as [|x q IH] using rev_ind; [done|].
  intros Hs _. rewrite app_assoc in Hs. apply Hwf in Hs.
  destruct q as [|y q]; [by rewrite app_nil_r in Hs|].
  apply IH; [by rewrite Hs|done].
Qed.

Lemma wf_take fs p i :
  wf fs → is_Some (fs !! p) → i < length p → fs !! take i p = Some Directory.
Proof.
  intros Hwf Hs Hi. apply (wf_above fs _ (drop i p)); [done| |].
  - by rewrite take_drop.
  - intros Hnil. apply (f_equal length) in Hnil.
    rewrite length_drop in Hnil. simpl in Hnil. lia.
Qed.

Lemma wf_file_above fs p :
  wf fs → is_Some (fs !! p) → file_above fs p = false.
Proof.
  intros Hwf Hs. apply file_above_false. intros i Hi.
  by rewrite (wf_take fs p i).
Qed.

(** Below a directory of a well-formed disk no path runs through a file. *)
Lemma wf_file_above_entry fs p x :
  wf fs → fs !! p = Some Directory → file_above fs (p ++ [x]) = false.
Proof.
  intros Hwf Hp. apply file_above_false. intros i Hi.
  rewrite length_app in Hi. simpl in Hi.
  destruct (decide (i = length p)) as [->|Hne].
  - by rewrite take_app_length, Hp.
  - rewrite take_app_le by lia. rewrite (wf_take fs p i); [done..| |lia].
    by rewrite Hp.
Qed.

Lemma wf_rm p fs : wf fs → wf (rm p fs).
Proof.
  intros Hwf q x [n Hn]. rewrite lookup_rm in Hn.
  case_decide as Hpre; [done|].
  rewrite lookup_rm_other.
  - apply (Hwf q x). by rewrite Hn.
  - intros Hpq. apply Hpre. etrans; [done|]. by apply prefix_app_r.
Qed.

Lemma file_above_rm p fs q :
  file_above fs q = false → file_above (rm p fs) q = false.
Proof.
  rewrite !file_above_false. intros Hq i Hi. specialize (Hq i Hi).
  rewrite lookup_rm. case_decide; [done|done].
Qed.

(** *** Entries of a directory *)

Lemma child_name_spec p q x : child_name p q = Some x ↔ q = p ++ [x].
Proof.
  revert q. induction p as [|a p IH]; intros [|b q]; simpl.
  - split; intros; discriminate.
  - destruct q; split; intros Hq; by simplify_eq.
  - split; [discriminate|]. intros Hq. by destruct p.
  - case_decide as Hab.
    + subst. rewrite IH. split; intros Hq; by simplify_eq.
    + split; [discriminate|]. intros Hq. by simplify_eq.
Qed.

Lemma elem_of_entries fs p fi :
  fi ∈ entries fs p ↔
  ∃ x n, fs !! (p ++ [x]) = Some n ∧ fi = {| Name := x; IsDir := is_dir (Some n) |}.
Proof.
  unfold entries. rewrite merge_sort_Permutation, list_elem_of_omap. split.
  - intros ([q n] & Hq%elem_of_map_to_list & Hc). unfold child_info in Hc.
    simpl in Hc. destruct (child_name p q) as [x|] eqn:Hx; simplify_eq/=.
    apply child_name_spec in Hx as ->. eauto.
  - intros (x & n & Hn & ->). exists (p ++ [x], n). split.
    + by apply elem_of_map_to_list.
    + unfold child_info. simpl.
      by rewrite (proj2 (child_name_spec p (p ++ [x]) x) eq_refl).
Qed.

Lemma canDelete_loop_true (l : list FileInfo) :
  canDelete_loop l = true ↔ ∀ fi, fi ∈ l → IsDir fi = false.
Proof.
  induction l as [|fi l IH]; simpl.
  - split; [|done]. intros _ fi Hfi. by apply elem_of_nil in Hfi.
  - destruct (IsDir fi) eqn:Hd.
    + split; [done|]. intros Hall. rewrite <- Hd. symmetry.
      apply Hall, elem_of_cons. by left.
    + rewrite IH. split.
      * intros Hall fi' [->|Hin]%elem_of_cons; auto.
      * intros Hall fi' Hin. apply Hall, elem_of_cons. by right.
Qed.

(** The loop of [canDelete] answers true exactly on a directory without
    sub-directories. *)
Lemma canDelete_loop_entries fs p :
  canDelete_loop (entries fs p) = true ↔
  ∀ x, fs !! (p ++ [x]) ≠ Some Directory.
Proof.
  rewrite canDelete_loop_true. split.
  - intros Hall x Hx.
    specialize (Hall {| Name := x; IsDir := true |}). simpl in Hall.
    assert (true = false) by (apply Hall, elem_of_entries; eauto). done.
  - intros Hno fi (x & n & Hn & ->)%elem_of_entries. simpl.
    destruct n; [done|]. by destruct (Hno x).
Qed.

End Disk.

(** ** [deleteFormula] on the disk *)

Section OnDisk.
Implicit Types (fs : disk) (w : fsworld) (tr : list event).

Lemma set_disk_id w : set_disk w (disk_of w) = w.
Proof. by destruct w. Qed.

Lemma set_disk_set_disk w fs fs' : set_disk (set_disk w fs) fs' = set_disk w fs'.
Proof. done. Qed.

Lemma run_RemoveAll w tr p :
  call (EvRemoveAll p) (os_RemoveAll p) (State w tr)
  = if file_above (disk_of w) p
    then (Err (PathError "unlinkat" p ENOTDIR),
          State w (tr ++ [EvRemoveAll p (Some (PathError "unlinkat" p ENOTDIR))]))
    else (Ok tt, State (set_disk w (rm p (disk_of w))) (tr ++ [EvRemoveAll p None])).
Proof.
  unfold call; simpl. unfold fs_RemoveAll.
  destruct (file_above (disk_of w) p); simpl; [|done].
  by rewrite set_disk_id.
Qed.

Lemma run_canDelete w tr p :
  canDelete p (State w tr)
  = match fs_ReadDir p (disk_of w) with
    | inl e => (Err e, State w (tr ++ [EvReadDir p (Some e)]))
    | inr l => (Ok (canDelete_loop l), State w (tr ++ [EvReadDir p None]))
    end.
Proof.
  unfold canDelete, bind, call; simpl.
  by destruct (fs_ReadDir p (disk_of w)).
Qed.

Lemma level_prefix root segs i j : i ≤ j → level root segs i `prefix_of` level root segs j.
Proof.
  intros Hij. unfold level. apply prefix_app.
  replace (take i segs) with (take i (take j segs)); [apply prefix_take|].
  rewrite take_take. f_equal. lia.
Qed.

Lemma level_length root segs i :
  i ≤ length segs → length (level root segs i) = length root + i.
Proof. intros. unfold level. rewrite length_app, length_take. lia. Qed.

Lemma level_prefix_inv root segs i j :
  i ≤ length segs → j ≤ length segs →
  level root segs i `prefix_of` level root segs j → i ≤ j.
Proof.
  intros Hi Hj Hp%prefix_length. rewrite !level_length in Hp by done. lia.
Qed.

Lemma level_S root segs i g :
  segs !! i = Some g → level root segs (i + 1) = level root segs i ++ [g].
Proof.
  intros Hg. unfold level. rewrite Nat.add_1_r, (take_S_r _ _ _ Hg).
  by rewrite app_assoc.
Qed.

Lemma level_0 root segs : level root segs 0 = root.
Proof. unfold level. by rewrite take_0, app_nil_r. Qed.

Lemma level_all root segs : level root segs (length segs) = root ++ segs.
Proof. unfold level. by rewrite firstn_all. Qed.

Section Names.
Variables (root : path) (segs : list string).
Hypothesis names : ∀ g, g ∈ segs → plain_name g = true.

(** Whatever is on the disk, the call at index [i ≥ 1] returns, starts by
    removing the directory of all segments, and leaves the disk with at
    most one directory at some level from [i] on removed. *)
Lemma deleteFormula_level_any (k : nat) :
  ∀ i, length segs - i = k → 1 ≤ i → i ≤ length segs →
  ∀ w tr, ∃ r fs' r0 tr',
    deleteFormula (level root segs i) segs i (State w tr)
    = (r, State (set_disk w fs')
            (tr ++ EvRemoveAll (level root segs (length segs)) r0 :: tr'))
    ∧ (r = Ok tt ∨ ∃ e, r = Err e)
    ∧ (fs' = disk_of w
       ∨ ∃ c, i ≤ c ≤ length segs ∧ fs' = rm (level root segs c) (disk_of w))
    ∧ (r = Ok tt →
       ∃ c, i ≤ c ≤ length segs ∧ fs' = rm (level root segs c) (disk_of w))
    ∧ Forall (unwinding_at root segs i) tr'.
Proof.
  induction k as [|k IH]; intros i Hk Hi Hn w tr.
  - assert (i = length segs) as -> by lia.
    rewrite deleteFormula_base, run_RemoveAll.
    destruct (file_above _ _).
    + eexists _, (disk_of w), _, []. rewrite set_disk_id.
      split; [done|]. split; [eauto|]. split; [by left|]. by split.
    + eexists _, _, _, []. split; [done|]. split; [by left|].
      split; [right|split; [intros _|done]]; exists (length segs); split; done || lia.
  - destruct (lookup_lt_is_Some_2 segs i) as [g Hg]; [lia|].
    rewrite (deleteFormula_step _ _ _ g) by done.
    rewrite filepath_Join_plain by (apply names; by eapply list_elem_of_lookup_2).
    rewrite <- (level_S _ _ _ _ Hg).
    destruct (IH (i + 1)) with (w := w) (tr := tr)
      as (r & fs1 & r0 & tr1 & Hrun & Hr & Hfs & Hok & Htr); [lia..|].
    assert (Forall (unwinding_at root segs i) tr1) as Htr1.
    { eapply Forall_impl; [done|]. intros ev (j & rj & Hj & Hev).
      exists j, rj. split; [lia|done]. }
    assert (∀ rv, unwinding_at root segs i (EvRemoveAll (level root segs i) rv)
                  ∧ unwinding_at root segs i (EvReadDir (level root segs i) rv))
      as Hat.
    { intros rv. split; exists i, rv; (split; [lia|eauto]). }
    destruct Hr as [->|[e ->]].
    + destruct (Hok eq_refl) as (c & Hc & ->). clear Hok Hfs.
      rewrite (bind_Ok _ _ _ _ _ Hrun). rewrite decide_False by lia.
      unfold bind at 1. rewrite run_canDelete. simpl.
      destruct (fs_ReadDir _ _) as [e|l]; simpl.
      * rewrite <- app_assoc; simpl.
        eexists _, _, r0, (tr1 ++ [_]).
        split; [done|]. split; [eauto|].
        split; [right; exists c; split; [lia|done]|].
        split; [done|]. apply Forall_app. split; [done|].
        apply Forall_singleton, Hat.
      * destruct (canDelete_loop l).
        -- rewrite run_RemoveAll. simpl. destruct (file_above _ _).
           ++ rewrite <- !app_assoc; simpl.
              eexists _, _, r0, (tr1 ++ [_; _]).
              split; [done|]. split; [eauto|].
              split; [right; exists c; split; [lia|done]|].
              split; [done|].
              apply Forall_app. split; [done|].
              apply Forall_cons. split; [apply Hat|].
              apply Forall_singleton, Hat.
           ++ rewrite <- !app_assoc; simpl.
              rewrite rm_rm by (apply level_prefix; lia).
              eexists _, _, r0, (tr1 ++ [_; _]).
              split; [done|]. split; [eauto|].
              split; [right; exists i; split; [lia|done]|].
              split; [intros _; exists i; split; [lia|done]|].
              apply Forall_app. split; [done|].
              apply Forall_cons. split; [apply Hat|].
              apply Forall_singleton, Hat.
        -- rewrite <- app_assoc; simpl.
           eexists _, _, r0, (tr1 ++ [_]).
           split; [done|]. split; [eauto|].
           split; [right; exists c; split; [lia|done]|].
           split; [intros _; exists c; split; [lia|done]|].
           apply Forall_app. split; [done|]. apply Forall_singleton, Hat.
    + rewrite (bind_Err _ _ _ _ _ Hrun).
      eexists _, _, r0, tr1. split; [done|]. split; [eauto|].
      split; [|split; [done|done]].
      destruct Hfs as [->|(c & Hc & ->)]; [by left|].
      right. exists c. split; [lia|done].
Qed.

End Names.
End OnDisk.

(** *** The exact outcome on a well-formed disk *)

Section Exact.
Implicit Types (fs : disk) (w : fsworld) (tr : list event).

Lemma elem_of_subdirs fs p y : y ∈ subdirs fs p ↔ fs !! (p ++ [y]) = Some Directory.
Proof.
  unfold subdirs. rewrite list_elem_of_fmap. split.
  - intros (fi & -> & [Hd (x & n & Hn & ->)%elem_of_entries]%list_elem_of_filter).
    simpl in *. by destruct n.
  - intros Hy. exists {| Name := y; IsDir := true |}. split; [done|].
    apply list_elem_of_filter. split; [done|]. apply elem_of_entries. eauto.
Qed.

Lemma only_subdir_true fs p x :
  only_subdir fs p x = true ↔ ∀ y, fs !! (p ++ [y]) = Some Directory → y = x.
Proof.
  unfold only_subdir. rewrite bool_decide_eq_true, Forall_forall.
  by setoid_rewrite elem_of_subdirs.
Qed.

Lemma only_subdir_false fs p x :
  only_subdir fs p x = false → ∃ y, fs !! (p ++ [y]) = Some Directory ∧ y ≠ x.
Proof.
  unfold only_subdir. rewrite bool_decide_eq_false.
  intros (y & Hy%elem_of_subdirs & Hne)%not_Forall_Exists%Exists_exists; [eauto|].
  intros y. apply _.
Qed.

Lemma chain_end fs root segs : chain fs root segs (length segs) = true.
Proof. unfold chain. by rewrite Nat.sub_diag. Qed.

Lemma chain_S fs root segs i g :
  segs !! i = Some g →
  chain fs root segs i
  = only_subdir fs (level root segs i) g && chain fs root segs (i + 1).
Proof.
  intros Hg. pose proof (lookup_lt_Some _ _ _ Hg). unfold chain.
  replace (length segs - i) with (S (length segs - (i + 1))) by lia.
  simpl. rewrite Hg. by rewrite Nat.add_1_r.
Qed.

(** Once a level is a chain, the deeper ones are. *)
Lemma chain_mono fs root segs i j :
  i ≤ j → j ≤ length segs → chain fs root segs i = true → chain fs root segs j = true.
Proof.
  intros Hij Hj. induction Hij as [|j Hij IH]; [done|].
  intros Hi. specialize (IH ltac:(lia) Hi).
  destruct (lookup_lt_is_Some_2 segs j) as [g Hg]; [lia|].
  rewrite (chain_S _ _ _ _ g Hg), andb_true_iff in IH.
  rewrite <- Nat.add_1_r. tauto.
Qed.

Lemma level_prefix_entry root segs c i g y :
  i < c → c ≤ length segs → segs !! i = Some g →
  level root segs c `prefix_of` level root segs i ++ [y] → c = i + 1 ∧ y = g.
Proof.
  intros Hic Hc Hg Hpre. pose proof (lookup_lt_Some _ _ _ Hg) as Hi.
  pose proof (prefix_length _ _ Hpre) as Hlen.
  rewrite length_app, !level_length in Hlen by lia. simpl in Hlen.
  assert (c = i + 1) as -> by lia. split; [done|].
  rewrite (level_S _ _ _ _ Hg) in Hpre.
  apply prefix_length_eq in Hpre; [|by rewrite !length_app].
  by apply app_inv_head in Hpre as [= ->].
Qed.

Lemma unwind_trace_S root segs c i :
  i < length segs →
  unwind_trace root segs c i
  = unwind_trace root segs c (i + 1) ++ unwind_step root segs c i.
Proof.
  intros Hi. unfold unwind_trace.
  replace (length segs - i) with (S (length segs - (i + 1))) by lia.
  simpl. rewrite flat_map_app. simpl. rewrite app_nil_r.
  by rewrite Nat.add_1_r.
Qed.

Lemma flat_map_ext_In {A B} (f g : A → list B) (l : list A) :
  (∀ a, In a l → f a = g a) → flat_map f l = flat_map g l.
Proof.
  induction l as [|a l IH]; intros Hfg; simpl; [done|].
  rewrite Hfg by (by left). rewrite IH; [done|].
  intros b Hb. apply Hfg. by right.
Qed.

(** Only the levels from [c] on matter to the calls above them. *)
Lemma unwind_trace_cut root segs c c' i :
  c ≤ i → c' ≤ i → unwind_trace root segs c i = unwind_trace root segs c' i.
Proof.
  intros Hc Hc'. unfold unwind_trace. f_equal. apply flat_map_ext_In.
  intros j Hj%in_rev%in_seq. unfold unwind_step.
  by rewrite !decide_True by lia.
Qed.

Section Levels.
Variables (root : path) (segs : list string).
Hypothesis names : ∀ g, g ∈ segs → plain_name g = true.

(** After the levels from [c > i] on are gone, level [i] has no
    sub-directory exactly when [c] is the next level and that was its
    only sub-directory. *)
Lemma prunable_after fs c i g :
  i < c → c ≤ length segs → segs !! i = Some g →
  (i + 1 < c → fs !! level root segs (i + 1) = Some Directory) →
  canDelete_loop (entries (rm (level root segs c) fs) (level root segs i))
  = bool_decide (c = i + 1) && only_subdir fs (level root segs i) g.
Proof.
  intros Hic Hc Hg Hnext. apply eq_true_iff_eq.
  rewrite canDelete_loop_entries, andb_true_iff, bool_decide_eq_true,
    only_subdir_true.
  split.
  - intros Hno. assert (c = i + 1) as ->.
    { destruct (decide (c = i + 1)) as [|Hne]; [done|].
      destruct (Hno g). rewrite <- (level_S _ _ _ _ Hg).
      rewrite lookup_rm_other; [apply Hnext; lia|].
      intros Hpre%level_prefix_inv; lia. }
    split; [done|]. intros y Hy.
    destruct (decide (y = g)) as [|Hne]; [done|]. destruct (Hno y).
    rewrite lookup_rm_other; [done|].
    intros [_ ?]%(level_prefix_entry _ _ _ _ g); done || lia.
  - intros [-> Honly] y Hy. rewrite lookup_rm in Hy.
    case_decide as Hpre; [done|]. apply Honly in Hy as ->.
    apply Hpre. by rewrite (level_S _ _ _ _ Hg).
Qed.

(** On a well-formed disk every level above the parent of the leaf is a
    directory when the parent is. *)
Lemma levels_are_dirs fs j :
  wf fs → fs !! level root segs (length segs - 1) = Some Directory →
  j ≤ length segs - 1 → fs !! level root segs j = Some Directory.
Proof.
  intros Hwf Hparent Hj.
  destruct (decide (j = length segs - 1)) as [->|]; [done|].
  destruct (level_prefix root segs j (length segs - 1)) as [q Hq]; [lia|].
  apply (wf_above _ _ q); [done|by rewrite <- Hq, Hparent|].
  intros ->. rewrite app_nil_r in Hq. apply (f_equal length) in Hq.
  rewrite !level_length in Hq by lia. lia.
Qed.

(** The check of level [i], made when the levels from [c] on are gone,
    [c] being the first chain below [i]: it meets no error and answers
    whether [i] is a chain. *)
Lemma canDelete_at_level fs w tr c i g :
  wf fs → fs !! level root segs (length segs - 1) = Some Directory →
  i < c → c ≤ length segs → segs !! i = Some g →
  chain fs root segs c = true →
  (∀ j, i + 1 ≤ j < c → chain fs root segs j = false) →
  disk_of w = rm (level root segs c) fs →
  file_above (disk_of w) (level root segs i) = false
  ∧ canDelete (level root segs i) (State w tr)
    = (Ok (chain fs root segs i), State w (tr ++ [EvReadDir (level root segs i) None])).
Proof.
  intros Hwf Hparent Hic Hc Hg Hchain Hmin Hw.
  assert (file_above (disk_of w) (level root segs i) = false) as Hfile.
  { rewrite Hw. apply file_above_rm, wf_file_above; [done|].
    rewrite (levels_are_dirs fs i); [done..|lia]. }
  split; [done|].
  rewrite run_canDelete. unfold fs_ReadDir. rewrite Hfile, Hw.
  rewrite lookup_rm_other by (intros Hpre%level_prefix_inv; lia).
  rewrite (levels_are_dirs fs i) by (done || lia).
  rewrite (prunable_after _ c i g)
    by (done || lia || (intros; apply levels_are_dirs; done || lia)).
  rewrite (chain_S _ _ _ _ g Hg). do 2 f_equal.
  rewrite andb_comm. f_equal.
  destruct (decide (c = i + 1)) as [->|Hne].
  - by rewrite bool_decide_eq_true_2, Hchain.
  - rewrite bool_decide_eq_false_2 by done. symmetry. apply Hmin. lia.
Qed.

Lemma deleteFormula_level_exact (k : nat) :
  ∀ i, length segs - i = k → 1 ≤ i → i ≤ length segs →
  ∀ w tr,
    wf (disk_of w) →
    disk_of w !! level root segs (length segs - 1) = Some Directory →
    ∃ c, i ≤ c ≤ length segs
         ∧ chain (disk_of w) root segs c = true
         ∧ (∀ j, i ≤ j < c → chain (disk_of w) root segs j = false)
         ∧ deleteFormula (level root segs i) segs i (State w tr)
           = (Ok tt, State (set_disk w (rm (level root segs c) (disk_of w)))
                       (tr ++ unwind_trace root segs c i)).
Proof.
  induction k as [|k IH]; intros i Hk Hi Hn w tr Hwf Hparent.
  - assert (i = length segs) as -> by lia.
    exists (length segs). split; [lia|]. split; [apply chain_end|].
    split; [intros; lia|].
    rewrite deleteFormula_base, run_RemoveAll.
    destruct (lookup_lt_is_Some_2 segs (length segs - 1)) as [g Hg]; [lia|].
    pose proof (level_S root segs _ g Hg) as HS.
    replace (length segs - 1 + 1) with (length segs) in HS by lia.
    rewrite HS at 1. rewrite wf_file_above_entry by done.
    unfold unwind_trace. by rewrite Nat.sub_diag.
  - destruct (lookup_lt_is_Some_2 segs i) as [g Hg]; [lia|].
    destruct (IH (i + 1)) with (w := w) (tr := tr)
      as (c & Hc & Hchain & Hmin & Hrun); [lia..|done|done|].
    rewrite (deleteFormula_step _ _ _ g) by done.
    rewrite filepath_Join_plain by (apply names; by eapply list_elem_of_lookup_2).
    rewrite <- (level_S _ _ _ _ Hg).
    rewrite (bind_Ok _ _ _ _ _ Hrun). rewrite decide_False by lia.
    unfold bind at 1.
    edestruct (canDelete_at_level (disk_of w)) as [Hfile ->];
      [done|done| |apply (proj2 Hc)|done|done|done|done|]; [lia|].
    cbn [disk_of set_disk] in Hfile.
    destruct (chain (disk_of w) root segs i) eqn:Hi_chain.
    + assert (c = i + 1) as ->.
      { destruct (decide (c = i + 1)) as [|Hne]; [done|].
        rewrite (chain_S _ _ _ _ g Hg), andb_true_iff in Hi_chain.
        rewrite (Hmin (i + 1)) in Hi_chain by lia. by destruct Hi_chain. }
      exists i. split; [lia|]. split; [done|]. split; [intros; lia|].
      rewrite (unwind_trace_S root segs _ i) by lia. unfold unwind_step.
      rewrite run_RemoveAll. cbn [disk_of set_disk]. rewrite Hfile.
      rewrite rm_rm by (apply level_prefix; lia).
      rewrite decide_True by lia.
      rewrite (unwind_trace_cut root segs i (i + 1) (i + 1)) by lia.
      by rewrite <- !app_assoc.
    + exists c. split; [lia|]. split; [done|]. split.
      * intros j Hj. destruct (decide (j = i)) as [->|]; [done|apply Hmin; lia].
      * rewrite (unwind_trace_S root segs _ i) by lia. unfold unwind_step.
        rewrite decide_False by lia. by rewrite <- !app_assoc.
Qed.

End Levels.
End Exact.

(** * The claims *)

Section Index0.
Context {W Tree : Type} `{!Env W Tree}.

(** At index 0 nothing follows the recursive call: the root is neither
    listed nor removed. *)
Lemma deleteFormula_index0 ws groups g (s : state W) :
  groups !! 0 = Some g →
  deleteFormula ws groups 0 s = deleteFormula (filepath_Join ws [g]) groups 1 s.
Proof.
  intros Hg. rewrite (deleteFormula_step _ _ _ g) by done.
  rewrite decide_True by done. unfold bind, ret. simpl.
  by destruct (deleteFormula _ groups 1 s) as [[[]| | |] s'].
Qed.

End Index0.

(** The run from the root, whatever is on the disk: it returns, starts by
    removing the directory of all segments, touches only the levels 1 to
    n, and leaves the disk with at most one of them removed. *)
Lemma deleteFormula_root_any (root : path) (segs : list string)
    (w : fsworld) (tr : list event) :
  segs ≠ [] →
  Forall (λ g, plain_name g = true) segs →
  ∃ r fs' r0 tr',
    deleteFormula root segs 0 (State w tr)
    = (r, State (set_disk w fs') (tr ++ EvRemoveAll (root ++ segs) r0 :: tr'))
    ∧ (r = Ok tt ∨ ∃ e, r = Err e)
    ∧ Forall (unwinding_at root segs 1) tr'
    ∧ (fs' = disk_of w
       ∨ ∃ c, 1 ≤ c ≤ length segs ∧ fs' = rm (level root segs c) (disk_of w))
    ∧ (r = Ok tt →
       ∃ c, 1 ≤ c ≤ length segs ∧ fs' = rm (level root segs c) (disk_of w)).
Proof.
  intros Hne Hnames. rewrite Forall_forall in Hnames.
  destruct segs as [|g segs']; [done|]. set (segs := g :: segs') in *.
  rewrite (deleteFormula_index0 _ _ g) by done.
  rewrite (filepath_Join_plain root g) by (apply Hnames, list_elem_of_here).
  change (root ++ [g]) with (level root segs 1).
  destruct (deleteFormula_level_any root segs Hnames (length segs - 1) 1)
    with (w := w) (tr := tr) as (r & fs' & r0 & tr' & Hrun & Hr & Hfs & Hok & Htr);
    [done|lia|simpl; lia|].
  rewrite level_all in Hrun. by exists r, fs', r0, tr'.
Qed.

(** C1 (as amended).  For every root and every non-empty sequence of plain
    directory names, [deleteFormula root segs 0] returns (nil or an error);
    its first call removes the directory at the full joined path
    [root/segs[0]/.../segs[n-1]], and every later call lists or removes one
    of the directories at the segment indexes 1 to n-1, never the root.  The
    disk afterwards is the disk before with at most one directory at one of
    the levels 1 to n of that path removed: the root entry and everything
    outside [root/segs[0]] are as before, and when the call returns nil the
    leaf and everything beneath it are gone. *)
Theorem deleteFormula_removes_leaf_keeps_root
    (root : path) (segs : list string) (w : fsworld) (tr : list event) :
  segs ≠ [] →
  Forall (λ g, plain_name g = true) segs →
  ∃ r fs' r0 tr',
    deleteFormula root segs 0 (State w tr)
    = (r, State (set_disk w fs') (tr ++ EvRemoveAll (root ++ segs) r0 :: tr'))
    ∧ (r = Ok tt ∨ ∃ e, r = Err e)
    ∧ Forall (unwinding_at root segs 1) tr'
    ∧ (fs' = disk_of w
       ∨ ∃ c, 1 ≤ c ≤ length segs ∧ fs' = rm (level root segs c) (disk_of w))
    ∧ (r = Ok tt → ∀ q, (root ++ segs) `prefix_of` q → fs' !! q = None)
    ∧ fs' !! root = disk_of w !! root
    ∧ (∀ q, ¬ level root segs 1 `prefix_of` q → fs' !! q = disk_of w !! q).
Proof.
  intros Hne Hnames.
  destruct (deleteFormula_root_any root segs w tr Hne Hnames)
    as (r & fs' & r0 & tr' & Hrun & Hr & Htr & Hfs & Hok).
  assert (0 < length segs) by (destruct segs; simpl; done || lia).
  assert (∀ c q, 1 ≤ c → ¬ level root segs 1 `prefix_of` q →
                 ¬ level root segs c `prefix_of` q) as Hout.
  { intros c q Hc Hq Hcq. apply Hq. etrans; [|done]. by apply level_prefix. }
  assert (¬ level root segs 1 `prefix_of` root) as Hroot.
  { intros Hp%prefix_length. rewrite level_length in Hp by lia. lia. }
  exists r, fs', r0, tr'. split; [done|]. split; [done|]. split; [done|].
  split; [done|]. split; [|split].
  - intros Hr' q Hq. destruct (Hok Hr') as (c & Hc & ->).
    apply lookup_rm_under. etrans; [|done].
    rewrite <- level_all. apply level_prefix. lia.
  - destruct Hfs as [->|(c & Hc & ->)]; [done|].
    apply lookup_rm_other, Hout; [lia|done].
  - intros q Hq. destruct Hfs as [->|(c & Hc & ->)]; [done|].
    apply lookup_rm_other, Hout; [lia|done].
Qed.

Lemma deleteFormula_removes_leaf_keeps_root_witness :
  ∃ r fs' r0 tr',
    deleteFormula ["home"; "ws"] ["a"; "b"; "c"] 0 (State (mkworld demo) [])
    = (r, State (set_disk (mkworld demo) fs')
            ([] ++ EvRemoveAll (["home"; "ws"] ++ ["a"; "b"; "c"]) r0 :: tr'))
    ∧ (r = Ok tt ∨ ∃ e, r = Err e)
    ∧ Forall (unwinding_at ["home"; "ws"] ["a"; "b"; "c"] 1) tr'
    ∧ (fs' = disk_of (mkworld demo)
       ∨ ∃ c, 1 ≤ c ≤ length ["a"; "b"; "c"]
              ∧ fs' = rm (level ["home"; "ws"] ["a"; "b"; "c"] c)
                        (disk_of (mkworld demo)))
    ∧ (r = Ok tt →
       ∀ q, (["home"; "ws"] ++ ["a"; "b"; "c"]) `prefix_of` q → fs' !! q = None)
    ∧ fs' !! ["home"; "ws"] = disk_of (mkworld demo) !! ["home"; "ws"]
    ∧ (∀ q, ¬ level ["home"; "ws"] ["a"; "b"; "c"] 1 `prefix_of` q
            → fs' !! q = disk_of (mkworld demo) !! q).
Proof.
  apply (deleteFormula_removes_leaf_keeps_root ["home"; "ws"] ["a"; "b"; "c"]
           (mkworld demo) []).
  - done.
  - repeat constructor.
Defined.

(** C1, as stated, fails on a segment that is not a plain name: with the
    one segment [..] the full joined path is the parent of the root, and
    the root goes with it while the call returns nil. *)
Lemma deleteFormula_dotdot_removes_root :
  demo !! ["home"; "ws"] = Some Directory
  ∧ fst (deleteFormula ["home"; "ws"] [".."] 0 (State (mkworld demo) [])) = Ok tt
  ∧ disk_of (world (snd (deleteFormula ["home"; "ws"] [".."] 0
                           (State (mkworld demo) [])))) !! ["home"; "ws"] = None.
Proof. by vm_compute. Qed.

(** The run from the root on a well-formed disk whose leaf has a
    directory as parent: no error, and the levels from the first chain on
    are gone. *)
Lemma deleteFormula_root_exact (root : path) (segs : list string)
    (w : fsworld) (tr : list event) :
  segs ≠ [] →
  Forall (λ g, plain_name g = true) segs →
  wf (disk_of w) →
  disk_of w !! level root segs (length segs - 1) = Some Directory →
  ∃ c, 1 ≤ c ≤ length segs
       ∧ chain (disk_of w) root segs c = true
       ∧ (∀ j, 1 ≤ j < c → chain (disk_of w) root segs j = false)
       ∧ deleteFormula root segs 0 (State w tr)
         = (Ok tt, State (set_disk w (rm (level root segs c) (disk_of w)))
                     (tr ++ unwind_trace root segs c 1)).
Proof.
  intros Hne Hnames Hwf Hparent. rewrite Forall_forall in Hnames.
  destruct segs as [|g segs']; [done|]. set (segs := g :: segs') in *.
  rewrite (deleteFormula_index0 _ _ g) by done.
  rewrite (filepath_Join_plain root g) by (apply Hnames, list_elem_of_here).
  change (root ++ [g]) with (level root segs 1).
  apply (deleteFormula_level_exact root segs Hnames (length segs - 1));
    done || (simpl; lia).
Qed.

(** C2.  On a well-formed disk where the parent of the leaf is a
    directory, [deleteFormula root segs 0] returns nil after removing the
    leaf and then, from the deepest ancestor up, listing each directory at
    the segment indexes n-1 to 1 and removing it when the listing shows no
    sub-directory.  Each ancestor is checked on the disk as the deeper
    call left it, and it is absent in the end exactly when that check
    answered true.  When every ancestor has the next directory of the path
    as its only sub-directory (only [a/b/c] under the root), all of them
    go, from the leaf up to [root/segs[0]]; the root entry stays. *)
Theorem ancestor_chain_pruning
    (root : path) (segs : list string) (w : fsworld) (tr : list event) :
  segs ≠ [] →
  Forall (λ g, plain_name g = true) segs →
  wf (disk_of w) →
  disk_of w !! level root segs (length segs - 1) = Some Directory →
  ∃ c,
    1 ≤ c ≤ length segs
    ∧ deleteFormula root segs 0 (State w tr)
      = (Ok tt, State (set_disk w (rm (level root segs c) (disk_of w)))
                  (tr ++ unwind_trace root segs c 1))
    ∧ rm (level root segs c) (disk_of w) !! root = disk_of w !! root
    ∧ (∀ i, 1 ≤ i < length segs →
         ∃ s_i b,
           deleteFormula (level root segs (i + 1)) segs (i + 1) (State w tr)
           = (Ok tt, s_i)
           ∧ fst (canDelete (level root segs i) s_i) = Ok b
           ∧ (rm (level root segs c) (disk_of w) !! level root segs i = None
              ↔ b = true)
           ∧ b = chain (disk_of w) root segs i)
    ∧ (chain (disk_of w) root segs 1 = true → c = 1).
Proof.
  intros Hne Hnames Hwf Hparent.
  destruct (deleteFormula_root_exact root segs w tr)
    as (c & Hc & Hchain & Hmin & Hrun); [done..|].
  rewrite Forall_forall in Hnames.
  exists c. split; [done|]. split; [done|]. split; [|split].
  - apply lookup_rm_other. intros Hp%prefix_length.
    rewrite level_length in Hp by lia. lia.
  - intros i Hi.
    destruct (deleteFormula_level_exact root segs Hnames
                (length segs - (i + 1)) (i + 1)) with (w := w) (tr := tr)
      as (ci & Hci & Hchain_i & Hmin_i & Hrun_i); [lia..|done|done|].
    destruct (lookup_lt_is_Some_2 segs i) as [g Hg]; [lia|].
    edestruct (canDelete_at_level root segs (disk_of w)
                 (set_disk w (rm (level root segs ci) (disk_of w)))
                 (tr ++ unwind_trace root segs ci (i + 1)) ci i g)
      as [_ Hcheck]; [done|done|lia|lia|done|done|done|done|].
    eexists _, _. split; [done|]. rewrite Hcheck. split; [done|].
    split; [|done].
    rewrite lookup_rm, (levels_are_dirs root segs (disk_of w) i) by (done || lia).
    split.
    + case_decide as Hpre; [|done]. intros _.
      apply level_prefix_inv in Hpre; [|lia..].
      apply (chain_mono _ _ _ c i); done || lia.
    + intros Hi_chain. rewrite decide_True; [done|].
      apply level_prefix. destruct (decide (c ≤ i)) as [|Hgt]; [done|].
      rewrite Hmin in Hi_chain by lia. done.
  - intros H1. destruct (decide (c = 1)) as [|Hne1]; [done|].
    rewrite Hmin in H1 by lia. done.
Qed.

Lemma wf_demo : wf demo.
Proof. apply wf_check_sound. by vm_compute. Qed.

Lemma ancestor_chain_pruning_witness :
  ∃ c,
    1 ≤ c ≤ length ["a"; "b"; "c"]
    ∧ deleteFormula ["home"; "ws"] ["a"; "b"; "c"] 0 (State (mkworld demo) [])
      = (Ok tt,
         State (set_disk (mkworld demo)
                  (rm (level ["home"; "ws"] ["a"; "b"; "c"] c)
                     (disk_of (mkworld demo))))
           ([] ++ unwind_trace ["home"; "ws"] ["a"; "b"; "c"] c 1))
    ∧ rm (level ["home"; "ws"] ["a"; "b"; "c"] c) (disk_of (mkworld demo))
        !! ["home"; "ws"]
      = disk_of (mkworld demo) !! ["home"; "ws"]
    ∧ (∀ i, 1 ≤ i < length ["a"; "b"; "c"] →
         ∃ s_i b,
           deleteFormula (level ["home"; "ws"] ["a"; "b"; "c"] (i + 1))
             ["a"; "b"; "c"] (i + 1) (State (mkworld demo) [])
           = (Ok tt, s_i)
           ∧ fst (canDelete (level ["home"; "ws"] ["a"; "b"; "c"] i) s_i) = Ok b
           ∧ (rm (level ["home"; "ws"] ["a"; "b"; "c"] c) (disk_of (mkworld demo))
                !! level ["home"; "ws"] ["a"; "b"; "c"] i = None
              ↔ b = true)
           ∧ b = chain (disk_of (mkworld demo)) ["home"; "ws"] ["a"; "b"; "c"] i)
    ∧ (chain (disk_of (mkworld demo)) ["home"; "ws"] ["a"; "b"; "c"] 1 = true
       → c = 1).
Proof.
  apply (ancestor_chain_pruning ["home"; "ws"] ["a"; "b"; "c"] (mkworld demo) []).
  - done.
  - repeat constructor.
  - exact wf_demo.
  - by vm_compute.
Defined.

(** The scenario of the spec: only [http/generate/http-config] under the
    root.  The leaf goes, then [generate], then [http]; the root stays. *)
Example pruning_scenario :
  let root := ["home"; "ws"] in
  let fs := mkdisk [[]; ["home"]; root; root ++ ["http"];
                    root ++ ["http"; "generate"];
                    root ++ ["http"; "generate"; "http-config"]]
                   [root ++ ["http"; "generate"; "http-config"; "config.json"]] in
  let '(r, s) := deleteFormula root ["http"; "generate"; "http-config"] 0
                   (State (mkworld fs) []) in
  r = Ok tt
  ∧ holds_exactly (disk_of (world s)) [[]; ["home"]; root] [] = true
  ∧ trace s = [EvRemoveAll (root ++ ["http"; "generate"; "http-config"]) None;
               EvReadDir (root ++ ["http"; "generate"]) None;
               EvRemoveAll (root ++ ["http"; "generate"]) None;
               EvReadDir (root ++ ["http"]) None;
               EvRemoveAll (root ++ ["http"]) None].
Proof. by vm_compute. Qed.

(** C3.  With sibling directories [a/x] and [a/y] under the root,
    [deleteFormula root [a; x] 0] returns nil after removing [a/x] and
    listing [a], which it then leaves: [a] is still a directory, and
    [a/y] with everything beneath it is as before. *)
Theorem sibling_preservation
    (root : path) (a x y : string) (w : fsworld) (tr : list event) :
  plain_name a = true → plain_name x = true → y ≠ x →
  wf (disk_of w) →
  disk_of w !! (root ++ [a; y]) = Some Directory →
  deleteFormula root [a; x] 0 (State w tr)
  = (Ok tt, State (set_disk w (rm (root ++ [a; x]) (disk_of w)))
              (tr ++ [EvRemoveAll (root ++ [a; x]) None;
                      EvReadDir (root ++ [a]) None]))
  ∧ rm (root ++ [a; x]) (disk_of w) !! (root ++ [a]) = Some Directory
  ∧ (∀ q, (root ++ [a; y]) `prefix_of` q →
          rm (root ++ [a; x]) (disk_of w) !! q = disk_of w !! q)
  ∧ (∀ q, (root ++ [a; x]) `prefix_of` q →
          rm (root ++ [a; x]) (disk_of w) !! q = None).
Proof.
  intros Ha Hx Hxy Hwf Hy.
  assert (disk_of w !! (root ++ [a]) = Some Directory) as Hdir.
  { apply (Hwf _ y). rewrite <- app_assoc. simpl. by rewrite Hy. }
  destruct (deleteFormula_root_exact root [a; x] w tr)
    as (c & Hc & Hchain & _ & Hrun); [done|by repeat constructor|done|done|].
  simpl in Hc. assert (c = 2) as ->.
  { destruct (decide (c = 1)) as [->|]; [|lia].
    rewrite (chain_S _ _ _ _ x) in Hchain by done.
    apply andb_true_iff in Hchain as [Honly _].
    rewrite only_subdir_true in Honly. destruct Hxy. apply Honly.
    unfold level. simpl. rewrite <- app_assoc. simpl. by rewrite Hy. }
  change (level root [a; x] 2) with (root ++ [a; x]) in Hrun.
  split; [|split; [|split]].
  - rewrite Hrun. unfold unwind_trace, unwind_step. by simpl.
  - rewrite lookup_rm_other; [done|].
    intros Hp%prefix_length. rewrite !length_app in Hp. simpl in Hp. lia.
  - intros q [k ->]. apply lookup_rm_other. intros [k' Hk'].
    rewrite <- !app_assoc in Hk'. apply app_inv_head in Hk'. by simplify_eq/=.
  - intros q Hq. by apply lookup_rm_under.
Qed.

Lemma sibling_preservation_witness :
  deleteFormula ["home"; "ws"] ["docker"; "build"] 0 (State (mkworld docker) [])
  = (Ok tt,
     State (set_disk (mkworld docker)
              (rm (["home"; "ws"] ++ ["docker"; "build"]) (disk_of (mkworld docker))))
       ([] ++ [EvRemoveAll (["home"; "ws"] ++ ["docker"; "build"]) None;
               EvReadDir (["home"; "ws"] ++ ["docker"]) None]))
  ∧ rm (["home"; "ws"] ++ ["docker"; "build"]) (disk_of (mkworld docker))
      !! (["home"; "ws"] ++ ["docker"]) = Some Directory
  ∧ (∀ q, (["home"; "ws"] ++ ["docker"; "push"]) `prefix_of` q →
          rm (["home"; "ws"] ++ ["docker"; "build"]) (disk_of (mkworld docker)) !! q
          = disk_of (mkworld docker) !! q)
  ∧ (∀ q, (["home"; "ws"] ++ ["docker"; "build"]) `prefix_of` q →
          rm (["home"; "ws"] ++ ["docker"; "build"]) (disk_of (mkworld docker)) !! q
          = None).
Proof.
  apply (sibling_preservation ["home"; "ws"] "docker" "build" "push"
           (mkworld docker) []).
  - reflexivity.
  - reflexivity.
  - discriminate.
  - apply wf_check_sound. vm_compute. reflexivity.
  - vm_compute. reflexivity.
Defined.

(** What [canDelete] answers on any environment: whether the listing it
    got holds no directory. *)
Lemma canDelete_answer {W Tree : Type} `{!Env W Tree}
    (ws : path) (s : state W) (files : list FileInfo) (w' : W) :
  ioutil_ReadDir ws (world s) = (inr files, w') →
  canDelete ws s
  = (Ok (canDelete_loop files), State w' (trace s ++ [EvReadDir ws None])).
Proof. intros Hls. unfold canDelete, bind, call. by rewrite Hls. Qed.

(** C4.  For a directory [p] of the disk, [canDelete] answers true exactly
    when no entry of [p] is a directory.  In [deleteFormula], at an index
    from 1 on, once the deeper call has returned nil: a directory [ws]
    without sub-directories is removed with whatever files it holds, and a
    directory [ws] with a sub-directory is left as it is, files or not. *)
Theorem canDelete_iff_no_subdirectory (w : fsworld) (tr : list event) :
  (∀ p, disk_of w !! p = Some Directory → file_above (disk_of w) p = false →
        ∃ b, canDelete p (State w tr)
             = (Ok b, State w (tr ++ [EvReadDir p None]))
             ∧ (b = true ↔ ∀ x, disk_of w !! (p ++ [x]) ≠ Some Directory))
  ∧ (∀ ws groups index g s0,
       1 ≤ index → groups !! index = Some g →
       deleteFormula (filepath_Join ws [g]) groups (index + 1) s0
       = (Ok tt, State w tr) →
       disk_of w !! ws = Some Directory → file_above (disk_of w) ws = false →
       ((∀ x, disk_of w !! (ws ++ [x]) ≠ Some Directory) →
        deleteFormula ws groups index s0
        = (Ok tt, State (set_disk w (rm ws (disk_of w)))
                    (tr ++ [EvReadDir ws None; EvRemoveAll ws None]))
        ∧ ∀ q, ws `prefix_of` q → rm ws (disk_of w) !! q = None)
       ∧ (∀ x, disk_of w !! (ws ++ [x]) = Some Directory →
          deleteFormula ws groups index s0
          = (Ok tt, State w (tr ++ [EvReadDir ws None]))
          ∧ disk_of w !! ws = Some Directory)).
Proof.
  assert (∀ p, disk_of w !! p = Some Directory → file_above (disk_of w) p = false →
               canDelete p (State w tr)
               = (Ok (canDelete_loop (entries (disk_of w) p)),
                  State w (tr ++ [EvReadDir p None]))) as Hcheck.
  { intros p Hp Hfile. rewrite run_canDelete. unfold fs_ReadDir.
    by rewrite Hfile, Hp. }
  split.
  - intros p Hp Hfile. eexists. split; [by apply Hcheck|].
    apply canDelete_loop_entries.
  - intros ws groups index g s0 Hindex Hg Hrun Hws Hfile.
    rewrite (deleteFormula_step _ _ _ g) by done.
    rewrite (bind_Ok _ _ _ _ _ Hrun). rewrite decide_False by lia.
    unfold bind. rewrite Hcheck by done. split.
    + intros Hno%canDelete_loop_entries. rewrite Hno.
      rewrite run_RemoveAll, Hfile. rewrite <- app_assoc. split; [done|].
      intros q Hq. by apply lookup_rm_under.
    + intros x Hx.
      destruct (canDelete_loop (entries (disk_of w) ws)) eqn:Hloop; [|by split].
      rewrite canDelete_loop_entries in Hloop. by destruct (Hloop x).
Qed.

(** The stray file does not keep the group: it goes with it. *)
Example stray_file_is_pruned :
  let '(r, s) := deleteFormula ["home"; "ws"] ["aws"; "s3"] 0
                   (State (mkworld stray) []) in
  r = Ok tt
  ∧ holds_exactly (disk_of (world s)) [[]; ["home"]; ["home"; "ws"]] [] = true
  ∧ trace s = [EvRemoveAll ["home"; "ws"; "aws"; "s3"] None;
               EvReadDir ["home"; "ws"; "aws"] None;
               EvRemoveAll ["home"; "ws"; "aws"] None].
Proof. by vm_compute. Qed.

Lemma canDelete_iff_no_subdirectory_witness :
  ∃ b, canDelete ["home"; "ws"; "aws"] (State (mkworld stray) [])
       = (Ok b, State (mkworld stray) ([] ++ [EvReadDir ["home"; "ws"; "aws"] None]))
       ∧ (b = true ↔
          ∀ x, disk_of (mkworld stray) !! (["home"; "ws"; "aws"] ++ [x])
               ≠ Some Directory).
Proof.
  apply (proj1 (canDelete_iff_no_subdirectory (mkworld stray) [])).
  - vm_compute. reflexivity.
  - vm_compute. reflexivity.
Defined.

(** ** Deleting twice *)

Lemma rm_rm_under (p q : path) (fs : disk) :
  p `prefix_of` q → rm q (rm p fs) = rm p fs.
Proof.
  intros Hpq. apply map_eq; intros r. rewrite !lookup_rm.
  case_decide as Hq; [|done]. rewrite decide_True; [done|]. by etrans.
Qed.

Section Rises.
Context {W Tree : Type} `{!Env W Tree}.
Variables (root : path) (segs : list string).
Hypothesis names : ∀ g, g ∈ segs → plain_name g = true.

(** An error met at some level is what every call above it returns. *)
Lemma deleteFormula_error_rises (k : nat) :
  ∀ i j (s s' : state W) e,
    j - i = k → i ≤ j → j ≤ length segs →
    deleteFormula (level root segs j) segs j s = (Err e, s') →
    deleteFormula (level root segs i) segs i s = (Err e, s').
Proof.
  induction k as [|k IH]; intros i j s s' e Hk Hij Hj Hrun.
  - by assert (i = j) as -> by lia.
  - destruct (lookup_lt_is_Some_2 segs i) as [g Hg]; [lia|].
    rewrite (deleteFormula_step _ _ _ g) by done.
    rewrite filepath_Join_plain by (apply names; by eapply list_elem_of_lookup_2).
    rewrite <- (level_S _ _ _ _ Hg).
    apply bind_Err. apply (IH (i + 1) j); done || lia.
Qed.

End Rises.

(** After a run that returned nil, a second run changes nothing; it meets
    a directory that is not there when the first run removed the parent of
    the leaf, and no error otherwise. *)
Lemma deleteFormula_twice (root : path) (segs : list string)
    (w : fsworld) (tr : list event) :
  segs ≠ [] →
  Forall (λ g, plain_name g = true) segs →
  wf (disk_of w) →
  disk_of w !! level root segs (length segs - 1) = Some Directory →
  ∃ c w1 tr1 tr2,
    1 ≤ c ≤ length segs
    ∧ disk_of w1 = rm (level root segs c) (disk_of w)
    ∧ deleteFormula root segs 0 (State w tr) = (Ok tt, State w1 tr1)
    ∧ deleteFormula root segs 0 (State w1 tr1)
      = (if decide (c < length segs)
         then Err (PathError "open" (level root segs (length segs - 1)) ENOENT)
         else Ok tt,
         State w1 (tr1 ++ tr2)).
Proof.
  intros Hne Hnames Hwf Hparent.
  destruct (deleteFormula_root_exact root segs w tr)
    as (c & Hc & Hchain & Hmin & Hrun); [done..|].
  set (fs := disk_of w) in *. set (n := length segs) in *.
  set (w1 := set_disk w (rm (level root segs c) fs)).
  assert (0 < n) as Hn by (subst n; destruct segs; simpl; done || lia).
  destruct (lookup_lt_is_Some_2 segs (n - 1)) as [g Hg]; [lia|].
  pose proof (level_S root segs _ g Hg) as HS.
  replace (n - 1 + 1) with n in HS by lia.
  exists c, w1, (tr ++ unwind_trace root segs c 1).
  case_decide as Hcn.
  - (* the parent of the leaf is gone *)
    pose proof Hnames as Hnames'. rewrite Forall_forall in Hnames'.
    assert (file_above (disk_of w1) (level root segs n) = false) as Hleaf.
    { apply file_above_rm. rewrite HS. by apply wf_file_above_entry. }
    assert (file_above (disk_of w1) (level root segs (n - 1)) = false) as Hpar.
    { apply file_above_rm, wf_file_above; [done|]. by rewrite Hparent. }
    eexists. split; [done|]. split; [done|]. split; [done|].
    rewrite <- (level_0 root segs) at 1.
    apply (deleteFormula_error_rises root segs Hnames' (n - 1) 0 (n - 1));
      [lia..|].
    rewrite (deleteFormula_step _ _ _ g) by done.
    rewrite filepath_Join_plain by (apply Hnames'; by eapply list_elem_of_lookup_2).
    rewrite <- HS.
    assert (deleteFormula (level root segs n) segs n
              (State w1 (tr ++ unwind_trace root segs c 1))
            = (Ok tt, State w1 ((tr ++ unwind_trace root segs c 1)
                                ++ [EvRemoveAll (level root segs n) None])))
      as Hstep.
    { subst n. rewrite deleteFormula_base, run_RemoveAll, Hleaf.
      assert (rm (level root segs (length segs)) (disk_of w1) = disk_of w1) as ->;
        [|by rewrite set_disk_id].
      apply rm_rm_under, level_prefix. lia. }
    replace (n - 1 + 1) with n by lia.
    rewrite (bind_Ok _ _ _ _ _ Hstep).
    rewrite decide_False by lia. unfold bind. rewrite run_canDelete.
    unfold fs_ReadDir. rewrite Hpar.
    assert (disk_of w1 !! level root segs (n - 1) = None) as ->.
    { apply lookup_rm_under, level_prefix. lia. }
    by rewrite <- app_assoc.
  - (* only the leaf went: its parent holds another sub-directory *)
    assert (c = n) as -> by lia.
    destruct (deleteFormula_root_exact root segs w1 (tr ++ unwind_trace root segs n 1))
      as (c2 & Hc2 & Hchain2 & _ & Hrun2); [done|done| | |].
    { by apply wf_rm. }
    { cbn [disk_of w1 set_disk]. rewrite lookup_rm_other; [done|].
      intros Hp%level_prefix_inv; lia. }
    assert (c2 = n) as ->.
    { destruct (decide (c2 = n)) as [|Hne2]; [done|]. exfalso.
      assert (chain (disk_of w1) root segs (n - 1) = true) as Hchain1.
      { apply (chain_mono _ _ _ c2); done || lia. }
      rewrite (chain_S _ _ _ _ g Hg), andb_true_iff in Hchain1.
      destruct Hchain1 as [Honly1 _]. rewrite only_subdir_true in Honly1.
      specialize (Hmin (n - 1) ltac:(lia)).
      rewrite (chain_S _ _ _ _ g Hg) in Hmin.
      replace (n - 1 + 1) with n in Hmin by lia.
      rewrite Hchain, andb_true_r in Hmin.
      apply only_subdir_false in Hmin as (y & Hy & Hyg).
      apply Hyg, Honly1. cbn [disk_of w1 set_disk].
      rewrite lookup_rm_other; [done|]. rewrite HS.
      intros Hp. apply prefix_length_eq in Hp; [|by rewrite !length_app].
      apply app_inv_head in Hp. by simplify_eq. }
    eexists. split; [done|]. split; [done|]. split; [done|].
    rewrite Hrun2. cbn [disk_of w1 set_disk].
    rewrite rm_rm by done. done.
Qed.

(** C5 (as amended).  On a well-formed disk where the parent of the leaf
    is a directory, the first [deleteFormula root segs 0] returns nil; a
    second run on what it left changes nothing on the disk, and returns
    the not-found error of listing the parent of the leaf exactly when
    there are at least two segments and the first run pruned that parent.
    Otherwise (one segment, or a parent that stays because it holds another
    sub-directory) the second run returns nil. *)
Theorem redeletion_outcome
    (root : path) (segs : list string) (w : fsworld) (tr : list event) :
  segs ≠ [] →
  Forall (λ g, plain_name g = true) segs →
  wf (disk_of w) →
  disk_of w !! level root segs (length segs - 1) = Some Directory →
  ∃ w1 tr1 r2 tr2,
    deleteFormula root segs 0 (State w tr) = (Ok tt, State w1 tr1)
    ∧ deleteFormula root segs 0 (State w1 tr1) = (r2, State w1 (tr1 ++ tr2))
    ∧ (2 ≤ length segs
       ∧ disk_of w1 !! level root segs (length segs - 1) = None →
       r2 = Err (PathError "open" (level root segs (length segs - 1)) ENOENT)
       ∧ is_not_exist (PathError "open" (level root segs (length segs - 1)) ENOENT)
         = true)
    ∧ (¬ (2 ≤ length segs
          ∧ disk_of w1 !! level root segs (length segs - 1) = None) →
       r2 = Ok tt).
Proof.
  intros Hne Hnames Hwf Hparent.
  destruct (deleteFormula_twice root segs w tr)
    as (c & w1 & tr1 & tr2 & Hc & Hw1 & Hrun1 & Hrun2); [done..|].
  exists w1, tr1. eexists _, tr2. split; [done|]. split; [done|].
  rewrite Hw1, lookup_rm, Hparent. case_decide as Hcn.
  - split; [done|]. intros Hnot. destruct Hnot. split; [lia|].
    rewrite decide_True; [done|]. apply level_prefix. lia.
  - split; [|done]. intros [_ Hgone]. case_decide as Hpre; [|done].
    apply level_prefix_inv in Hpre; lia.
Qed.

Lemma redeletion_outcome_witness :
  ∃ w1 tr1 r2 tr2,
    deleteFormula ["home"; "ws"] ["a"; "b"; "c"] 0 (State (mkworld demo) [])
    = (Ok tt, State w1 tr1)
    ∧ deleteFormula ["home"; "ws"] ["a"; "b"; "c"] 0 (State w1 tr1)
      = (r2, State w1 (tr1 ++ tr2))
    ∧ (2 ≤ length ["a"; "b"; "c"]
       ∧ disk_of w1 !! level ["home"; "ws"] ["a"; "b"; "c"]
                         (length ["a"; "b"; "c"] - 1) = None →
       r2 = Err (PathError "open"
                   (level ["home"; "ws"] ["a"; "b"; "c"]
                      (length ["a"; "b"; "c"] - 1)) ENOENT)
       ∧ is_not_exist
           (PathError "open"
              (level ["home"; "ws"] ["a"; "b"; "c"]
                 (length ["a"; "b"; "c"] - 1)) ENOENT) = true)
    ∧ (¬ (2 ≤ length ["a"; "b"; "c"]
          ∧ disk_of w1 !! level ["home"; "ws"] ["a"; "b"; "c"]
                            (length ["a"; "b"; "c"] - 1) = None) →
       r2 = Ok tt).
Proof.
  apply (redeletion_outcome ["home"; "ws"] ["a"; "b"; "c"] (mkworld demo) []).
  - done.
  - repeat constructor.
  - exact wf_demo.
  - by vm_compute.
Defined.

(** C5, as stated, fails for one segment: the second run removes a path
    that is not there, which [os.RemoveAll] does not report, and returns
    nil. *)
Lemma redeletion_of_one_segment_is_silent :
  let s1 := snd (deleteFormula ["home"; "ws"] ["a"] 0 (State (mkworld demo) [])) in
  fst (deleteFormula ["home"; "ws"] ["a"] 0 (State (mkworld demo) [])) = Ok tt
  ∧ disk_of (world s1) !! ["home"; "ws"; "a"] = None
  ∧ fst (deleteFormula ["home"; "ws"] ["a"] 0 s1) = Ok tt.
Proof. by vm_compute. Qed.

(** The same with two segments when the group keeps a sibling. *)
Example redeletion_beside_sibling_is_silent :
  let s1 := snd (deleteFormula ["home"; "ws"] ["docker"; "build"] 0
                   (State (mkworld docker) [])) in
  fst (deleteFormula ["home"; "ws"] ["docker"; "build"] 0 s1) = Ok tt.
Proof. by vm_compute. Qed.

(** * Traces and errors, on every environment *)

Section Emits.
Context {W : Type}.

Lemma emits_ret {A} P (a : A) : emits (W := W) P (ret a).
Proof.
  intros s. exists []. simpl. rewrite app_nil_r. split; [done|].
  split; [done|]. left. split; [constructor|done].
Qed.

Lemma emits_fail {A} P : emits (W := W) (A := A) P (fail ErrCouldNotFindFormula).
Proof.
  intros s. exists []. simpl. rewrite app_nil_r. split; [done|].
  split; [done|]. left. split; [constructor|]. by intros e [= <-].
Qed.

Lemma emits_panic {A} P : emits (W := W) (A := A) P panic.
Proof.
  intros s. exists []. simpl. rewrite app_nil_r. split; [done|].
  split; [done|]. left. split; [constructor|done].
Qed.

Lemma emits_out_of_fuel {A} P : emits (W := W) (A := A) P out_of_fuel.
Proof.
  intros s. exists []. simpl. rewrite app_nil_r. split; [done|].
  split; [done|]. left. split; [constructor|done].
Qed.

Lemma emits_call {A} (P : event → Prop) ev (op : W → (error + A) * W) :
  (∀ r, P (ev r)) → (∀ r, event_error (ev r) = r) → emits P (call ev op).
Proof.
  intros HP Hev s. unfold call. destruct (op (world s)) as [[e|a] w'] eqn:Hop.
  - exists [ev (Some e)]. simpl. split; [done|].
    split; [by apply Forall_singleton|].
    right. exists [], (ev (Some e)), e. split; [done|].
    split; [constructor|]. by rewrite Hev.
  - exists [ev None]. simpl. split; [done|].
    split; [by apply Forall_singleton|].
    left. split; [|done]. apply Forall_singleton. by rewrite Hev.
Qed.

Lemma propagated_app tr1 tr2 oe :
  clean tr1 → propagated tr2 oe → propagated (tr1 ++ tr2) oe.
Proof.
  intros H1 [[H2 Hoe]|(pre & ev & e & -> & Hpre & Hev & ->)].
  - left. split; [by apply Forall_app|done].
  - right. exists (tr1 ++ pre), ev, e. rewrite app_assoc.
    split; [done|]. split; [by apply Forall_app|done].
Qed.

Lemma emits_bind {A B} P (m : M W A) (k : A → M W B) :
  emits P m → (∀ a, emits P (k a)) → emits P (bind m k).
Proof.
  intros Hm Hk s. destruct (Hm s) as (tr1 & Htr1 & HP1 & Hprop1).
  unfold bind. destruct (m s) as [[a|e| |] s1] eqn:Hms; simpl in *.
  - destruct (Hk a s1) as (tr2 & Htr2 & HP2 & Hprop2).
    exists (tr1 ++ tr2). rewrite Htr2, Htr1, app_assoc. split; [done|].
    split; [by apply Forall_app|]. apply propagated_app; [|done].
    destruct Hprop1 as [[? _]|(? & ? & ? & _ & _ & _ & ?)]; done.
  - exists tr1. done.
  - exists tr1. done.
  - exists tr1. done.
Qed.

Lemma emits_mono {A} (P Q : event → Prop) (m : M W A) :
  (∀ ev, P ev → Q ev) → emits P m → emits Q m.
Proof.
  intros HPQ Hm s. destruct (Hm s) as (tr & Htr & HP & Hprop).
  exists tr. split; [done|]. split; [|done]. by eapply Forall_impl.
Qed.

End Emits.

Section Shapes.
Context {W Tree : Type} `{!Env W Tree}.
Variables (docsDir DefaultWorkspaceDir DefaultWorkspaceName : string).
Variable isFormula : list string → bool.
Variable d : deleteFormulaCmd.

Lemma emits_canDelete ws :
  emits (λ ev, is_deletion ev = true) (canDelete ws).
Proof.
  unfold canDelete. apply emits_bind; [by apply emits_call|].
  intros files. apply emits_ret.
Qed.

Lemma emits_deleteFormula_rec fuel ws groups index :
  emits (λ ev, is_deletion ev = true) (deleteFormula_rec fuel ws groups index).
Proof.
  revert ws index. induction fuel as [|fuel IH]; intros ws index; simpl.
  - apply emits_out_of_fuel.
  - case_decide; [by apply emits_call|].
    destruct (groups !! index) as [g|]; [|apply emits_panic].
    apply emits_bind; [apply IH|]. intros _.
    case_decide; [apply emits_ret|].
    apply emits_bind; [apply emits_canDelete|].
    intros [|]; [by apply emits_call|apply emits_ret].
Qed.

(** The two passes only list and remove. *)
Lemma emits_deleteFormula ws groups index :
  emits (λ ev, is_deletion ev = true) (deleteFormula ws groups index).
Proof. apply emits_deleteFormula_rec. Qed.

Lemma emits_recriateTreeJson ws :
  emits (λ ev, is_index ev = true) (recriateTreeJson d ws).
Proof.
  unfold recriateTreeJson. apply emits_bind; [by apply emits_call|].
  intros localTree. destruct (json_MarshalIndent localTree "" tab) as [jsonString o].
  by apply emits_call.
Qed.

Lemma emits_readFormulas fuel dir :
  emits (λ ev, is_resolution ev = true) (readFormulas docsDir isFormula fuel dir).
Proof.
  revert dir. induction fuel as [|fuel IH]; intros dir; simpl.
  - apply emits_out_of_fuel.
  - apply emits_bind; [by apply emits_call|]. intros dirs.
    destruct (isFormula _); [apply emits_ret|].
    apply emits_bind; [by apply emits_call|]. intros selected.
    apply emits_bind; [apply IH|]. intros aux. apply emits_ret.
Qed.

Lemma emits_runPrompt_workspace :
  emits (λ ev, is_workspace ev = true)
    (runPrompt_workspace DefaultWorkspaceDir DefaultWorkspaceName d).
Proof.
  unfold runPrompt_workspace. apply emits_bind; [by apply emits_call|].
  intros workspaces. apply emits_bind; [by apply emits_call|].
  intros wspace. apply emits_bind; [|intros; apply emits_ret].
  case_decide; [|apply emits_ret].
  apply emits_bind; [by apply emits_call|]. intros _. by apply emits_call.
Qed.

End Shapes.

(** ** The two passes and the index, as both entry points run them *)

Section Passes.
Context {W Tree : Type} `{!Env W Tree}.
Variables (docsDir DefaultWorkspaceDir DefaultWorkspaceName : string).
Variable isFormula : list string → bool.
Variable d : deleteFormulaCmd.

Lemma runStdin_passes s :
  runStdin d s
  = (deleteStdin <- call EvReadJson stdin_ReadJson ;;
     passes d (Workspace deleteStdin) (Groups deleteStdin) (ret tt)) s.
Proof. done. Qed.

Lemma runPrompt_formula_passes fuel wspace s :
  runPrompt_formula docsDir isFormula d fuel wspace s
  = (groups <- readFormulas docsDir isFormula fuel (formula.Dir wspace) ;;
     if decide (groups = []) then fail ErrCouldNotFindFormula
     else
       ans <- call (EvConfirm (question_of groups))
                (inBool_Bool (question_of groups) ["no"; "yes"]) ;;
       if negb ans then ret tt
       else passes d (formula.Dir wspace) groups
              (success "✔ Formula successfully deleted!" ;;; ret tt)) s.
Proof. done. Qed.

Lemma recriateTreeJson_shape s :
  ∃ idx,
    trace (recriateTreeJson d (ritchieLocalWorkspace d) s).2 = trace s ++ idx
    ∧ index_events d idx
    ∧ ((∃ e, (recriateTreeJson d (ritchieLocalWorkspace d) s).1 = Err e)
       ∨ (recriateTreeJson d (ritchieLocalWorkspace d) s).1 = Ok tt
         ∧ ∃ localTree w3,
             treeGen_Generate (ritchieLocalWorkspace d) (world s) = (inr localTree, w3)
             ∧ ioutil_WriteFile
                 (filepath_Join (ritchieHomeDir d) ["repos"; "local"; "tree.json"])
                 (json_MarshalIndent localTree "" tab).1 os_ModePerm w3
               = (inr tt, world (recriateTreeJson d (ritchieLocalWorkspace d) s).2)
             ∧ idx = [EvGenerate (ritchieLocalWorkspace d) None;
                      EvWriteFile (filepath_Join (ritchieHomeDir d)
                                     ["repos"; "local"; "tree.json"])
                        (json_MarshalIndent localTree "" tab).1 None]).
Proof.
  unfold recriateTreeJson, bind, call.
  destruct (treeGen_Generate _ (world s)) as [[e|localTree] w1] eqn:Hgen; simpl.
  - eexists. split; [done|]. split; [left; eauto|]. left. eauto.
  - destruct (json_MarshalIndent localTree "" tab) as [jsonString o] eqn:Hjson.
    simpl.
    destruct (ioutil_WriteFile _ jsonString _ w1) as [[e|[]] w2] eqn:Hwrite; simpl.
    + eexists. rewrite <- app_assoc. split; [done|].
      split; [right; by eexists _, _|]. left. eauto.
    + eexists. rewrite <- app_assoc. split; [done|].
      split; [right; by eexists _, _|]. right. split; [done|].
      exists localTree, w1. by rewrite Hjson.
Qed.

Lemma passes_unfold ws groups (k : M W unit) s :
  passes d ws groups k s
  = match deleteFormula ws groups 0 s with
    | (Ok _, s1) =>
        match deleteFormula (ritchieLocalWorkspace d) groups 0 s1 with
        | (Ok _, s2) =>
            match recriateTreeJson d (ritchieLocalWorkspace d) s2 with
            | (Ok _, s3) => k s3
            | (Err e, s3) => (Err e, s3)
            | (Panic, s3) => (Panic, s3)
            | (OutOfFuel, s3) => (OutOfFuel, s3)
            end
        | (Err e, s2) => (Err e, s2)
        | (Panic, s2) => (Panic, s2)
        | (OutOfFuel, s2) => (OutOfFuel, s2)
        end
    | (Err e, s1) => (Err e, s1)
    | (Panic, s1) => (Panic, s1)
    | (OutOfFuel, s1) => (OutOfFuel, s1)
    end.
Proof. done. Qed.

(** The shape of the trace of the shared part: the calls of the two
    passes, then those of the index, then those of what follows; the index
    is touched only after both passes returned nil. *)
Lemma passes_shape ws groups (k : M W unit) (post : list event) s :
  (∀ s', ∃ w', k s' = (Ok tt, State w' (trace s' ++ post))) →
  ∃ del idx post',
    trace (passes d ws groups k s).2 = trace s ++ del ++ idx ++ post'
    ∧ Forall (λ ev, is_deletion ev = true) del
    ∧ (idx = [] ∨ index_events d idx)
    ∧ (post' = [] ∨ post' = post)
    ∧ ((passes d ws groups k s).1 = Ok tt →
       ∃ s1 s2 s3 localTree w3,
         deleteFormula ws groups 0 s = (Ok tt, s1)
         ∧ deleteFormula (ritchieLocalWorkspace d) groups 0 s1 = (Ok tt, s2)
         ∧ trace s2 = trace s ++ del
         ∧ treeGen_Generate (ritchieLocalWorkspace d) (world s2) = (inr localTree, w3)
         ∧ ioutil_WriteFile
             (filepath_Join (ritchieHomeDir d) ["repos"; "local"; "tree.json"])
             (json_MarshalIndent localTree "" tab).1 os_ModePerm w3
           = (inr tt, world s3)
         ∧ idx = [EvGenerate (ritchieLocalWorkspace d) None;
                  EvWriteFile (filepath_Join (ritchieHomeDir d)
                                 ["repos"; "local"; "tree.json"])
                    (json_MarshalIndent localTree "" tab).1 None]
         ∧ post' = post
         ∧ passes d ws groups k s = k s3)
    ∧ (idx ≠ [] →
       ∃ s1 s2,
         deleteFormula ws groups 0 s = (Ok tt, s1)
         ∧ deleteFormula (ritchieLocalWorkspace d) groups 0 s1 = (Ok tt, s2)
         ∧ trace s2 = trace s ++ del
         ∧ trace (recriateTreeJson d (ritchieLocalWorkspace d) s2).2 = trace s2 ++ idx
         ∧ passes d ws groups k s
           = (recriateTreeJson d (ritchieLocalWorkspace d) ;;; k) s2).
Proof.
  intros Hk. rewrite passes_unfold.
  destruct (emits_deleteFormula ws groups 0 s) as (del1 & Hdel1 & HP1 & _).
  destruct (deleteFormula ws groups 0 s) as [[[]|e1| |] s1] eqn:Hrun1;
    simpl in Hdel1;
    [|exists del1, [], []; rewrite !app_nil_r; simpl;
      (split; [done|]); (split; [done|]); (split; [by left|]);
      (split; [by left|]); (split; [done|by intros []])..].
  destruct (emits_deleteFormula (ritchieLocalWorkspace d) groups 0 s1)
    as (del2 & Hdel2 & HP2 & _).
  destruct (deleteFormula (ritchieLocalWorkspace d) groups 0 s1)
    as [[[]|e2| |] s2] eqn:Hrun2; simpl in Hdel2;
    [|exists (del1 ++ del2), [], []; rewrite !app_nil_r; simpl;
      rewrite Hdel2, Hdel1, <- app_assoc;
      (split; [done|]); (split; [by apply Forall_app|]); (split; [by left|]);
      (split; [by left|]); (split; [done|by intros []])..].
  destruct (recriateTreeJson_shape s2) as (idx & Hidx & Hev & Hres).
  assert (trace s2 = trace s ++ del1 ++ del2) as Hs2
    by (by rewrite Hdel2, Hdel1, <- app_assoc).
  assert (∀ out, out = recriateTreeJson d (ritchieLocalWorkspace d) s2 →
            match out with
            | (Ok _, s3) => k s3
            | (Err e, s3) => (Err e, s3)
            | (Panic, s3) => (Panic, s3)
            | (OutOfFuel, s3) => (OutOfFuel, s3)
            end
            = (recriateTreeJson d (ritchieLocalWorkspace d) ;;; k) s2) as Hbind.
  { intros out ->. unfold bind.
    by destruct (recriateTreeJson d (ritchieLocalWorkspace d) s2) as [[[]| | |] ?]. }
  assert (trace (recriateTreeJson d (ritchieLocalWorkspace d) s2).2
          = trace s2 ++ idx) as Hidx' by done.
  destruct (recriateTreeJson d (ritchieLocalWorkspace d) s2)
    as [[[]|e3| |] s3] eqn:Hrun3; simpl in Hidx, Hres, Hidx'.
  - destruct (Hk s3) as [w' Hk3].
    exists (del1 ++ del2), idx, post.
    split; [rewrite Hk3; simpl; by rewrite Hidx, Hs2, <- !app_assoc|].
    split; [by apply Forall_app|]. split; [by right|]. split; [by right|].
    destruct Hres as [[e [=]]|[_ (localTree & w3 & Hgen & Hwrite & ->)]].
    split.
    + intros _. by exists s1, s2, s3, localTree, w3.
    + intros _. exists s1, s2. split; [done|]. split; [done|].
      split; [done|]. split; [by rewrite Hrun3|]. by apply (Hbind (Ok tt, s3)).
  - exists (del1 ++ del2), idx, []. rewrite app_nil_r.
    split; [simpl; by rewrite Hidx, Hs2, <- !app_assoc|].
    split; [by apply Forall_app|]. split; [by right|]. split; [by left|].
    split; [done|]. intros _. exists s1, s2. split; [done|]. split; [done|].
    split; [done|]. split; [by rewrite Hrun3|]. by apply (Hbind (Err e3, s3)).
  - by destruct Hres as [[e [=]]|[[=] _]].
  - by destruct Hres as [[e [=]]|[[=] _]].
Qed.

End Passes.

Section Entry.
Context {W Tree : Type} `{!Env W Tree}.
Variables (docsDir DefaultWorkspaceDir DefaultWorkspaceName : string).
Variable isFormula : list string → bool.
Variable d : deleteFormulaCmd.

Lemma emits_success msg : emits (W := W) (λ _, True) (success msg).
Proof.
  intros s. exists [EvSuccess msg]. simpl. split; [done|].
  split; [by apply Forall_singleton|]. left. split; [|done].
  by apply Forall_singleton.
Qed.

Lemma emits_any {A} (P : event → Prop) (m : M W A) :
  emits P m → emits (λ _, True) m.
Proof. by apply emits_mono. Qed.

Lemma emits_passes ws groups (k : M W unit) :
  emits (λ _, True) k → emits (λ _, True) (passes d ws groups k).
Proof.
  intros Hk. unfold passes.
  apply emits_bind; [eapply emits_any, emits_deleteFormula|]. intros _.
  apply emits_bind; [eapply emits_any, emits_deleteFormula|]. intros _.
  apply emits_bind; [eapply emits_any, emits_recriateTreeJson|]. by intros _.
Qed.

Lemma emits_runStdin : emits (λ _, True) (runStdin d).
Proof.
  unfold runStdin. apply emits_bind; [by apply emits_call|]. intros req.
  apply (emits_passes _ _ (ret tt)), emits_ret.
Qed.

Lemma emits_runPrompt_formula fuel wspace :
  emits (λ _, True) (runPrompt_formula docsDir isFormula d fuel wspace).
Proof.
  unfold runPrompt_formula.
  apply emits_bind; [eapply emits_any, emits_readFormulas|]. intros groups.
  case_decide; [apply emits_fail|].
  apply emits_bind; [by apply emits_call|]. intros [|]; simpl; [|apply emits_ret].
  apply (emits_passes _ _ (success _ ;;; ret tt)).
  apply emits_bind; [apply emits_success|]. intros _. apply emits_ret.
Qed.

Lemma emits_runPrompt fuel :
  emits (λ _, True)
    (runPrompt docsDir DefaultWorkspaceDir DefaultWorkspaceName isFormula d fuel).
Proof.
  unfold runPrompt.
  apply emits_bind; [eapply emits_any, emits_runPrompt_workspace|].
  intros wspace. apply emits_runPrompt_formula.
Qed.

(** C8.  In every environment and from every state, a call that fails is
    the last call of the run, and its error is what the run returns: this
    holds for the directory listings, the removals, the tree generation,
    the write of the index file and every call of a collaborator, in
    [deleteFormula], [readFormulas], [recriateTreeJson] and both entry
    points; no call is made again after a failure, and an error that no
    call produced can only be [ErrCouldNotFindFormula].  Between the tree
    generation and the write, [recriateTreeJson] encodes the tree and
    writes the bytes it got: what the write returns is what it returns. *)
Theorem errors_are_returned_at_once :
  (∀ ws groups index (s : state W),
     ∃ tr, trace (deleteFormula ws groups index s).2 = trace s ++ tr
           ∧ propagated tr (error_of (deleteFormula ws groups index s).1))
  ∧ (∀ fuel dir (s : state W),
       ∃ tr, trace (readFormulas docsDir isFormula fuel dir s).2 = trace s ++ tr
             ∧ propagated tr (error_of (readFormulas docsDir isFormula fuel dir s).1))
  ∧ (∀ ws (s : state W),
       ∃ tr, trace (recriateTreeJson d ws s).2 = trace s ++ tr
             ∧ propagated tr (error_of (recriateTreeJson d ws s).1))
  ∧ (∀ s : state W,
       ∃ tr, trace (runStdin d s).2 = trace s ++ tr
             ∧ propagated tr (error_of (runStdin d s).1))
  ∧ (∀ fuel (s : state W),
       ∃ tr, trace (runPrompt docsDir DefaultWorkspaceDir DefaultWorkspaceName
                      isFormula d fuel s).2 = trace s ++ tr
             ∧ propagated tr
                 (error_of (runPrompt docsDir DefaultWorkspaceDir
                              DefaultWorkspaceName isFormula d fuel s).1))
  ∧ (∀ ws (s : state W) localTree w1 jsonString o,
       treeGen_Generate ws (world s) = (inr localTree, w1) →
       json_MarshalIndent localTree "" tab = (jsonString, o) →
       recriateTreeJson d ws s
       = call (EvWriteFile (filepath_Join (ritchieHomeDir d)
                              ["repos"; "local"; "tree.json"]) jsonString)
           (ioutil_WriteFile (filepath_Join (ritchieHomeDir d)
                                ["repos"; "local"; "tree.json"]) jsonString
              os_ModePerm)
           (State w1 (trace s ++ [EvGenerate ws None]))).
Proof.
  assert (∀ A (m : M W A), emits (λ _, True) m →
            ∀ s, ∃ tr, trace (m s).2 = trace s ++ tr
                       ∧ propagated tr (error_of (m s).1)) as Hstrip.
  { intros A m Hm s. destruct (Hm s) as (tr & ? & _ & ?). eauto. }
  split; [|split; [|split; [|split; [|split]]]].
  - intros ws groups index. eapply Hstrip, emits_any, emits_deleteFormula.
  - intros fuel dir. eapply Hstrip, emits_any, emits_readFormulas.
  - intros ws. eapply Hstrip, emits_any, emits_recriateTreeJson.
  - apply Hstrip, emits_runStdin.
  - intros fuel. apply Hstrip, emits_runPrompt.
  - intros ws s localTree w1 jsonString o Hgen Hjson.
    unfold recriateTreeJson, bind, call at 1. by rewrite Hgen, Hjson.
Qed.

End Entry.

Lemma ritchieLocalWorkspaceeq (d : deleteFormulaCmd) :
  ritchieLocalWorkspace d = ritchieHomeDir d ++ ["repos"; "local"].
Proof.
  unfold ritchieLocalWorkspace.
  change (filepath_Join (ritchieHomeDir d) ["repos"; "local"])
    with (filepath_Join (filepath_Join (ritchieHomeDir d) ["repos"]) ["local"]).
  rewrite !filepath_Join_plain by done. by rewrite <- app_assoc.
Qed.

(** C6.  The local mirror root is [ritchieHomeDir/repos/local].  In both
    entry points, once the segments are known (and, in the interactive
    one, confirmed), the deletion runs on the workspace root first; a
    failure there is the outcome of the run, which stops at it.  Once the
    workspace pass has returned nil, the deletion runs on the mirror root
    with the same segments, on the state the first pass left and under no
    other condition; if that one does not return nil, its error is the
    outcome and the state is the one it left, which includes what the
    first pass did; if it returns nil the index regeneration follows.  On
    the disk: after a workspace pass that returned nil and a mirror pass
    that failed, the leaf under the workspace root is still gone. *)
Theorem dual_tree_deletion :
  (∀ (W Tree : Type) (E : Env W Tree) (d : deleteFormulaCmd)
     (docsDir DefaultWorkspaceDir DefaultWorkspaceName : string)
     (isFormula : list string → bool),
     ritchieLocalWorkspace d = ritchieHomeDir d ++ ["repos"; "local"]
     ∧ (∀ (s : state W) req s0 r1 s1,
          call EvReadJson stdin_ReadJson s = (Ok req, s0) →
          deleteFormula (Workspace req) (Groups req) 0 s0 = (r1, s1) →
          (r1 ≠ Ok tt → runStdin d s = (r1, s1))
          ∧ (r1 = Ok tt →
             ∀ r2 s2,
               deleteFormula (ritchieLocalWorkspace d) (Groups req) 0 s1 = (r2, s2) →
               (r2 ≠ Ok tt → runStdin d s = (r2, s2))
               ∧ (r2 = Ok tt →
                  runStdin d s
                  = (recriateTreeJson d (ritchieLocalWorkspace d) ;;; ret tt) s2)))
     ∧ (∀ fuel (s_init : state W) wspace s groups s' s0 r1 s1,
          runPrompt_workspace DefaultWorkspaceDir DefaultWorkspaceName d s_init
          = (Ok wspace, s) →
          readFormulas docsDir isFormula fuel (formula.Dir wspace) s = (Ok groups, s') →
          groups ≠ [] →
          call (EvConfirm (question_of groups))
            (inBool_Bool (question_of groups) ["no"; "yes"]) s' = (Ok true, s0) →
          deleteFormula (formula.Dir wspace) groups 0 s0 = (r1, s1) →
          (r1 ≠ Ok tt →
           runPrompt docsDir DefaultWorkspaceDir DefaultWorkspaceName isFormula d
             fuel s_init = (r1, s1))
          ∧ (r1 = Ok tt →
             ∀ r2 s2,
               deleteFormula (ritchieLocalWorkspace d) groups 0 s1 = (r2, s2) →
               (r2 ≠ Ok tt →
                runPrompt docsDir DefaultWorkspaceDir DefaultWorkspaceName
                  isFormula d fuel s_init = (r2, s2))
               ∧ (r2 = Ok tt →
                  runPrompt docsDir DefaultWorkspaceDir DefaultWorkspaceName
                    isFormula d fuel s_init
                  = (recriateTreeJson d (ritchieLocalWorkspace d) ;;;
                     success "✔ Formula successfully deleted!" ;;; ret tt) s2))))
  ∧ (∀ (w : fsworld) (tr : list event) (ws mirror : path) (groups : list string)
       s1 e s2,
       groups ≠ [] → Forall (λ g, plain_name g = true) groups →
       deleteFormula ws groups 0 (State w tr) = (Ok tt, s1) →
       deleteFormula mirror groups 0 s1 = (Err e, s2) →
       ∀ q, (ws ++ groups) `prefix_of` q → disk_of (world s2) !! q = None).
Proof.
  split.
  - intros W Tree E d docsDir DWD DWN isFormula.
    assert (∀ (ws : path) groups (k : M W unit) (s0 : state W) r1 s1,
              deleteFormula ws groups 0 s0 = (r1, s1) →
              (r1 ≠ Ok tt → passes d ws groups k s0 = (r1, s1))
              ∧ (r1 = Ok tt →
                 ∀ r2 s2,
                   deleteFormula (ritchieLocalWorkspace d) groups 0 s1 = (r2, s2) →
                   (r2 ≠ Ok tt → passes d ws groups k s0 = (r2, s2))
                   ∧ (r2 = Ok tt →
                      passes d ws groups k s0
                      = (recriateTreeJson d (ritchieLocalWorkspace d) ;;; k) s2)))
      as Hpasses.
    { intros ws groups k s0 r1 s1 Hrun1. rewrite passes_unfold, Hrun1. split.
      - by destruct r1 as [[]| | |].
      - intros -> r2 s2 Hrun2. rewrite Hrun2. split.
        + by destruct r2 as [[]| | |].
        + by intros ->. }
    split; [apply ritchieLocalWorkspaceeq|]. split.
    + intros s req s0 r1 s1 Hread Hrun1.
      rewrite runStdin_passes, (bind_Ok _ _ _ _ _ Hread).
      by apply Hpasses.
    + intros fuel s_init wspace s groups s' s0 r1 s1 Hws Hread Hne Hyes Hrun1.
      unfold runPrompt. rewrite (bind_Ok _ _ _ _ _ Hws).
      rewrite runPrompt_formula_passes, (bind_Ok _ _ _ _ _ Hread).
      rewrite decide_False by done. rewrite (bind_Ok _ _ _ _ _ Hyes). simpl.
      by apply Hpasses.
  - intros w tr ws mirror groups s1 e s2 Hne Hnames Hrun1 Hrun2 q Hq.
    destruct (deleteFormula_root_any ws groups w tr Hne Hnames)
      as (r & fs1 & r0 & tr1 & Hrun1' & _ & _ & _ & Hok).
    rewrite Hrun1 in Hrun1'. injection Hrun1' as <- ->.
    destruct (Hok eq_refl) as (c & Hc & ->).
    destruct (deleteFormula_root_any mirror groups
                (set_disk w (rm (level ws groups c) (disk_of w)))
                (tr ++ EvRemoveAll (ws ++ groups) r0 :: tr1) Hne Hnames)
      as (r' & fs2 & r0' & tr2 & Hrun2' & _ & _ & Hfs2 & _).
    rewrite Hrun2 in Hrun2'. injection Hrun2' as <- ->. simpl.
    assert (rm (level ws groups c) (disk_of w) !! q = None) as Hgone.
    { apply lookup_rm_under. etrans; [|done].
      rewrite <- level_all. apply level_prefix. lia. }
    destruct Hfs2 as [->|(c2 & _ & ->)]; [done|].
    by apply lookup_rm_None.
Qed.

Lemma pair_eta_fst {A B} (x : A * B) (a : A) : x.1 = a → x = (a, x.2).
Proof. destruct x. by intros <-. Qed.

Lemma dual_tree_deletion_witness :
  let s := State (stdin_world unsynced
                    {| Workspace := ["home"; "ws"]; Groups := ["a"; "b"] |}) [] in
  let s0 := (call EvReadJson stdin_ReadJson s).2 in
  let s1 := (deleteFormula ["home"; "ws"] ["a"; "b"] 0 s0).2 in
  let s2 := (deleteFormula (ritchieLocalWorkspace cmd0) ["a"; "b"] 0 s1).2 in
  runStdin cmd0 s
  = (Err (PathError "open" ["home"; ".rit"; "repos"; "local"; "a"] ENOENT), s2)
  ∧ ∀ q, (["home"; "ws"] ++ ["a"; "b"]) `prefix_of` q →
         disk_of (world s2) !! q = None.
Proof.
  intros s s0 s1 s2.
  assert (call EvReadJson stdin_ReadJson s
          = (Ok {| Workspace := ["home"; "ws"]; Groups := ["a"; "b"] |}, s0)) as H0.
  { exact (pair_eta_fst (call EvReadJson stdin_ReadJson s) _ eq_refl). }
  assert (deleteFormula ["home"; "ws"] ["a"; "b"] 0 s0 = (Ok tt, s1)) as H1.
  { refine (pair_eta_fst (deleteFormula ["home"; "ws"] ["a"; "b"] 0 s0) _ _).
    vm_compute. reflexivity. }
  assert (deleteFormula (ritchieLocalWorkspace cmd0) ["a"; "b"] 0 s1
          = (Err (PathError "open" ["home"; ".rit"; "repos"; "local"; "a"] ENOENT),
             s2)) as H2.
  { refine (pair_eta_fst
              (deleteFormula (ritchieLocalWorkspace cmd0) ["a"; "b"] 0 s1) _ _).
    vm_compute. reflexivity. }
  pose proof (dual_tree_deletion) as [Hgeneric Hdisk]. split.
  - destruct (Hgeneric fsworld _ fs_env cmd0 "docs" "ritchie-formulas-local"
                "Default" (λ _, true)) as (_ & Hstdin & _).
    destruct (Hstdin s {| Workspace := ["home"; "ws"]; Groups := ["a"; "b"] |}
                s0 (Ok tt) s1) as [_ Hok].
    + exact H0.
    + exact H1.
    + destruct (Hok eq_refl
                  (Err (PathError "open" ["home"; ".rit"; "repos"; "local"; "a"]
                          ENOENT)) s2) as [Herr _].
      * exact H2.
      * apply Herr. discriminate.
  - apply (Hdisk (world s0) (trace s0) ["home"; "ws"] (ritchieLocalWorkspace cmd0)
             ["a"; "b"] s1
             (PathError "open" ["home"; ".rit"; "repos"; "local"; "a"] ENOENT) s2).
    + discriminate.
    + repeat constructor.
    + exact H1.
    + exact H2.
Defined.

(** The run stops at the first failure: when the workspace pass fails,
    its error is returned and the mirror root is left as it is. *)
Example first_failure_stops_the_run :
  let s := State (stdin_world mirror_only
                    {| Workspace := ["home"; "ws"]; Groups := ["a"; "b"] |}) [] in
  (runStdin cmd0 s).1 = Err (PathError "open" ["home"; "ws"; "a"] ENOENT)
  ∧ trace (runStdin cmd0 s).2
    = [EvReadJson None;
       EvRemoveAll ["home"; "ws"; "a"; "b"] None;
       EvReadDir ["home"; "ws"; "a"]
         (Some (PathError "open" ["home"; "ws"; "a"] ENOENT))]
  ∧ disk_of (world (runStdin cmd0 s).2) !! (ritchieLocalWorkspace cmd0 ++ ["a"; "b"])
    = Some Directory.
Proof. by vm_compute. Qed.

(** ** The order of the index regeneration *)

Lemma resolution_is_neither (ev : event) :
  is_resolution ev = true → is_deletion ev = false ∧ is_index ev = false.
Proof. by destruct ev. Qed.

Lemma workspace_is_neither (ev : event) :
  is_workspace ev = true → is_deletion ev = false ∧ is_index ev = false.
Proof. by destruct ev. Qed.

(** What a call that returned tells: the answer of the environment and the
    event logged. *)
Section Calls.
Context {W : Type}.

Lemma call_Ok {A} ev (op : W → (error + A) * W) (s s' : state W) a :
  call ev op s = (Ok a, s') →
  op (world s) = (inr a, world s') ∧ trace s' = trace s ++ [ev None].
Proof.
  unfold call. destruct (op (world s)) as [[e|a'] w']; simpl; [done|].
  by intros [= -> <-].
Qed.

Lemma call_Err {A} ev (op : W → (error + A) * W) (s s' : state W) e :
  call ev op s = (Err e, s') →
  op (world s) = (inl e, world s') ∧ trace s' = trace s ++ [ev (Some e)].
Proof.
  unfold call. destruct (op (world s)) as [[e'|a'] w']; simpl; [|done].
  by intros [= -> <-].
Qed.

End Calls.

(** On the disk, a batch run that returns nil leaves the index file with
    the encoding of the tree generated from the mirror root of the disk
    the two passes left. *)
Lemma runStdin_index_on_disk (d : deleteFormulaCmd) (w : fsworld) (tr : list event)
    (s' : state fsworld) :
  runStdin d (State w tr) = (Ok tt, s') →
  ∃ req s1 s2 t,
    stdin_of w = inr req
    ∧ deleteFormula (Workspace req) (Groups req) 0
        (State w (tr ++ [EvReadJson None])) = (Ok tt, s1)
    ∧ deleteFormula (ritchieLocalWorkspace d) (Groups req) 0 s1 = (Ok tt, s2)
    ∧ fs_Generate (ritchieLocalWorkspace d) (disk_of (world s2)) = inr t
    ∧ disk_of (world s')
      = <[filepath_Join (ritchieHomeDir d) ["repos"; "local"; "tree.json"]
          := File (render_tree t).1]> (disk_of (world s2)).
Proof.
  rewrite runStdin_passes. unfold bind at 1, call at 1. simpl.
  destruct (stdin_of w) as [e|req] eqn:Hreq; [done|]. simpl.
  intros Hrun.
  destruct (passes_shape d (Workspace req) (Groups req) (ret tt) []
              (State w (tr ++ [EvReadJson None])))
    as (del & idx & post & _ & _ & _ & _ & Hok & _).
  { intros [w' tr']. exists w'. by rewrite app_nil_r. }
  rewrite Hrun in Hok.
  destruct (Hok eq_refl)
    as (s1 & s2 & s3 & t & w3 & Hrun1 & Hrun2 & _ & Hgen & Hwrite & _ & _ & Heq).
  injection Heq as <-.
  simpl in Hgen, Hwrite.
  destruct (fs_Generate _ (disk_of (world s2))) as [e|t'] eqn:Hgen'; [done|].
  injection Hgen as -> <-.
  exists req, s1, s2, t. split; [done|]. split; [done|]. split; [done|].
  split; [done|].
  unfold fs_WriteFile in Hwrite.
  destruct (is_dir _ || bool_decide _); [done|].
  destruct (is_dir _); [|done].
  by injection Hwrite as <-.
Qed.

Section Order.
Context {W Tree : Type} `{!Env W Tree}.
Variables (docsDir DefaultWorkspaceDir DefaultWorkspaceName : string).
Variable isFormula : list string → bool.
Variable d : deleteFormulaCmd.

Lemma runPrompt_formula_shape fuel wspace (s : state W) :
  ∃ pre del idx post,
    trace (runPrompt_formula docsDir isFormula d fuel wspace s).2
    = trace s ++ pre ++ del ++ idx ++ post
    ∧ Forall (λ ev, is_deletion ev = false ∧ is_index ev = false) pre
    ∧ Forall (λ ev, is_deletion ev = true) del
    ∧ (idx = [] ∨ index_events d idx)
    ∧ (post = [] ∨ post = [EvSuccess "✔ Formula successfully deleted!"])
    ∧ ((runPrompt_formula docsDir isFormula d fuel wspace s).1 = Ok tt →
       (del = [] ∧ idx = [] ∧ post = [])
       ∨ (∃ groups s0 s1 s2 localTree w3 w4,
            trace s0 = trace s ++ pre
            ∧ deleteFormula (formula.Dir wspace) groups 0 s0 = (Ok tt, s1)
            ∧ deleteFormula (ritchieLocalWorkspace d) groups 0 s1 = (Ok tt, s2)
            ∧ trace s2 = trace s ++ pre ++ del
            ∧ treeGen_Generate (ritchieLocalWorkspace d) (world s2)
              = (inr localTree, w3)
            ∧ ioutil_WriteFile
                (filepath_Join (ritchieHomeDir d) ["repos"; "local"; "tree.json"])
                (json_MarshalIndent localTree "" tab).1 os_ModePerm w3
              = (inr tt, w4)
            ∧ world (runPrompt_formula docsDir isFormula d fuel wspace s).2
              = prompt_Success "✔ Formula successfully deleted!" w4
            ∧ idx = [EvGenerate (ritchieLocalWorkspace d) None;
                     EvWriteFile (filepath_Join (ritchieHomeDir d)
                                    ["repos"; "local"; "tree.json"])
                       (json_MarshalIndent localTree "" tab).1 None]
            ∧ post = [EvSuccess "✔ Formula successfully deleted!"]))
    ∧ (idx ≠ [] →
       ∃ groups s0 s1 s2,
         trace s0 = trace s ++ pre
         ∧ deleteFormula (formula.Dir wspace) groups 0 s0 = (Ok tt, s1)
         ∧ deleteFormula (ritchieLocalWorkspace d) groups 0 s1 = (Ok tt, s2)
         ∧ trace s2 = trace s ++ pre ++ del
         ∧ trace (recriateTreeJson d (ritchieLocalWorkspace d) s2).2
           = trace s2 ++ idx
         ∧ runPrompt_formula docsDir isFormula d fuel wspace s
           = (recriateTreeJson d (ritchieLocalWorkspace d) ;;;
              success "✔ Formula successfully deleted!" ;;; ret tt) s2).
Proof.
  destruct (emits_readFormulas docsDir isFormula fuel (formula.Dir wspace) s)
    as (tr_r & Htr_r & HPr & _).
  assert (Forall (λ ev, is_deletion ev = false ∧ is_index ev = false) tr_r) as Hpre.
  { eapply Forall_impl; [done|]. apply resolution_is_neither. }
  pose proof (runPrompt_formula_passes docsDir isFormula d fuel wspace s) as Hout.
  remember (runPrompt_formula docsDir isFormula d fuel wspace s) as out eqn:Hdef.
  clear Hdef. pattern out.
  match goal with |- ?P out => set (Q := P) end.
  assert (∀ out' : result unit * state W,
            out'.1 ≠ Ok tt → trace out'.2 = trace s ++ tr_r → Q out') as Hstop.
  { intros out' Hr Hs'. exists tr_r, [], [], []. rewrite !app_nil_r.
    split; [done|]. split; [done|]. split; [done|]. split; [by left|].
    split; [by left|]. split; [done|]. by intros []. }
  unfold bind at 1 in Hout.
  destruct (readFormulas docsDir isFormula fuel (formula.Dir wspace) s)
    as [[groups|e| |] s'] eqn:Hread; simpl in Htr_r;
    [|subst out; by apply Hstop..].
  case_decide as Hgroups; [subst out; by apply Hstop|].
  unfold bind at 1, call in Hout.
  destruct (inBool_Bool _ _ (world s')) as [[e|ans] w0] eqn:Hans;
    simpl in Hout.
  - subst out.
    exists (tr_r ++ [EvConfirm (question_of groups) (Some e)]), [], [], [].
    simpl. rewrite app_nil_r, Htr_r, <- app_assoc.
    split; [done|]. split; [apply Forall_app; split; [done|by repeat constructor]|].
    split; [done|]. split; [by left|]. split; [by left|].
    split; [done|]. by intros [].
  - destruct ans; simpl in Hout; subst out.
    + destruct (passes_shape d (formula.Dir wspace) groups
                  (success "✔ Formula successfully deleted!" ;;; ret tt)
                  [EvSuccess "✔ Formula successfully deleted!"]
                  (State w0 (trace s' ++ [EvConfirm (question_of groups) None])))
        as (del & idx & post & Htr & Hdel & Hidx & Hpost & Hok & Hboth).
      { intros s3. by eexists. }
      simpl in Htr, Hboth, Hok.
      exists (tr_r ++ [EvConfirm (question_of groups) None]), del, idx, post.
      split; [by rewrite Htr, Htr_r, <- !app_assoc|].
      split; [apply Forall_app; split; [done|by repeat constructor]|].
      split; [done|]. split; [done|]. split; [done|].
      split.
      * intros Hres. right.
        destruct (Hok Hres)
          as (s1 & s2 & s3 & localTree & w3 & Hrun1 & Hrun2 & Hs2 & Hgen & Hwrite
              & -> & -> & Heq).
        exists groups, (State w0 (trace s' ++ [EvConfirm (question_of groups) None])),
          s1, s2, localTree, w3, (world s3).
        split; [simpl; by rewrite Htr_r, <- app_assoc|].
        split; [done|]. split; [done|].
        split; [by rewrite Hs2, Htr_r, <- !app_assoc|].
        split; [done|]. split; [done|]. split; [by rewrite Heq|]. done.
      * intros Hne.
        destruct (Hboth Hne) as (s1 & s2 & Hrun1 & Hrun2 & Hs2 & Hidx2 & Heq).
        eexists groups, _, s1, s2. split; [|split; [done|split; [done|]]].
        -- simpl. by rewrite Htr_r, <- app_assoc.
        -- split; [by rewrite Hs2, Htr_r, <- !app_assoc|]. by split.
    + exists (tr_r ++ [EvConfirm (question_of groups) None]), [], [], [].
      simpl. rewrite app_nil_r, Htr_r, <- app_assoc.
      split; [done|]. split; [apply Forall_app; split; [done|by repeat constructor]|].
      split; [done|]. split; [by left|]. split; [by left|].
      split; [by left|]. by intros [].
Qed.

(** C7.  In every environment, the trace of a run of either entry point
    is, after the calls that read the request (or select the workspace,
    resolve the formula and confirm), the calls of the two deletion passes
    followed by the calls of the index regeneration: at most one tree
    generation from the mirror root and at most one write of
    [repos/local/tree.json], none of them before a listing or removal.
    The index is touched only when both passes returned nil, and its calls
    are those of [recriateTreeJson] run on the state the second pass left:
    the tree is generated from the mirror root; a failure ends the run;
    otherwise the tree is encoded by [json.MarshalIndent] with no prefix
    and a tab, and these bytes are written to the index file with
    [os.ModePerm].  A run of the stdin entry point that returns nil has
    exactly one generation and one write, both without error, the write
    being of the encoding of the tree generated after both passes, and it
    ends in the world the write left; so has a run of the interactive one
    (which then prints the success message), unless the user declined and
    nothing was deleted.  On the disk the write replaces the content of
    the file: after a batch run that returned nil, the index file holds the
    encoding of the tree generated from the mirror root of the disk the
    two passes left, and the rest of that disk is as the passes left
    it. *)
Theorem index_regeneration_order :
  (∀ s : state W,
     ∃ r0 del idx,
       trace (runStdin d s).2 = trace s ++ EvReadJson r0 :: del ++ idx
       ∧ Forall (λ ev, is_deletion ev = true) del
       ∧ (idx = [] ∨ index_events d idx)
       ∧ ((runStdin d s).1 = Ok tt →
          ∃ req s0 s1 s2 localTree w3,
            call EvReadJson stdin_ReadJson s = (Ok req, s0)
            ∧ deleteFormula (Workspace req) (Groups req) 0 s0 = (Ok tt, s1)
            ∧ deleteFormula (ritchieLocalWorkspace d) (Groups req) 0 s1 = (Ok tt, s2)
            ∧ trace s2 = trace s ++ EvReadJson r0 :: del
            ∧ treeGen_Generate (ritchieLocalWorkspace d) (world s2)
              = (inr localTree, w3)
            ∧ ioutil_WriteFile
                (filepath_Join (ritchieHomeDir d) ["repos"; "local"; "tree.json"])
                (json_MarshalIndent localTree "" tab).1 os_ModePerm w3
              = (inr tt, world (runStdin d s).2)
            ∧ idx = [EvGenerate (ritchieLocalWorkspace d) None;
                     EvWriteFile (filepath_Join (ritchieHomeDir d)
                                    ["repos"; "local"; "tree.json"])
                       (json_MarshalIndent localTree "" tab).1 None])
       ∧ (idx ≠ [] →
          ∃ req s0 s1 s2,
            call EvReadJson stdin_ReadJson s = (Ok req, s0)
            ∧ deleteFormula (Workspace req) (Groups req) 0 s0 = (Ok tt, s1)
            ∧ deleteFormula (ritchieLocalWorkspace d) (Groups req) 0 s1 = (Ok tt, s2)
            ∧ trace s2 = trace s ++ EvReadJson r0 :: del
            ∧ trace (recriateTreeJson d (ritchieLocalWorkspace d) s2).2
              = trace s2 ++ idx
            ∧ runStdin d s
              = (recriateTreeJson d (ritchieLocalWorkspace d) ;;; ret tt) s2))
  ∧ (∀ fuel (s : state W),
       ∃ pre del idx post,
         trace (runPrompt docsDir DefaultWorkspaceDir DefaultWorkspaceName
                  isFormula d fuel s).2
         = trace s ++ pre ++ del ++ idx ++ post
         ∧ Forall (λ ev, is_deletion ev = false ∧ is_index ev = false) pre
         ∧ Forall (λ ev, is_deletion ev = true) del
         ∧ (idx = [] ∨ index_events d idx)
         ∧ (post = [] ∨ post = [EvSuccess "✔ Formula successfully deleted!"])
         ∧ ((runPrompt docsDir DefaultWorkspaceDir DefaultWorkspaceName
               isFormula d fuel s).1 = Ok tt →
            (del = [] ∧ idx = [] ∧ post = [])
            ∨ (∃ wspace groups s0 s1 s2 localTree w3 w4,
                 trace s0 = trace s ++ pre
                 ∧ deleteFormula (formula.Dir wspace) groups 0 s0 = (Ok tt, s1)
                 ∧ deleteFormula (ritchieLocalWorkspace d) groups 0 s1 = (Ok tt, s2)
                 ∧ trace s2 = trace s ++ pre ++ del
                 ∧ treeGen_Generate (ritchieLocalWorkspace d) (world s2)
                   = (inr localTree, w3)
                 ∧ ioutil_WriteFile
                     (filepath_Join (ritchieHomeDir d)
                        ["repos"; "local"; "tree.json"])
                     (json_MarshalIndent localTree "" tab).1 os_ModePerm w3
                   = (inr tt, w4)
                 ∧ world (runPrompt docsDir DefaultWorkspaceDir
                            DefaultWorkspaceName isFormula d fuel s).2
                   = prompt_Success "✔ Formula successfully deleted!" w4
                 ∧ idx = [EvGenerate (ritchieLocalWorkspace d) None;
                          EvWriteFile (filepath_Join (ritchieHomeDir d)
                                         ["repos"; "local"; "tree.json"])
                            (json_MarshalIndent localTree "" tab).1 None]
                 ∧ post = [EvSuccess "✔ Formula successfully deleted!"]))
         ∧ (idx ≠ [] →
            ∃ wspace groups s0 s1 s2,
              trace s0 = trace s ++ pre
              ∧ deleteFormula (formula.Dir wspace) groups 0 s0 = (Ok tt, s1)
              ∧ deleteFormula (ritchieLocalWorkspace d) groups 0 s1 = (Ok tt, s2)
              ∧ trace s2 = trace s ++ pre ++ del
              ∧ trace (recriateTreeJson d (ritchieLocalWorkspace d) s2).2
                = trace s2 ++ idx
              ∧ runPrompt docsDir DefaultWorkspaceDir DefaultWorkspaceName
                  isFormula d fuel s
                = (recriateTreeJson d (ritchieLocalWorkspace d) ;;;
                   success "✔ Formula successfully deleted!" ;;; ret tt) s2))
  ∧ (∀ ws (s : state W),
       match treeGen_Generate ws (world s) with
       | (inl e, w1) =>
           recriateTreeJson d ws s
           = (Err e, State w1 (trace s ++ [EvGenerate ws (Some e)]))
       | (inr localTree, w1) =>
           recriateTreeJson d ws s
           = call (EvWriteFile (filepath_Join (ritchieHomeDir d)
                                  ["repos"; "local"; "tree.json"])
                     (json_MarshalIndent localTree "" tab).1)
               (ioutil_WriteFile (filepath_Join (ritchieHomeDir d)
                                    ["repos"; "local"; "tree.json"])
                  (json_MarshalIndent localTree "" tab).1 os_ModePerm)
               (State w1 (trace s ++ [EvGenerate ws None]))
       end)
  ∧ (∀ p data (fs fs' : disk),
       fs_WriteFile p data fs = (inr tt, fs') →
       fs' !! p = Some (File data) ∧ ∀ q, q ≠ p → fs' !! q = fs !! q)
  ∧ (∀ (w : fsworld) (tr : list event) (s' : state fsworld),
       runStdin (Env0 := fs_env) d (State w tr) = (Ok tt, s') →
       ∃ req s1 s2 t,
         stdin_of w = inr req
         ∧ deleteFormula (Workspace req) (Groups req) 0
             (State w (tr ++ [EvReadJson None])) = (Ok tt, s1)
         ∧ deleteFormula (ritchieLocalWorkspace d) (Groups req) 0 s1 = (Ok tt, s2)
         ∧ fs_Generate (ritchieLocalWorkspace d) (disk_of (world s2)) = inr t
         ∧ disk_of (world s')
           = <[filepath_Join (ritchieHomeDir d) ["repos"; "local"; "tree.json"]
               := File (render_tree t).1]> (disk_of (world s2))).
Proof.
  split; [|split; [|split; [|split]]].
  - intros s.
    pose proof (runStdin_passes d s) as Hout.
    remember (runStdin d s) as out eqn:Hdef. clear Hdef.
    unfold bind at 1 in Hout.
    destruct (call EvReadJson stdin_ReadJson s) as [r s0] eqn:Hread.
    destruct r as [req|e| |].
    + pose proof Hread as [_ Htr0]%call_Ok.
      destruct (passes_shape d (Workspace req) (Groups req) (ret tt) [] s0)
        as (del & idx & post & Htr & Hdel & Hidx & Hpost & Hok & Hboth).
      { intros [w' tr']. exists w'. by rewrite app_nil_r. }
      rewrite <- Hout in Htr, Hok, Hboth.
      assert (post = []) as -> by (by destruct Hpost).
      rewrite app_nil_r in Htr.
      exists None, del, idx.
      split; [by rewrite Htr, Htr0, <- app_assoc|].
      split; [done|]. split; [done|]. split.
      * intros Hres.
        destruct (Hok Hres)
          as (s1 & s2 & s3 & localTree & w3 & Hrun1 & Hrun2 & Hs2 & Hgen & Hwrite
              & -> & _ & Heq).
        exists req, s0, s1, s2, localTree, w3.
        split; [done|]. split; [done|]. split; [done|].
        split; [by rewrite Hs2, Htr0, <- app_assoc|].
        split; [done|]. split; [|done]. by rewrite Heq.
      * intros Hne.
        destruct (Hboth Hne) as (s1 & s2 & Hrun1 & Hrun2 & Hs2 & Hidx2 & Heq).
        exists req, s0, s1, s2. split; [done|]. split; [done|]. split; [done|].
        split; [by rewrite Hs2, Htr0, <- app_assoc|]. by split.
    + pose proof Hread as [_ Htr0]%call_Err. subst out.
      exists (Some e), [], []. simpl. split; [done|]. split; [done|].
      split; [by left|]. split; [done|]. by intros [].
    + exfalso. unfold call in Hread. by destruct (stdin_ReadJson _) as [[?|?] ?].
    + exfalso. unfold call in Hread. by destruct (stdin_ReadJson _) as [[?|?] ?].
  - intros fuel s.
    destruct (emits_runPrompt_workspace DefaultWorkspaceDir DefaultWorkspaceName d s)
      as (tr_w & Htr_w & HPw & _).
    assert (Forall (λ ev, is_deletion ev = false ∧ is_index ev = false) tr_w) as Hw.
    { eapply Forall_impl; [done|]. apply workspace_is_neither. }
    assert (runPrompt docsDir DefaultWorkspaceDir DefaultWorkspaceName isFormula d
              fuel s
            = (wspace <- runPrompt_workspace DefaultWorkspaceDir
                           DefaultWorkspaceName d ;;
               runPrompt_formula docsDir isFormula d fuel wspace) s) as Hout by done.
    remember (runPrompt docsDir DefaultWorkspaceDir DefaultWorkspaceName isFormula d
                fuel s) as out eqn:Hdef. clear Hdef.
    unfold bind at 1 in Hout.
    destruct (runPrompt_workspace DefaultWorkspaceDir DefaultWorkspaceName d s)
      as [[wspace|e| |] s1] eqn:Hws; simpl in Htr_w; subst out.
    + destruct (runPrompt_formula_shape fuel wspace s1)
        as (pre & del & idx & post & Htr & Hpre & Hdel & Hidx & Hpost & Hok & Hboth).
      exists (tr_w ++ pre), del, idx, post.
      split; [by rewrite Htr, Htr_w, <- !app_assoc|].
      split; [by apply Forall_app|]. split; [done|].
      split; [done|]. split; [done|]. split.
      * intros Hres. destruct (Hok Hres)
          as [?|(groups & s0 & s2 & s3 & localTree & w3 & w4 & Hs0 & Hrun1 & Hrun2
                 & Hs3 & Hgen & Hwrite & Hworld & -> & ->)]; [by left|].
        right. exists wspace, groups, s0, s2, s3, localTree, w3, w4.
        split; [by rewrite Hs0, Htr_w, <- app_assoc|].
        split; [done|]. split; [done|].
        split; [by rewrite Hs3, Htr_w, <- !app_assoc|]. done.
      * intros Hne.
        destruct (Hboth Hne)
          as (groups & s0 & s2 & s3 & Hs0 & Hrun1 & Hrun2 & Hs3 & Hidx3 & Heq).
        exists wspace, groups, s0, s2, s3.
        split; [by rewrite Hs0, Htr_w, <- app_assoc|].
        split; [done|]. split; [done|].
        split; [by rewrite Hs3, Htr_w, <- !app_assoc|]. by split.
    + exists tr_w, [], [], []. simpl. rewrite app_nil_r.
      split; [done|]. split; [done|]. split; [done|]. split; [by left|].
      split; [by left|]. split; [done|]. by intros [].
    + exists tr_w, [], [], []. simpl. rewrite app_nil_r.
      split; [done|]. split; [done|]. split; [done|]. split; [by left|].
      split; [by left|]. split; [done|]. by intros [].
    + exists tr_w, [], [], []. simpl. rewrite app_nil_r.
      split; [done|]. split; [done|]. split; [done|]. split; [by left|].
      split; [by left|]. split; [done|]. by intros [].
  - intros ws s.
    destruct (treeGen_Generate ws (world s)) as [[e|localTree] w1] eqn:Hgen;
      unfold recriateTreeJson, bind, call at 1; rewrite Hgen; simpl; [done|].
    by destruct (json_MarshalIndent localTree "" tab) as [jsonString o].
  - intros p data fs fs'. unfold fs_WriteFile.
    destruct (is_dir (fs !! p) || bool_decide (p = [])); [done|].
    destruct (is_dir (fs !! removelast p)); [|done].
    intros [= <-]. split; [apply lookup_insert_eq|].
    intros q Hq. by apply lookup_insert_ne.
  - apply runStdin_index_on_disk.
Qed.

End Order.

(** ** The formula that is not found *)

Section NotFound.
Context {W Tree : Type} `{!Env W Tree}.
Variables (docsDir DefaultWorkspaceDir DefaultWorkspaceName : string).
Variable isFormula : list string → bool.
Variable d : deleteFormulaCmd.

Lemma readFormulas_leaf fuel dir (s : state W) dirs w' :
  directory_List dir false (world s) = (inr dirs, w') →
  isFormula (sliceutil_Remove dirs docsDir) = true →
  readFormulas docsDir isFormula (S fuel) dir s
  = (Ok [], State w' (trace s ++ [EvList dir None])).
Proof.
  intros Hls Hleaf. simpl. unfold bind, call. rewrite Hls. simpl.
  by rewrite Hleaf.
Qed.

(** C9.  When the listing of the starting workspace directory, without
    the reserved entry, is classified as a formula leaf, [readFormulas]
    returns the empty segment list and no error after that one listing,
    and [runPrompt] returns [ErrCouldNotFindFormula], whose message is
    "Could not find formula": no selection, no confirmation, no removal and
    no listing of the deletion passes has been made, only the calls that
    chose the workspace and the one listing.  Under the classification of
    the spec an empty listing is such a leaf, so an empty directory ends
    the resolution this way. *)
Theorem not_found_is_distinct :
  (∀ fuel wspace (s : state W) dirs w',
     directory_List (formula.Dir wspace) false (world s) = (inr dirs, w') →
     isFormula (sliceutil_Remove dirs docsDir) = true →
     readFormulas docsDir isFormula (S fuel) (formula.Dir wspace) s
     = (Ok [], State w' (trace s ++ [EvList (formula.Dir wspace) None]))
     ∧ ∀ s_init,
         runPrompt_workspace DefaultWorkspaceDir DefaultWorkspaceName d s_init
         = (Ok wspace, s) →
         runPrompt docsDir DefaultWorkspaceDir DefaultWorkspaceName isFormula d
           (S fuel) s_init
         = (Err ErrCouldNotFindFormula,
            State w' (trace s ++ [EvList (formula.Dir wspace) None]))
         ∧ ∃ pre, trace s = trace s_init ++ pre
                  ∧ Forall (λ ev, is_workspace ev = true) pre)
  ∧ error_message ErrCouldNotFindFormula = "Could not find formula"
  ∧ (∀ is_dir_name fuel wspace (s s_init : state W) dirs w',
       directory_List (formula.Dir wspace) false (world s) = (inr dirs, w') →
       sliceutil_Remove dirs docsDir = [] →
       runPrompt_workspace DefaultWorkspaceDir DefaultWorkspaceName d s_init
       = (Ok wspace, s) →
       readFormulas docsDir (isFormula_spec is_dir_name) (S fuel) (formula.Dir wspace) s
       = (Ok [], State w' (trace s ++ [EvList (formula.Dir wspace) None]))
       ∧ runPrompt docsDir DefaultWorkspaceDir DefaultWorkspaceName
           (isFormula_spec is_dir_name) d (S fuel) s_init
         = (Err ErrCouldNotFindFormula,
            State w' (trace s ++ [EvList (formula.Dir wspace) None]))).
Proof.
  assert (∀ isF fuel wspace (s s_init : state W) dirs w',
            directory_List (formula.Dir wspace) false (world s) = (inr dirs, w') →
            isF (sliceutil_Remove dirs docsDir) = true →
            runPrompt_workspace DefaultWorkspaceDir DefaultWorkspaceName d s_init
            = (Ok wspace, s) →
            runPrompt docsDir DefaultWorkspaceDir DefaultWorkspaceName isF d
              (S fuel) s_init
            = (Err ErrCouldNotFindFormula,
               State w' (trace s ++ [EvList (formula.Dir wspace) None]))) as Hrun.
  { intros isF fuel wspace s s_init dirs w' Hls Hleaf Hws.
    unfold runPrompt. rewrite (bind_Ok _ _ _ _ _ Hws).
    unfold runPrompt_formula. unfold bind at 1.
    simpl. unfold bind at 1, call. rewrite Hls. simpl. by rewrite Hleaf. }
  split; [|split; [done|]].
  - intros fuel wspace s dirs w' Hls Hleaf.
    split; [by apply (readFormulas_leaf fuel _ s dirs w')|].
    intros s_init Hws.
    split; [by apply (Hrun isFormula fuel wspace s s_init dirs w')|].
    destruct (emits_runPrompt_workspace DefaultWorkspaceDir DefaultWorkspaceName
                d s_init) as (pre & Hpre & HP & _).
    rewrite Hws in Hpre. eauto.
  - intros is_dir_name fuel wspace s s_init dirs w' Hls Hnil Hws. split.
    + simpl. unfold bind, call. rewrite Hls. simpl. by rewrite Hnil.
    + apply (Hrun (isFormula_spec is_dir_name) fuel wspace s s_init dirs w');
        [done| |done]. by rewrite Hnil.
Qed.

End NotFound.

Lemma not_found_is_distinct_witness :
  let wspace := {| formula.Name := "mine"; formula.Dir := ["home"; "ws"] |} in
  let s_init := State (prompt_world empty_ws wspace [] [true]) [] in
  runPrompt "docs" "ritchie-formulas-local" "Default" (isFormula_spec (λ _, true))
    cmd0 1 s_init
  = (Err ErrCouldNotFindFormula,
     State (world (runPrompt_workspace "ritchie-formulas-local" "Default" cmd0
                     s_init).2)
       (trace (runPrompt_workspace "ritchie-formulas-local" "Default" cmd0
                 s_init).2 ++ [EvList ["home"; "ws"] None])).
Proof.
  intros wspace s_init.
  apply (proj2 (proj2 (not_found_is_distinct "docs" "ritchie-formulas-local"
                         "Default" (λ _, true) cmd0))
           (λ _, true) 0 wspace
           (runPrompt_workspace "ritchie-formulas-local" "Default" cmd0 s_init).2
           s_init []).
  - vm_compute. reflexivity.
  - vm_compute. reflexivity.
  - vm_compute. reflexivity.
Defined.

(** ** The empty segment sequence *)

(** C10.  With no segments, [deleteFormula root [] 0] is the removal of
    the root itself: the base case is met at once.  The stdin entry point
    checks its request for nothing: with an empty (or absent) [groups] it
    removes the given workspace root, then the local mirror root, and goes
    on to the index.  On the disk, unless a path runs through a regular
    file, both roots and everything beneath them are gone afterwards. *)
Theorem empty_sequence_removes_root :
  (∀ (W Tree : Type) (E : Env W Tree) (ws : path) (s : state W),
     deleteFormula ws [] 0 s = call (EvRemoveAll ws) (os_RemoveAll ws) s)
  ∧ (∀ (W Tree : Type) (E : Env W Tree) (d : deleteFormulaCmd)
       (s s0 : state W) (ws : path),
       call EvReadJson stdin_ReadJson s
       = (Ok {| Workspace := ws; Groups := [] |}, s0) →
       runStdin d s
       = (call (EvRemoveAll ws) (os_RemoveAll ws) ;;;
          call (EvRemoveAll (ritchieLocalWorkspace d))
            (os_RemoveAll (ritchieLocalWorkspace d)) ;;;
          recriateTreeJson d (ritchieLocalWorkspace d) ;;;
          ret tt) s0)
  ∧ (∀ (w : fsworld) (tr : list event) (ws : path),
       file_above (disk_of w) ws = false →
       deleteFormula ws [] 0 (State w tr)
       = (Ok tt, State (set_disk w (rm ws (disk_of w))) (tr ++ [EvRemoveAll ws None]))
       ∧ ∀ q, ws `prefix_of` q → rm ws (disk_of w) !! q = None)
  ∧ (∀ (d : deleteFormulaCmd) (w : fsworld) (tr : list event) (ws : path),
       stdin_of w = inr {| Workspace := ws; Groups := [] |} →
       file_above (disk_of w) ws = false →
       file_above (disk_of w) (ritchieLocalWorkspace d) = false →
       ∃ r w' tr',
         runStdin d (State w tr)
         = (r, State w' (tr ++ [EvReadJson None; EvRemoveAll ws None;
                                EvRemoveAll (ritchieLocalWorkspace d) None] ++ tr'))
         ∧ disk_of w' = rm (ritchieLocalWorkspace d) (rm ws (disk_of w))
         ∧ ∀ q, ws `prefix_of` q ∨ ritchieLocalWorkspace d `prefix_of` q →
                disk_of w' !! q = None).
Proof.
  split; [|split; [|split]].
  - intros W Tree E ws s. apply (deleteFormula_base ws []).
  - intros W Tree E d s s0 ws Hread.
    unfold runStdin. rewrite (bind_Ok _ _ _ _ _ Hread). simpl.
    apply bind_ext; [apply (deleteFormula_base ws [])|]. intros _ s1.
    apply bind_ext; [apply (deleteFormula_base _ [])|done].
  - intros w tr ws Hfile.
    rewrite (deleteFormula_base ws []), run_RemoveAll, Hfile.
    split; [done|]. intros q Hq. by apply lookup_rm_under.
  - intros d w tr ws Hreq Hws Hmirror.
    set (mirror := ritchieLocalWorkspace d) in *.
    unfold runStdin. unfold bind at 1, call at 1. simpl. rewrite Hreq. simpl.
    unfold bind at 1. rewrite (deleteFormula_base ws []), run_RemoveAll, Hws.
    unfold bind at 1. fold mirror.
    rewrite (deleteFormula_base mirror []), run_RemoveAll.
    cbn [disk_of set_disk]. rewrite (file_above_rm _ _ _ Hmirror).
    unfold recriateTreeJson, bind, call. simpl. unfold fs_Generate. simpl.
    rewrite lookup_rm_under by done. simpl.
    eexists _, _, [_]. rewrite <- !app_assoc. simpl.
    split; [done|]. split; [done|]. simpl.
    intros q [Hq|Hq]; [|by apply lookup_rm_under].
    by apply lookup_rm_None, lookup_rm_under.
Qed.

Lemma empty_sequence_removes_root_witness :
  ∃ r w' tr',
    runStdin cmd0
      (State (stdin_world synced {| Workspace := ["home"; "ws"]; Groups := [] |}) [])
    = (r, State w' ([] ++ [EvReadJson None; EvRemoveAll ["home"; "ws"] None;
                           EvRemoveAll (ritchieLocalWorkspace cmd0) None] ++ tr'))
    ∧ disk_of w'
      = rm (ritchieLocalWorkspace cmd0)
          (rm ["home"; "ws"]
             (disk_of (stdin_world synced
                         {| Workspace := ["home"; "ws"]; Groups := [] |})))
    ∧ ∀ q, ["home"; "ws"] `prefix_of` q ∨ ritchieLocalWorkspace cmd0 `prefix_of` q →
           disk_of w' !! q = None.
Proof.
  apply (proj2 (proj2 (proj2 empty_sequence_removes_root)) cmd0
           (stdin_world synced {| Workspace := ["home"; "ws"]; Groups := [] |})
           [] ["home"; "ws"]).
  - reflexivity.
  - vm_compute. reflexivity.
  - vm_compute. reflexivity.
Defined.

(** What is left of the disk of that request: neither root. *)
Example empty_groups_scenario :
  let '(r, s) := runStdin cmd0
                   (State (stdin_world synced
                             {| Workspace := ["home"; "ws"]; Groups := [] |}) []) in
  holds_exactly (disk_of (world s))
    [[]; ["home"]; ["home"; ".rit"]; ["home"; ".rit"; "repos"]] [] = true
  ∧ trace s = [EvReadJson None; EvRemoveAll ["home"; "ws"] None;
               EvRemoveAll ["home"; ".rit"; "repos"; "local"] None;
               EvGenerate ["home"; ".rit"; "repos"; "local"]
                 (Some (PathError "open" ["home"; ".rit"; "repos"; "local"] ENOENT))].
Proof. by vm_compute. Qed.

(** ** Two whole runs *)

(** A batch request for [a/b] on a workspace and a mirror that both hold
    it: two passes, then the index, which now lists nothing. *)
Example stdin_scenario :
  let '(r, s) := runStdin cmd0
                   (State (stdin_world synced
                             {| Workspace := ["home"; "ws"]; Groups := ["a"; "b"] |})
                      []) in
  r = Ok tt
  ∧ holds_exactly (disk_of (world s))
      [[]; ["home"]; ["home"; "ws"]; ["home"; ".rit"];
       ["home"; ".rit"; "repos"]; ["home"; ".rit"; "repos"; "local"]]
      [["home"; ".rit"; "repos"; "local"; "tree.json"]] = true
  ∧ disk_of (world s) !! ["home"; ".rit"; "repos"; "local"; "tree.json"]
    = Some (File "")
  ∧ trace s
    = [EvReadJson None;
       EvRemoveAll ["home"; "ws"; "a"; "b"] None;
       EvReadDir ["home"; "ws"; "a"] None;
       EvRemoveAll ["home"; "ws"; "a"] None;
       EvRemoveAll ["home"; ".rit"; "repos"; "local"; "a"; "b"] None;
       EvReadDir ["home"; ".rit"; "repos"; "local"; "a"] None;
       EvRemoveAll ["home"; ".rit"; "repos"; "local"; "a"] None;
       EvGenerate ["home"; ".rit"; "repos"; "local"] None;
       EvWriteFile ["home"; ".rit"; "repos"; "local"; "tree.json"] "" None].
Proof. by vm_compute. Qed.

(** The same formula, chosen and confirmed at the prompts. *)
Example prompt_scenario :
  let wspace := {| formula.Name := "mine"; formula.Dir := ["home"; "ws"] |} in
  let leaf := isFormula_spec (λ n, negb (bool_decide (n = "main.go"))) in
  let '(r, s) := runPrompt "docs" "ritchie-formulas-local" "Default" leaf cmd0 3
                   (State (prompt_world synced wspace ["a"; "b"] [true]) []) in
  r = Ok tt
  ∧ printed (world s) = ["✔ Formula successfully deleted!"]
  ∧ disk_of (world s) !! ["home"; "ws"; "a"] = None
  ∧ disk_of (world s) !! ["home"; ".rit"; "repos"; "local"; "a"] = None
  ∧ trace s
    = [EvWorkspaceList None; EvWorkspaceInput None;
       EvValidate wspace None; EvAdd wspace None;
       EvList ["home"; "ws"] None; EvSelect ["a"] None;
       EvList ["home"; "ws"; "a"] None; EvSelect ["b"] None;
       EvList ["home"; "ws"; "a"; "b"] None;
       EvConfirm "Are you sure you want to delete the formula: rit a b" None;
       EvRemoveAll ["home"; "ws"; "a"; "b"] None;
       EvReadDir ["home"; "ws"; "a"] None;
       EvRemoveAll ["home"; "ws"; "a"] None;
       EvRemoveAll ["home"; ".rit"; "repos"; "local"; "a"; "b"] None;
       EvReadDir ["home"; ".rit"; "repos"; "local"; "a"] None;
       EvRemoveAll ["home"; ".rit"; "repos"; "local"; "a"] None;
       EvGenerate ["home"; ".rit"; "repos"; "local"] None;
       EvWriteFile ["home"; ".rit"; "repos"; "local"; "tree.json"] "" None;
       EvSuccess "✔ Formula successfully deleted!"].
Proof. by vm_compute. Qed.

(** * Further properties of the command *)

(** ** [deleteFormula] on every environment: bounds and paths *)

Section Bounds.
Context {W Tree : Type} `{!Env W Tree}.

Lemma filepath_Join_nil (p : path) : filepath_Join p [] = p.
Proof. done. Qed.

Lemma filepath_Join_cons (p : path) (g : string) (l : list string) :
  filepath_Join p (g :: l) = filepath_Join (filepath_Join p [g]) l.
Proof. done. Qed.

Lemma filepath_Join_snoc (p : path) (l : list string) (g : string) :
  filepath_Join (filepath_Join p l) [g] = filepath_Join p (l ++ [g]).
Proof. unfold filepath_Join. by rewrite fold_left_app. Qed.

(** A call returns nil and logs so, or returns its error and logs it. *)
Lemma run_call {A} ev (op : W → (error + A) * W) (s : state W) :
  (∃ a w', call ev op s = (Ok a, State w' (trace s ++ [ev None])))
  ∨ (∃ e w', call ev op s = (Err e, State w' (trace s ++ [ev (Some e)]))).
Proof.
  unfold call. destruct (op (world s)) as [[e|a] w']; simpl; eauto.
Qed.

Lemma bind_not_Ok {A B} (m : M W A) (k : A → M W B) (s : state W) :
  (∀ a, (m s).1 ≠ Ok a) → (bind m k s).2 = (m s).2.
Proof.
  unfold bind. destruct (m s) as [[a| | |] s']; simpl; [|done..].
  intros Hm. by destruct (Hm a).
Qed.

Lemma emits_trace {A} (P : event → Prop) (m : M W A) (s : state W) :
  emits P m → ∃ tr, trace (m s).2 = trace s ++ tr.
Proof. intros Hm. destruct (Hm s) as (tr & Htr & _). by exists tr. Qed.

Lemma propagated_None (tr : list event) : propagated tr None → clean tr.
Proof. by intros [[? _]|(? & ? & ? & _ & _ & _ & ?)]. Qed.

(** The calls of [deleteFormula] from an index within the segments: the
    removal of the directory of all remaining segments, then at most two
    calls for each level on the way back. *)
Lemma deleteFormula_calls (k : nat) :
  ∀ ws groups index (s : state W),
    length groups - index = k → index ≤ length groups →
    ∃ r w' r0 tr',
      deleteFormula ws groups index s
      = (r, State w' (trace s
                      ++ EvRemoveAll (filepath_Join ws (drop index groups)) r0 :: tr'))
      ∧ (r = Ok tt ∨ ∃ e, r = Err e)
      ∧ length tr' ≤ 2 * k
      ∧ (∀ e, r0 = Some e → r = Err e ∧ tr' = []).
Proof.
  induction k as [|k IH]; intros ws groups index s Hk Hn.
  - assert (index = length groups) as -> by lia.
    rewrite deleteFormula_base, drop_all, filepath_Join_nil.
    destruct (run_call (EvRemoveAll ws) (os_RemoveAll ws) s)
      as [([] & w' & ->)|(e & w' & ->)].
    + eexists _, _, _, []. split; [done|]. split; [by left|].
      split; [simpl; lia|]. intros e [=].
    + eexists _, _, _, []. split; [done|]. split; [eauto|].
      split; [simpl; lia|]. by intros e' [= ->].
  - destruct (lookup_lt_is_Some_2 groups index) as [g Hg]; [lia|].
    rewrite (deleteFormula_step _ _ _ g) by done.
    rewrite (drop_S _ _ _ Hg), filepath_Join_cons.
    destruct (IH (filepath_Join ws [g]) groups (index + 1) s)
      as (r & w1 & r0 & tr1 & Hrun & Hr & Hlen & Hfail); [lia..|].
    rewrite Nat.add_1_r in Hrun.
    destruct Hr as [->|[e ->]].
    + rewrite Nat.add_1_r. rewrite (bind_Ok _ _ _ _ _ Hrun).
      assert (r0 = None) as ->.
      { destruct r0 as [e|]; [|done]. by destruct (Hfail e eq_refl). }
      case_decide.
      { eexists _, _, _, tr1. split; [done|]. split; [by left|].
        split; [lia|]. intros e [=]. }
      unfold canDelete.
      destruct (run_call (EvReadDir ws) (ioutil_ReadDir ws)
                  (State w1 (trace s ++ EvRemoveAll
                               (filepath_Join (filepath_Join ws [g])
                                  (drop (S index) groups)) None :: tr1)))
        as [(files & w2 & Hread)|(e & w2 & Hread)]; simpl in Hread.
      * rewrite (bind_Ok _ _ _ _ _ (bind_Ok _ _ _ _ _ Hread)). unfold ret at 1.
        destruct (canDelete_loop files).
        -- destruct (run_call (EvRemoveAll ws) (os_RemoveAll ws)
                       (State w2 ((trace s ++ EvRemoveAll
                                     (filepath_Join (filepath_Join ws [g])
                                        (drop (S index) groups)) None :: tr1)
                                  ++ [EvReadDir ws None])))
             as [([] & w3 & ->)|(e & w3 & ->)]; simpl.
           ++ rewrite <- !app_assoc; simpl.
              eexists _, _, _, (tr1 ++ [_; _]). split; [done|].
              split; [by left|]. split; [rewrite length_app; simpl; lia|].
              intros e [=].
           ++ rewrite <- !app_assoc; simpl.
              eexists _, _, _, (tr1 ++ [_; _]). split; [done|].
              split; [eauto|]. split; [rewrite length_app; simpl; lia|].
              intros e' [=].
        -- rewrite <- !app_assoc; simpl.
           eexists _, _, _, (tr1 ++ [_]). split; [done|].
           split; [by left|]. split; [rewrite length_app; simpl; lia|].
           intros e [=].
      * rewrite (bind_Err _ _ _ _ _ (bind_Err _ _ _ _ _ Hread)).
        rewrite <- !app_assoc; simpl.
        eexists _, _, _, (tr1 ++ [_]). split; [done|].
        split; [eauto|]. split; [rewrite length_app; simpl; lia|].
        intros e' [=].
    + rewrite Nat.add_1_r. rewrite (bind_Err _ _ _ _ _ Hrun).
      eexists _, _, _, tr1. split; [done|]. split; [eauto|].
      split; [lia|]. intros e' ->. destruct (Hfail e' eq_refl) as [_ ->].
      split; [|done]. by destruct (Hfail e' eq_refl) as [[= ->] _].
Qed.

(** X1.  In every environment, [deleteFormula] called with an index within
    the segments returns nil or an error, never a panic: its first call is
    the removal of [filepath.Join] of the workspace and the segments from
    the index on, at most two calls follow for each of these segments, and
    when that first removal fails its error is returned and no other call
    is made.  Called with an index past the end of the segments it panics
    on the index expression before any call. *)
Theorem deleteFormula_index_bounds ws groups index (s : state W) :
  (index ≤ length groups →
   ∃ r w' r0 tr',
     deleteFormula ws groups index s
     = (r, State w' (trace s
                     ++ EvRemoveAll (filepath_Join ws (drop index groups)) r0 :: tr'))
     ∧ (r = Ok tt ∨ ∃ e, r = Err e)
     ∧ length tr' ≤ 2 * (length groups - index)
     ∧ (∀ e, r0 = Some e → r = Err e ∧ tr' = []))
  ∧ (length groups < index → deleteFormula ws groups index s = (Panic, s)).
Proof.
  split.
  - intros Hn. by apply (deleteFormula_calls (length groups - index)).
  - apply deleteFormula_out_of_range.
Qed.

Section Touches.
Variables (root : path) (groups : list string).

Lemma emits_deleteFormula_touches (k : nat) :
  ∀ index, length groups - index = k → 1 ≤ index ≤ length groups →
    emits (touches root groups index)
      (deleteFormula (filepath_Join root (take index groups)) groups index).
Proof.
  induction k as [|k IH]; intros index Hk Hi.
  - assert (index = length groups) as -> by lia.
    intros s. rewrite deleteFormula_base. revert s.
    apply emits_call; [|done]. intros r. exists (length groups), r. split; [lia|eauto].
  - destruct (lookup_lt_is_Some_2 groups index) as [g Hg]; [lia|].
    assert (∀ r, touches root groups index
                   (EvRemoveAll (filepath_Join root (take index groups)) r)
                 ∧ touches root groups index
                     (EvReadDir (filepath_Join root (take index groups)) r)) as Hat.
    { intros r. split; exists index, r; (split; [lia|eauto]). }
    intros s. rewrite (deleteFormula_step _ _ _ g) by done.
    rewrite filepath_Join_snoc, <- (take_S_r _ _ _ Hg), <- Nat.add_1_r.
    revert s. apply emits_bind.
    + eapply emits_mono; [|apply IH; lia].
      intros ev (j & r & Hj & Hev). exists j, r. split; [lia|done].
    + intros _. rewrite decide_False by lia.
      apply emits_bind.
      * unfold canDelete. apply emits_bind; [|intros; apply emits_ret].
        apply emits_call; [|done]. intros r. apply Hat.
      * intros [|]; [|apply emits_ret].
        apply emits_call; [|done]. intros r. apply Hat.
Qed.

End Touches.

(** X2.  In every environment and for any segment strings, plain names or
    not, every call of [deleteFormula ws groups 0] is a removal or a
    listing of [filepath.Join] of the workspace and a non-empty prefix of
    the segments; no other path is the argument of a call. *)
Theorem deleteFormula_touches_only_the_path ws groups (s : state W) :
  groups ≠ [] →
  ∃ tr, trace (deleteFormula ws groups 0 s).2 = trace s ++ tr
        ∧ Forall (touches ws groups 1) tr.
Proof.
  intros Hne. destruct groups as [|g groups'] eqn:Hgroups; [done|].
  rewrite <- Hgroups in *.
  rewrite (deleteFormula_index0 _ _ g) by (by rewrite Hgroups).
  destruct (emits_deleteFormula_touches ws groups (length groups - 1) 1) with (s := s)
    as (tr & Htr & HP & _); [done|rewrite Hgroups; simpl; lia|].
  exists tr. split; [|done]. rewrite <- Htr. by rewrite Hgroups.
Qed.

End Bounds.

Lemma deleteFormula_touches_only_the_path_witness :
  ∃ tr, trace (deleteFormula ["home"; "ws"] ["a"; ".."; "b/c"] 0
                 (State (mkworld demo) [])).2
        = trace (State (mkworld demo) []) ++ tr
        ∧ Forall (touches ["home"; "ws"] ["a"; ".."; "b/c"] 1) tr.
Proof.
  apply (deleteFormula_touches_only_the_path ["home"; "ws"] ["a"; ".."; "b/c"]
           (State (mkworld demo) [])).
  done.
Defined.

(** ** What [deleteFormula] leaves on the disk *)

Section Shrinks.
Implicit Types (fs : disk) (w : fsworld) (tr : list event).

Lemma rm_subseteq p fs : rm p fs ⊆ fs.
Proof. unfold rm. apply map_filter_subseteq. Qed.

Lemma deleteFormula_rec_shrinks (fuel : nat) :
  ∀ ws groups index w tr,
    ∃ r fs' tr',
      deleteFormula_rec fuel ws groups index (State w tr)
      = (r, State (set_disk w fs') tr')
      ∧ fs' ⊆ disk_of w.
Proof.
  induction fuel as [|fuel IH]; intros ws groups index w tr; simpl.
  - exists OutOfFuel, (disk_of w), tr. by rewrite set_disk_id.
  - case_decide.
    { rewrite run_RemoveAll. destruct (file_above _ _).
      - eexists _, (disk_of w), _. by rewrite set_disk_id.
      - eexists _, _, _. split; [done|]. apply rm_subseteq. }
    destruct (groups !! index) as [g|]; cycle 1.
    { exists Panic, (disk_of w), tr. by rewrite set_disk_id. }
    destruct (IH (filepath_Join ws [g]) groups (index + 1) w tr)
      as (r & fs1 & tr1 & Hrun & Hsub).
    unfold bind at 1. rewrite Hrun.
    destruct r as [[]|e| |]; try by eexists _, fs1, tr1.
    case_decide; [by eexists _, fs1, tr1|].
    unfold bind. rewrite run_canDelete. cbn [disk_of set_disk].
    destruct (fs_ReadDir ws fs1) as [e|l]; [by eexists _, fs1, _|].
    unfold ret. destruct (canDelete_loop l); [|by eexists _, fs1, _].
    rewrite run_RemoveAll. cbn [disk_of set_disk].
    destruct (file_above fs1 ws); [by eexists _, fs1, _|].
    eexists _, _, _. split; [done|]. etrans; [apply rm_subseteq|done].
Qed.

(** X3.  On the disk, for any segment strings and any index, whatever
    [deleteFormula] returns: nothing of the world but the disk has changed,
    and every entry the disk holds afterwards it held before, with the same
    content.  The function creates no entry and alters none. *)
Theorem deleteFormula_only_removes ws groups index w tr :
  ∃ r fs' tr',
    deleteFormula ws groups index (State w tr) = (r, State (set_disk w fs') tr')
    ∧ ∀ q n, fs' !! q = Some n → disk_of w !! q = Some n.
Proof.
  destruct (deleteFormula_rec_shrinks (S (length groups - index)) ws groups index w tr)
    as (r & fs' & tr' & Hrun & Hsub).
  exists r, fs', tr'. split; [done|].
  intros q n Hq. by eapply lookup_weaken.
Qed.

End Shrinks.

Section Missing.
Implicit Types (fs : disk) (w : fsworld) (tr : list event).

Lemma wf_absent_below fs p q :
  wf fs → fs !! p = None → p `prefix_of` q → fs !! q = None.
Proof.
  intros Hwf Hp [r ->]. destruct r as [|x r]; [by rewrite app_nil_r|].
  destruct (fs !! (p ++ x :: r)) as [n|] eqn:Hq; [|done].
  rewrite (wf_above fs p (x :: r)) in Hp; [done..| |done]. by rewrite Hq.
Qed.

Lemma file_above_prefix fs p q :
  p `prefix_of` q → file_above fs q = false → file_above fs p = false.
Proof.
  intros [r ->]. rewrite !file_above_false. intros Hq i Hi.
  specialize (Hq i). rewrite length_app in Hq. rewrite take_app_le in Hq by lia.
  apply Hq. lia.
Qed.

(** The leaf is an entry of the level before it. *)
Lemma last_level root segs :
  segs ≠ [] →
  ∃ g, segs !! (length segs - 1) = Some g
       ∧ root ++ segs = level root segs (length segs - 1) ++ [g].
Proof.
  intros Hne.
  assert (0 < length segs) as Hn by (destruct segs; simpl; done || lia).
  destruct (lookup_lt_is_Some_2 segs (length segs - 1)) as [g Hg]; [lia|].
  exists g. split; [done|].
  rewrite <- (level_S _ _ _ _ Hg), <- level_all. f_equal. lia.
Qed.

(** X4.  A formula that is not there is not reported.  On a well-formed
    disk, when the parent of the leaf is a directory and the leaf path is
    absent, [deleteFormula root segs 0] returns nil.  With one segment, or
    when the parent holds some sub-directory, the disk is left as it was.
    With two or more segments and a parent without sub-directories, the
    parent is pruned all the same, with the files it holds. *)
Theorem missing_formula_is_not_reported (root : path) (segs : list string) w tr :
  segs ≠ [] →
  Forall (λ g, plain_name g = true) segs →
  wf (disk_of w) →
  disk_of w !! level root segs (length segs - 1) = Some Directory →
  disk_of w !! (root ++ segs) = None →
  ∃ fs' tr',
    deleteFormula root segs 0 (State w tr) = (Ok tt, State (set_disk w fs') (tr ++ tr'))
    ∧ (length segs = 1
       ∨ (∃ y, disk_of w !! (level root segs (length segs - 1) ++ [y])
               = Some Directory) →
       fs' = disk_of w)
    ∧ (2 ≤ length segs →
       (∀ y, disk_of w !! (level root segs (length segs - 1) ++ [y])
             ≠ Some Directory) →
       ∀ q, level root segs (length segs - 1) `prefix_of` q → fs' !! q = None).
Proof.
  intros Hne Hnames Hwf Hparent Hleaf.
  destruct (deleteFormula_root_exact root segs w tr)
    as (c & Hc & Hchain & Hmin & Hrun); [done..|].
  destruct (last_level root segs) as (g & Hg & Hlast); [done|].
  assert (rm (root ++ segs) (disk_of w) = disk_of w) as Hsame.
  { apply rm_absent. intros q Hq. by apply (wf_absent_below _ (root ++ segs)). }
  eexists _, _. split; [exact Hrun|]. split.
  - intros Hcase. assert (c = length segs) as ->; [|by rewrite level_all].
    destruct (decide (c = length segs)) as [|Hlt]; [done|]. exfalso.
    destruct Hcase as [H1|[y Hy]]; [lia|].
    assert (chain (disk_of w) root segs (length segs - 1) = true) as Hch.
    { apply (chain_mono _ _ _ c); done || lia. }
    rewrite (chain_S _ _ _ _ g Hg), andb_true_iff in Hch.
    destruct Hch as [Honly _]. rewrite only_subdir_true in Honly.
    pose proof (Honly _ Hy) as ->. by rewrite <- Hlast, Hleaf in Hy.
  - intros Hn Hnone q Hq. apply lookup_rm_under. etrans; [|done].
    apply level_prefix.
    destruct (decide (c ≤ length segs - 1)) as [|Hgt]; [done|]. exfalso.
    specialize (Hmin (length segs - 1) ltac:(lia)).
    rewrite (chain_S _ _ _ _ g Hg) in Hmin.
    replace (length segs - 1 + 1) with (length segs) in Hmin by lia.
    rewrite chain_end, andb_true_r in Hmin.
    apply only_subdir_false in Hmin as (y & Hy & _). by destruct (Hnone y).
Qed.

(** X5.  A group that is not there is not found.  On a well-formed disk,
    with two or more segments, when the parent of the leaf is absent and
    no path component is a regular file, [deleteFormula root segs 0] makes
    two calls: the removal of the leaf, which reports nothing, and the
    listing of the parent, whose not-found error ([os.IsNotExist]) is what
    it returns.  The disk is left as it was. *)
Theorem missing_group_is_not_found (root : path) (segs : list string) w tr :
  2 ≤ length segs →
  Forall (λ g, plain_name g = true) segs →
  wf (disk_of w) →
  file_above (disk_of w) (root ++ segs) = false →
  disk_of w !! level root segs (length segs - 1) = None →
  deleteFormula root segs 0 (State w tr)
  = (Err (PathError "open" (level root segs (length segs - 1)) ENOENT),
     State w (tr ++ [EvRemoveAll (root ++ segs) None;
                     EvReadDir (level root segs (length segs - 1))
                       (Some (PathError "open" (level root segs (length segs - 1))
                                ENOENT))]))
  ∧ is_not_exist (PathError "open" (level root segs (length segs - 1)) ENOENT) = true.
Proof.
  intros Hn Hnames Hwf Hfile Hparent. split; [|done].
  rewrite Forall_forall in Hnames.
  destruct (last_level root segs) as (g & Hg & Hleaf);
    [intros ->; simpl in Hn; lia|].
  rewrite <- (level_0 root segs) at 1.
  apply (deleteFormula_error_rises root segs Hnames (length segs - 1) 0
           (length segs - 1)); [lia..|].
  rewrite (deleteFormula_step _ _ _ g) by done.
  rewrite filepath_Join_plain by (apply Hnames; by eapply list_elem_of_lookup_2).
  rewrite <- Hleaf.
  replace (length segs - 1 + 1) with (length segs) by lia.
  assert (deleteFormula (root ++ segs) segs (length segs) (State w tr)
          = (Ok tt, State w (tr ++ [EvRemoveAll (root ++ segs) None]))) as Hstep.
  { rewrite deleteFormula_base, run_RemoveAll, Hfile.
    rewrite rm_absent; [by rewrite set_disk_id|].
    intros q Hq. apply (wf_absent_below _ (level root segs (length segs - 1)));
      [done..|]. etrans; [|done]. rewrite Hleaf. by apply prefix_app_r. }
  rewrite (bind_Ok _ _ _ _ _ Hstep). rewrite decide_False by lia.
  unfold bind. rewrite run_canDelete. unfold fs_ReadDir.
  rewrite (file_above_prefix _ _ (root ++ segs)), Hparent;
    [|rewrite Hleaf; by apply prefix_app_r|done].
  by rewrite <- app_assoc.
Qed.

(** X6.  A path through a regular file.  When some component of the leaf
    path other than the last names a regular file, [deleteFormula root
    segs 0] makes one call, the removal of the leaf, which fails with
    ENOTDIR; that error is returned, no directory is listed and the world
    is left as it was. *)
Theorem path_through_file_fails (root : path) (segs : list string) w tr :
  Forall (λ g, plain_name g = true) segs →
  file_above (disk_of w) (root ++ segs) = true →
  ∃ e, errno_of e = Some ENOTDIR
       ∧ deleteFormula root segs 0 (State w tr)
         = (Err e, State w (tr ++ [EvRemoveAll (root ++ segs) (Some e)])).
Proof.
  intros Hnames Hfile. rewrite Forall_forall in Hnames.
  exists (PathError "unlinkat" (root ++ segs) ENOTDIR). split; [done|].
  rewrite <- (level_0 root segs) at 1.
  apply (deleteFormula_error_rises root segs Hnames (length segs) 0 (length segs));
    [lia..|].
  by rewrite deleteFormula_base, run_RemoveAll, level_all, Hfile.
Qed.

End Missing.

Lemma wf_readme_only : wf readme_only.
Proof. apply wf_check_sound. by vm_compute. Qed.

Lemma wf_mirror_only : wf mirror_only.
Proof. apply wf_check_sound. by vm_compute. Qed.

Lemma wf_synced : wf synced.
Proof. apply wf_check_sound. by vm_compute. Qed.

Lemma missing_formula_is_not_reported_witness :
  ∃ fs' tr',
    deleteFormula ["home"; "ws"] ["aws"; "s3"] 0 (State (mkworld readme_only) [])
    = (Ok tt, State (set_disk (mkworld readme_only) fs') ([] ++ tr'))
    ∧ (length ["aws"; "s3"] = 1
       ∨ (∃ y, disk_of (mkworld readme_only)
                 !! (level ["home"; "ws"] ["aws"; "s3"] (length ["aws"; "s3"] - 1)
                     ++ [y]) = Some Directory) →
       fs' = disk_of (mkworld readme_only))
    ∧ (2 ≤ length ["aws"; "s3"] →
       (∀ y, disk_of (mkworld readme_only)
               !! (level ["home"; "ws"] ["aws"; "s3"] (length ["aws"; "s3"] - 1)
                   ++ [y]) ≠ Some Directory) →
       ∀ q, level ["home"; "ws"] ["aws"; "s3"] (length ["aws"; "s3"] - 1)
              `prefix_of` q → fs' !! q = None).
Proof.
  apply (missing_formula_is_not_reported ["home"; "ws"] ["aws"; "s3"]
           (mkworld readme_only) []).
  - done.
  - repeat constructor.
  - exact wf_readme_only.
  - by vm_compute.
  - by vm_compute.
Defined.

(** The group [aws] holds a file and no formula: asking for [aws s3]
    removes the group. *)
Example missing_formula_prunes_its_group :
  let '(r, s) := deleteFormula ["home"; "ws"] ["aws"; "s3"] 0
                   (State (mkworld readme_only) []) in
  r = Ok tt
  ∧ holds_exactly (disk_of (world s)) [[]; ["home"]; ["home"; "ws"]] [] = true
  ∧ trace s = [EvRemoveAll ["home"; "ws"; "aws"; "s3"] None;
               EvReadDir ["home"; "ws"; "aws"] None;
               EvRemoveAll ["home"; "ws"; "aws"] None].
Proof. by vm_compute. Qed.

Lemma missing_group_is_not_found_witness :
  deleteFormula ["home"; "ws"] ["a"; "b"] 0 (State (mkworld mirror_only) [])
  = (Err (PathError "open"
            (level ["home"; "ws"] ["a"; "b"] (length ["a"; "b"] - 1)) ENOENT),
     State (mkworld mirror_only)
       ([] ++ [EvRemoveAll (["home"; "ws"] ++ ["a"; "b"]) None;
               EvReadDir (level ["home"; "ws"] ["a"; "b"] (length ["a"; "b"] - 1))
                 (Some (PathError "open"
                          (level ["home"; "ws"] ["a"; "b"] (length ["a"; "b"] - 1))
                          ENOENT))]))
  ∧ is_not_exist
      (PathError "open" (level ["home"; "ws"] ["a"; "b"] (length ["a"; "b"] - 1))
         ENOENT) = true.
Proof.
  apply (missing_group_is_not_found ["home"; "ws"] ["a"; "b"] (mkworld mirror_only) []).
  - simpl. lia.
  - repeat constructor.
  - exact wf_mirror_only.
  - by vm_compute.
  - by vm_compute.
Defined.

Lemma path_through_file_fails_witness :
  ∃ e, errno_of e = Some ENOTDIR
       ∧ deleteFormula ["home"; "ws"] ["a"; "b"] 0 (State (mkworld blocked) [])
         = (Err e, State (mkworld blocked)
                     ([] ++ [EvRemoveAll (["home"; "ws"] ++ ["a"; "b"]) (Some e)])).
Proof.
  apply (path_through_file_fails ["home"; "ws"] ["a"; "b"] (mkworld blocked) []).
  - repeat constructor.
  - by vm_compute.
Defined.

(** ** The interactive entry point *)

Section Prompt.
Context {W Tree : Type} `{!Env W Tree}.
Variables (docsDir DefaultWorkspaceDir DefaultWorkspaceName : string).
Variable isFormula : list string → bool.
Variable d : deleteFormulaCmd.

Lemma readFormulas_trace (fuel : nat) :
  ∀ dir (s s' : state W) groups,
    readFormulas docsDir isFormula fuel dir s = (Ok groups, s') →
    ∃ opts,
      length opts = length groups
      ∧ Forall (λ o, isFormula o = false) opts
      ∧ trace s' = trace s ++ resolution_trace dir groups opts
      ∧ resolves docsDir isFormula dir groups opts (world s) (world s').
Proof.
  induction fuel as [|fuel IH]; intros dir s s' groups; simpl; [done|].
  unfold bind at 1.
  destruct (call (EvList dir) (directory_List dir false) s)
    as [[dirs| | |] s1] eqn:Hlist; try done.
  apply call_Ok in Hlist as [Hlist Htr1].
  destruct (isFormula (sliceutil_Remove dirs docsDir)) eqn:Hleaf.
  { intros [= <- <-]. exists []. split; [done|]. split; [done|].
    split; [by rewrite Htr1|]. simpl. eauto. }
  unfold bind at 1.
  destruct (call _ _ s1) as [[selected| | |] s2] eqn:Hsel; try done.
  apply call_Ok in Hsel as [Hsel Htr2].
  unfold bind at 1.
  destruct (readFormulas _ _ fuel _ s2) as [[aux| | |] s3] eqn:Hrec; try done.
  intros [= <- <-].
  apply IH in Hrec as (opts & Hlen & Hopts & Htr3 & Hres).
  exists (sliceutil_Remove dirs docsDir :: opts).
  split; [simpl; by rewrite Hlen|]. split; [by constructor|].
  split; [rewrite Htr3, Htr2, Htr1; by rewrite <- !app_assoc|].
  simpl. by exists dirs, (world s1), (world s2).
Qed.

(** Conversely, answers that lead to a formula make [readFormulas] return
    the segments, given fuel for one listing more than there are
    segments. *)
Lemma readFormulas_complete (groups : list string) :
  ∀ dir opts (s : state W) w' fuel,
    length groups < fuel →
    resolves docsDir isFormula dir groups opts (world s) w' →
    readFormulas docsDir isFormula fuel dir s
    = (Ok groups, State w' (trace s ++ resolution_trace dir groups opts)).
Proof.
  induction groups as [|g groups IH]; intros dir [|o opts] s w' [|fuel] Hfuel;
    simpl in *; try lia; try done.
  - intros (dirs & Hlist & Hleaf). unfold bind, call. by rewrite Hlist, Hleaf.
  - intros (dirs & w1 & w2 & Hlist & -> & Hleaf & Hsel & Hres).
    unfold bind at 1, call at 1. rewrite Hlist. simpl. rewrite Hleaf.
    unfold bind at 1, call at 1. simpl. rewrite Hsel. simpl.
    unfold bind at 1.
    rewrite (IH (filepath_Join dir [g]) opts
               (State w2 ((trace s ++ [EvList dir None])
                          ++ [EvSelect (sliceutil_Remove dirs docsDir) None]))
               w' fuel) by (lia || done).
    simpl. by rewrite <- !app_assoc.
Qed.

Lemma resolution_trace_last (groups : list string) :
  ∀ dir opts,
    length opts = length groups →
    ∃ pre, resolution_trace dir groups opts
           = pre ++ [EvList (filepath_Join dir groups) None].
Proof.
  induction groups as [|g groups IH]; intros dir [|o opts] Hlen; try done.
  - by exists [].
  - simpl in Hlen. destruct (IH (filepath_Join dir [g]) opts) as [pre Hpre]; [lia|].
    exists (EvList dir None :: EvSelect o None :: pre).
    simpl. by rewrite Hpre, filepath_Join_cons.
Qed.

(** X7.  In every environment, when [readFormulas] returns segments with
    a nil error, they are the names chosen at the prompts, in order: the
    starting directory was listed, and for each segment in turn the
    selector, asked to choose among a listing (without the reserved entry)
    that was not classified as a formula, answered that segment, and the
    directory joined with it was listed next, in the world the answer
    left; the listing of the last directory was classified as a formula.
    No call failed, and the last call is the listing of [filepath.Join] of
    the starting directory and all the segments. *)
Theorem readFormulas_follows_selections fuel dir (s s' : state W) groups :
  readFormulas docsDir isFormula fuel dir s = (Ok groups, s') →
  ∃ opts pre,
    length opts = length groups
    ∧ Forall (λ o, isFormula o = false) opts
    ∧ trace s' = trace s ++ resolution_trace dir groups opts
    ∧ resolution_trace dir groups opts
      = pre ++ [EvList (filepath_Join dir groups) None]
    ∧ resolves docsDir isFormula dir groups opts (world s) (world s').
Proof.
  intros (opts & Hlen & Hopts & Htr & Hres)%readFormulas_trace.
  destruct (resolution_trace_last groups dir opts Hlen) as [pre Hpre].
  by exists opts, pre.
Qed.

(** X8.  In every environment, when the formula was resolved and the
    confirmation answered yes, the run of the interactive entry point goes
    on with the removal of the very directory whose listing ended the
    resolution: the listing of [filepath.Join(wspace.Dir, groups...)], the
    confirmation and the removal of the same path are consecutive calls. *)
Theorem confirmed_deletion_starts_at_resolved_leaf
    fuel wspace (s s' s0 : state W) groups :
  readFormulas docsDir isFormula fuel (formula.Dir wspace) s = (Ok groups, s') →
  groups ≠ [] →
  call (EvConfirm (question_of groups))
    (inBool_Bool (question_of groups) ["no"; "yes"]) s' = (Ok true, s0) →
  ∃ pre r post,
    trace (runPrompt_formula docsDir isFormula d fuel wspace s).2
    = trace s ++ pre
      ++ [EvList (filepath_Join (formula.Dir wspace) groups) None;
          EvConfirm (question_of groups) None;
          EvRemoveAll (filepath_Join (formula.Dir wspace) groups) r]
      ++ post.
Proof.
  intros Hread Hne Hconf.
  rewrite runPrompt_formula_passes.
  rewrite (bind_Ok _ _ _ _ _ Hread). rewrite decide_False by done.
  rewrite (bind_Ok _ _ _ _ _ Hconf). change (negb true) with false. cbv iota.
  apply readFormulas_trace in Hread as (opts & Hlen & _ & Htr & _).
  destruct (resolution_trace_last groups (formula.Dir wspace) opts Hlen)
    as [pre Hpre].
  apply call_Ok in Hconf as [_ Htr0].
  destruct (deleteFormula_calls (length groups) (formula.Dir wspace) groups 0 s0)
    as (r & w1 & r0 & tr1 & Hrun & Hr & _); [lia..|].
  rewrite drop_0 in Hrun.
  assert (∀ post, trace s0 ++ EvRemoveAll (filepath_Join (formula.Dir wspace) groups)
                                 r0 :: post
                  = trace s ++ pre
                    ++ [EvList (filepath_Join (formula.Dir wspace) groups) None;
                        EvConfirm (question_of groups) None;
                        EvRemoveAll (filepath_Join (formula.Dir wspace) groups) r0]
                    ++ post) as Heq.
  { intros post. rewrite Htr0, Htr, Hpre. by rewrite <- !app_assoc. }
  exists pre, r0. unfold passes.
  destruct Hr as [->|[e ->]].
  - rewrite (bind_Ok _ _ _ _ _ Hrun).
    match goal with
    | |- context [trace (?m ?st).2] =>
        destruct (emits_trace (λ _, True) m st) as [tr2 ->]
    end.
    + apply emits_bind; [eapply emits_any, emits_deleteFormula|]. intros _.
      apply emits_bind; [eapply emits_any, emits_recriateTreeJson|]. intros _.
      apply emits_bind; [apply emits_success|]. intros _. apply emits_ret.
    + exists (tr1 ++ tr2). simpl. rewrite <- app_assoc. simpl. apply Heq.
  - rewrite (bind_Err _ _ _ _ _ Hrun). exists tr1. simpl. apply Heq.
Qed.

(** X9.  In every environment, when the confirmation is answered no, the
    interactive entry point returns nil in the state the prompt left: the
    calls of the run are those that chose the workspace, the listings and
    selections of the resolution and the confirmation; nothing is removed,
    no index is written and no success message is printed. *)
Theorem declined_confirmation_deletes_nothing
    fuel (s_init s s' s0 : state W) wspace groups :
  runPrompt_workspace DefaultWorkspaceDir DefaultWorkspaceName d s_init
  = (Ok wspace, s) →
  readFormulas docsDir isFormula fuel (formula.Dir wspace) s = (Ok groups, s') →
  groups ≠ [] →
  call (EvConfirm (question_of groups))
    (inBool_Bool (question_of groups) ["no"; "yes"]) s' = (Ok false, s0) →
  runPrompt docsDir DefaultWorkspaceDir DefaultWorkspaceName isFormula d fuel s_init
  = (Ok tt, s0)
  ∧ ∃ tr, trace s0 = trace s_init ++ tr
          ∧ Forall (λ ev, is_workspace ev = true ∨ is_question ev = true) tr.
Proof.
  intros Hws Hread Hne Hconf. split.
  - unfold runPrompt. rewrite (bind_Ok _ _ _ _ _ Hws).
    rewrite runPrompt_formula_passes.
    rewrite (bind_Ok _ _ _ _ _ Hread). rewrite decide_False by done.
    by rewrite (bind_Ok _ _ _ _ _ Hconf).
  - destruct (emits_runPrompt_workspace DefaultWorkspaceDir DefaultWorkspaceName d
                s_init) as (tr1 & Htr1 & HP1 & _).
    rewrite Hws in Htr1. simpl in Htr1.
    destruct (emits_readFormulas docsDir isFormula fuel (formula.Dir wspace) s)
      as (tr2 & Htr2 & HP2 & _).
    rewrite Hread in Htr2. simpl in Htr2.
    apply call_Ok in Hconf as [_ Htr3].
    exists (tr1 ++ tr2 ++ [EvConfirm (question_of groups) None]).
    split; [rewrite Htr3, Htr2, Htr1; by rewrite <- !app_assoc|].
    apply Forall_app. split; [eapply Forall_impl; [done|]; by left|].
    apply Forall_app. split.
    + eapply Forall_impl; [done|]. intros [] Hev; try done; by right.
    + apply Forall_singleton. by right.
Qed.

(** From the resolution on, a run either was confirmed and is the shared
    part, or only asks. *)
Lemma runPrompt_formula_cases fuel wspace (s : state W) :
  (∃ groups s' s0,
     readFormulas docsDir isFormula fuel (formula.Dir wspace) s = (Ok groups, s')
     ∧ groups ≠ []
     ∧ call (EvConfirm (question_of groups))
         (inBool_Bool (question_of groups) ["no"; "yes"]) s' = (Ok true, s0)
     ∧ runPrompt_formula docsDir isFormula d fuel wspace s
       = passes d (formula.Dir wspace) groups
           (success "✔ Formula successfully deleted!" ;;; ret tt) s0)
  ∨ (∃ tr,
       trace (runPrompt_formula docsDir isFormula d fuel wspace s).2 = trace s ++ tr
       ∧ Forall (λ ev, is_question ev = true) tr
       ∧ ((runPrompt_formula docsDir isFormula d fuel wspace s).1 = Ok tt →
          ∃ groups s' s0,
            readFormulas docsDir isFormula fuel (formula.Dir wspace) s = (Ok groups, s')
            ∧ groups ≠ []
            ∧ call (EvConfirm (question_of groups))
                (inBool_Bool (question_of groups) ["no"; "yes"]) s' = (Ok false, s0)
            ∧ runPrompt_formula docsDir isFormula d fuel wspace s = (Ok tt, s0))).
Proof.
  destruct (emits_readFormulas docsDir isFormula fuel (formula.Dir wspace) s)
    as (tr1 & Htr1 & HP1 & _).
  assert (Forall (λ ev, is_question ev = true) tr1) as HQ1.
  { eapply Forall_impl; [done|]. by intros []. }
  rewrite runPrompt_formula_passes.
  destruct (readFormulas _ _ fuel _ s) as [r s'] eqn:Hread. simpl in Htr1.
  destruct r as [groups|e| |]; cycle 1.
  { right. exists tr1. by rewrite (bind_Err _ _ _ _ _ Hread). }
  { right. exists tr1. rewrite bind_not_Ok by (by rewrite Hread).
    rewrite Hread. split; [done|]. split; [done|].
    unfold bind. by rewrite Hread. }
  { right. exists tr1. rewrite bind_not_Ok by (by rewrite Hread).
    rewrite Hread. split; [done|]. split; [done|].
    unfold bind. by rewrite Hread. }
  rewrite (bind_Ok _ _ _ _ _ Hread).
  case_decide as Hne; [right; exists tr1; simpl; by split|].
  destruct (call (EvConfirm (question_of groups))
              (inBool_Bool (question_of groups) ["no"; "yes"]) s')
    as [r0 s0] eqn:Hconf.
  destruct r0 as [[|]|e| |].
  - left. exists groups, s', s0. by rewrite (bind_Ok _ _ _ _ _ Hconf).
  - right. rewrite (bind_Ok _ _ _ _ _ Hconf).
    pose proof Hconf as [_ Htr0]%call_Ok. eexists. simpl.
    split; [by rewrite Htr0, Htr1, <- app_assoc|]. split.
    + apply Forall_app. split; [done|]. by apply Forall_singleton.
    + intros _. by exists groups, s', s0.
  - right. rewrite (bind_Err _ _ _ _ _ Hconf).
    apply call_Err in Hconf as [_ Htr0]. eexists. simpl.
    split; [by rewrite Htr0, Htr1, <- app_assoc|]. split; [|done].
    apply Forall_app. split; [done|]. by apply Forall_singleton.
  - exfalso. unfold call in Hconf. by destruct (inBool_Bool _ _ _) as [[|] ?].
  - exfalso. unfold call in Hconf. by destruct (inBool_Bool _ _ _) as [[|] ?].
Qed.

(** X10.  In every environment, nothing is deleted without a yes.  From
    the resolution on, a run of the interactive entry point is one of two:
    the resolution returned segments, the confirmation for exactly these
    segments returned true, and the run is the two deletion passes, the
    index and the success message from the state the prompt left; or all
    its calls are listings, selections and the confirmation, so that no
    removal, no listing of a deletion pass and no write of the index has
    been made, and if such a run returns nil the confirmation was answered
    no. *)
Theorem deletion_follows_confirmation fuel wspace (s : state W) :
  (∃ groups s' s0,
     readFormulas docsDir isFormula fuel (formula.Dir wspace) s = (Ok groups, s')
     ∧ groups ≠ []
     ∧ call (EvConfirm (question_of groups))
         (inBool_Bool (question_of groups) ["no"; "yes"]) s' = (Ok true, s0)
     ∧ runPrompt_formula docsDir isFormula d fuel wspace s
       = passes d (formula.Dir wspace) groups
           (success "✔ Formula successfully deleted!" ;;; ret tt) s0)
  ∨ (∃ tr,
       trace (runPrompt_formula docsDir isFormula d fuel wspace s).2 = trace s ++ tr
       ∧ Forall (λ ev, is_question ev = true) tr
       ∧ ((runPrompt_formula docsDir isFormula d fuel wspace s).1 = Ok tt →
          ∃ groups s' s0,
            readFormulas docsDir isFormula fuel (formula.Dir wspace) s = (Ok groups, s')
            ∧ groups ≠ []
            ∧ call (EvConfirm (question_of groups))
                (inBool_Bool (question_of groups) ["no"; "yes"]) s' = (Ok false, s0)
            ∧ runPrompt_formula docsDir isFormula d fuel wspace s = (Ok tt, s0))).
Proof. apply runPrompt_formula_cases. Qed.

(** X11.  In every environment, a workspace that [runPrompt] goes on with
    was chosen by [FormulaWorkspaceInput] among the listed workspaces with
    the default one, [userHomeDir/DefaultWorkspaceDir], put under
    [DefaultWorkspaceName] (in place of a listed one of that name).  When
    its directory is the default one, it is neither validated nor
    registered; otherwise it was validated and then registered, both
    without error, before anything is listed under it. *)
Theorem workspace_is_validated_before_use (s s' : state W) wspace :
  runPrompt_workspace DefaultWorkspaceDir DefaultWorkspaceName d s = (Ok wspace, s') →
  ∃ workspaces w0 w1,
    workspace_List (world s) = (inr workspaces, w0)
    ∧ FormulaWorkspaceInput
        (<[DefaultWorkspaceName := filepath_Join (userHomeDir d) [DefaultWorkspaceDir]]>
           workspaces) w0
      = (inr wspace, w1)
    ∧ ((formula.Dir wspace = filepath_Join (userHomeDir d) [DefaultWorkspaceDir]
        ∧ world s' = w1
        ∧ trace s' = trace s ++ [EvWorkspaceList None; EvWorkspaceInput None])
       ∨ (formula.Dir wspace ≠ filepath_Join (userHomeDir d) [DefaultWorkspaceDir]
          ∧ trace s' = trace s ++ [EvWorkspaceList None; EvWorkspaceInput None;
                                   EvValidate wspace None; EvAdd wspace None]
          ∧ ∃ w2, workspace_Validate wspace w1 = (inr tt, w2)
                  ∧ workspace_Add wspace w2 = (inr tt, world s'))).
Proof.
  unfold runPrompt_workspace. unfold bind at 1.
  destruct (call EvWorkspaceList _ s) as [[workspaces| | |] s1] eqn:Hlist; try done.
  apply call_Ok in Hlist as [Hlist Htr1].
  unfold bind at 1.
  destruct (call EvWorkspaceInput _ s1) as [[ws| | |] s2] eqn:Hin; try done.
  apply call_Ok in Hin as [Hin Htr2].
  unfold bind at 1. case_decide as Hdir.
  - unfold bind at 1.
    destruct (call (EvValidate ws) _ s2) as [[[]| | |] s3] eqn:Hval; try done.
    apply call_Ok in Hval as [Hval Htr3].
    destruct (call (EvAdd ws) _ s3) as [[[]| | |] s4] eqn:Hadd; try done.
    apply call_Ok in Hadd as [Hadd Htr4].
    intros [= <- <-]. exists workspaces, (world s1), (world s2).
    split; [done|]. split; [done|]. right. split; [done|]. split.
    + rewrite Htr4, Htr3, Htr2, Htr1. by rewrite <- !app_assoc.
    + eauto.
  - intros [= <- <-]. exists workspaces, (world s1), (world s2).
    split; [done|]. split; [done|]. left. split; [done|]. split; [done|].
    rewrite Htr2, Htr1. by rewrite <- !app_assoc.
Qed.

Lemma silent_app (tr1 tr2 : list event) :
  Forall (λ ev, is_success ev = false) tr1 →
  Forall (λ ev, is_success ev = false) tr2 →
  Forall (λ ev, is_success ev = false) (tr1 ++ tr2).
Proof. intros. by apply Forall_app. Qed.

Lemma deletion_is_silent (tr : list event) :
  Forall (λ ev, is_deletion ev = true) tr → Forall (λ ev, is_success ev = false) tr.
Proof. intros Htr. eapply Forall_impl; [done|]. by intros []. Qed.

Lemma index_is_silent (tr : list event) :
  Forall (λ ev, is_index ev = true) tr → Forall (λ ev, is_success ev = false) tr.
Proof. intros Htr. eapply Forall_impl; [done|]. by intros []. Qed.

Lemma question_is_silent (tr : list event) :
  Forall (λ ev, is_question ev = true) tr → Forall (λ ev, is_success ev = false) tr.
Proof. intros Htr. eapply Forall_impl; [done|]. by intros []. Qed.

Lemma workspace_is_silent (tr : list event) :
  Forall (λ ev, is_workspace ev = true) tr → Forall (λ ev, is_success ev = false) tr.
Proof. intros Htr. eapply Forall_impl; [done|]. by intros []. Qed.

(** The shared part followed by the success message. *)
Lemma passes_success ws groups msg (s : state W) :
  ∃ tr,
    trace (passes d ws groups (success msg ;;; ret tt) s).2 = trace s ++ tr
    ∧ (Forall (λ ev, is_success ev = false) tr
       ∧ (passes d ws groups (success msg ;;; ret tt) s).1 ≠ Ok tt
       ∨ ∃ tr0, tr = tr0 ++ [EvSuccess msg]
                ∧ Forall (λ ev, is_success ev = false) tr0
                ∧ clean tr0
                ∧ (passes d ws groups (success msg ;;; ret tt) s).1 = Ok tt).
Proof.
  rewrite passes_unfold.
  destruct (emits_deleteFormula ws groups 0 s) as (t1 & H1 & P1 & Q1).
  destruct (deleteFormula ws groups 0 s) as [r1 s1]; simpl in H1, Q1.
  apply deletion_is_silent in P1.
  destruct r1 as [[]|e| |]; try (exists t1; split; [done|]; left; by split).
  apply propagated_None in Q1.
  destruct (emits_deleteFormula (ritchieLocalWorkspace d) groups 0 s1)
    as (t2 & H2 & P2 & Q2).
  destruct (deleteFormula (ritchieLocalWorkspace d) groups 0 s1) as [r2 s2];
    simpl in H2, Q2.
  apply deletion_is_silent in P2.
  destruct r2 as [[]|e| |];
    try (exists (t1 ++ t2); simpl; rewrite H2, H1, <- app_assoc; split; [done|];
         left; split; [by apply silent_app|done]).
  apply propagated_None in Q2.
  destruct (emits_recriateTreeJson d (ritchieLocalWorkspace d) s2)
    as (t3 & H3 & P3 & Q3).
  destruct (recriateTreeJson d (ritchieLocalWorkspace d) s2) as [r3 s3];
    simpl in H3, Q3.
  apply index_is_silent in P3.
  destruct r3 as [[]|e| |];
    try (exists (t1 ++ t2 ++ t3); simpl; rewrite H3, H2, H1, <- !app_assoc;
         split; [done|]; left; split; [by repeat apply silent_app|done]).
  apply propagated_None in Q3.
  exists ((t1 ++ t2 ++ t3) ++ [EvSuccess msg]). simpl.
  split; [rewrite H3, H2, H1; by rewrite <- !app_assoc|].
  right. exists (t1 ++ t2 ++ t3). split; [done|].
  split; [by repeat apply silent_app|]. split; [|done].
  unfold clean in *. by repeat (apply Forall_app; split).
Qed.

(** X12.  In every environment, the success message is printed at most
    once in a run of the interactive entry point, and then as its last
    call: every call before it returned without error and the run returns
    nil.  A run that returns an error, panics, or was declined prints no
    success message. *)
Theorem success_is_printed_last fuel (s : state W) :
  ∃ tr,
    trace (runPrompt docsDir DefaultWorkspaceDir DefaultWorkspaceName isFormula d
             fuel s).2 = trace s ++ tr
    ∧ (Forall (λ ev, is_success ev = false) tr
       ∨ ∃ tr0, tr = tr0 ++ [EvSuccess "✔ Formula successfully deleted!"]
                ∧ Forall (λ ev, is_success ev = false) tr0
                ∧ clean tr0
                ∧ (runPrompt docsDir DefaultWorkspaceDir DefaultWorkspaceName
                     isFormula d fuel s).1 = Ok tt).
Proof.
  unfold runPrompt.
  destruct (emits_runPrompt_workspace DefaultWorkspaceDir DefaultWorkspaceName d s)
    as (t0 & H0 & P0 & Q0).
  destruct (runPrompt_workspace DefaultWorkspaceDir DefaultWorkspaceName d s)
    as [r0 s0] eqn:Hws; simpl in H0, Q0.
  apply workspace_is_silent in P0.
  destruct r0 as [wspace|e| |]; cycle 1.
  { exists t0. rewrite (bind_Err _ _ _ _ _ Hws). split; [done|by left]. }
  { exists t0. rewrite bind_not_Ok by (by rewrite Hws). rewrite Hws.
    split; [done|by left]. }
  { exists t0. rewrite bind_not_Ok by (by rewrite Hws). rewrite Hws.
    split; [done|by left]. }
  rewrite (bind_Ok _ _ _ _ _ Hws). apply propagated_None in Q0.
  destruct (runPrompt_formula_cases fuel wspace s0)
    as [(groups & s' & s1 & Hread & Hne & Hconf & Heq)|(t1 & H1 & P1 & _)].
  - rewrite Heq.
    destruct (emits_readFormulas docsDir isFormula fuel (formula.Dir wspace) s0)
      as (t1 & H1 & P1 & Q1).
    rewrite Hread in H1, Q1. simpl in H1, Q1. apply propagated_None in Q1.
    assert (Forall (λ ev, is_success ev = false) t1) as P1'.
    { eapply Forall_impl; [exact P1|]. by intros []. }
    apply call_Ok in Hconf as [_ Htr].
    set (ask := EvConfirm (question_of groups) None) in *.
    destruct (passes_success (formula.Dir wspace) groups
                "✔ Formula successfully deleted!" s1)
      as (t2 & H2 & [[P2 _]|(t3 & -> & P3 & C3 & Hok)]).
    + exists (t0 ++ t1 ++ [ask] ++ t2).
      split; [rewrite H2, Htr, H1, H0; by rewrite <- !app_assoc|].
      left. repeat apply silent_app; try done. by apply Forall_singleton.
    + exists ((t0 ++ t1 ++ [ask] ++ t3) ++ [EvSuccess "✔ Formula successfully deleted!"]).
      split; [rewrite H2, Htr, H1, H0; by rewrite <- !app_assoc|].
      right. exists (t0 ++ t1 ++ [ask] ++ t3). split; [done|].
      split; [repeat apply silent_app; try done; by apply Forall_singleton|].
      split; [|done]. unfold clean in *.
      repeat (apply Forall_app; split); try done. by apply Forall_singleton.
  - exists (t0 ++ t1). split; [rewrite H1, H0; by rewrite <- app_assoc|].
    left. apply silent_app; [done|]. by apply question_is_silent.
Qed.

End Prompt.

Lemma readFormulas_follows_selections_witness :
  let s := State (prompt_world synced
                    {| formula.Name := "mine"; formula.Dir := ["home"; "ws"] |}
                    ["a"; "b"] [true]) [] in
  ∃ opts pre,
    length opts = length ["a"; "b"]
    ∧ Forall (λ o, holds_main o = false) opts
    ∧ trace (readFormulas "docs" holds_main 3 ["home"; "ws"] s).2
      = trace s ++ resolution_trace ["home"; "ws"] ["a"; "b"] opts
    ∧ resolution_trace ["home"; "ws"] ["a"; "b"] opts
      = pre ++ [EvList (filepath_Join ["home"; "ws"] ["a"; "b"]) None]
    ∧ resolves "docs" holds_main ["home"; "ws"] ["a"; "b"] opts (world s)
        (world (readFormulas "docs" holds_main 3 ["home"; "ws"] s).2).
Proof.
  intros s.
  apply (readFormulas_follows_selections "docs" holds_main 3 ["home"; "ws"] s
           (readFormulas "docs" holds_main 3 ["home"; "ws"] s).2 ["a"; "b"]).
  refine (pair_eta_fst _ _ _). vm_compute. reflexivity.
Defined.

Lemma confirmed_deletion_starts_at_resolved_leaf_witness :
  let wspace := {| formula.Name := "mine"; formula.Dir := ["home"; "ws"] |} in
  let s := State (prompt_world synced wspace ["a"; "b"] [true]) [] in
  ∃ pre r post,
    trace (runPrompt_formula "docs" holds_main cmd0 3 wspace s).2
    = trace s ++ pre
      ++ [EvList (filepath_Join (formula.Dir wspace) ["a"; "b"]) None;
          EvConfirm (question_of ["a"; "b"]) None;
          EvRemoveAll (filepath_Join (formula.Dir wspace) ["a"; "b"]) r]
      ++ post.
Proof.
  intros wspace s.
  apply (confirmed_deletion_starts_at_resolved_leaf "docs" holds_main cmd0 3 wspace s
           (readFormulas "docs" holds_main 3 ["home"; "ws"] s).2
           (call (EvConfirm (question_of ["a"; "b"]))
              (inBool_Bool (question_of ["a"; "b"]) ["no"; "yes"])
              (readFormulas "docs" holds_main 3 ["home"; "ws"] s).2).2
           ["a"; "b"]).
  - refine (pair_eta_fst _ _ _). vm_compute. reflexivity.
  - done.
  - refine (pair_eta_fst _ _ _). vm_compute. reflexivity.
Defined.

Lemma declined_confirmation_deletes_nothing_witness :
  let wspace := {| formula.Name := "mine"; formula.Dir := ["home"; "ws"] |} in
  let s_init := State (prompt_world synced wspace ["a"; "b"] [false]) [] in
  let s := (runPrompt_workspace "ritchie-formulas-local" "Default" cmd0 s_init).2 in
  let s' := (readFormulas "docs" holds_main 3 ["home"; "ws"] s).2 in
  let s0 := (call (EvConfirm (question_of ["a"; "b"]))
               (inBool_Bool (question_of ["a"; "b"]) ["no"; "yes"]) s').2 in
  runPrompt "docs" "ritchie-formulas-local" "Default" holds_main cmd0 3 s_init
  = (Ok tt, s0)
  ∧ ∃ tr, trace s0 = trace s_init ++ tr
          ∧ Forall (λ ev, is_workspace ev = true ∨ is_question ev = true) tr.
Proof.
  intros wspace s_init s s' s0.
  apply (declined_confirmation_deletes_nothing "docs" "ritchie-formulas-local"
           "Default" holds_main cmd0 3 s_init s s' s0 wspace ["a"; "b"]).
  - refine (pair_eta_fst _ _ _). vm_compute. reflexivity.
  - refine (pair_eta_fst _ _ _). vm_compute. reflexivity.
  - done.
  - refine (pair_eta_fst _ _ _). vm_compute. reflexivity.
Defined.

(** The formula [a/b] is chosen and then declined: the disk is as it was
    and nothing is printed. *)
Example declined_scenario :
  let wspace := {| formula.Name := "mine"; formula.Dir := ["home"; "ws"] |} in
  let '(r, s) := runPrompt "docs" "ritchie-formulas-local" "Default" holds_main cmd0 3
                   (State (prompt_world synced wspace ["a"; "b"] [false]) []) in
  r = Ok tt
  ∧ printed (world s) = []
  ∧ disk_of (world s) !! ["home"; "ws"; "a"; "b"] = Some Directory
  ∧ disk_of (world s) !! ["home"; ".rit"; "repos"; "local"; "a"; "b"]
    = Some Directory
  ∧ trace s
    = [EvWorkspaceList None; EvWorkspaceInput None;
       EvValidate wspace None; EvAdd wspace None;
       EvList ["home"; "ws"] None; EvSelect ["a"] None;
       EvList ["home"; "ws"; "a"] None; EvSelect ["b"] None;
       EvList ["home"; "ws"; "a"; "b"] None;
       EvConfirm "Are you sure you want to delete the formula: rit a b" None].
Proof. by vm_compute. Qed.

Lemma workspace_is_validated_before_use_witness :
  let wspace := {| formula.Name := "mine"; formula.Dir := ["home"; "ws"] |} in
  let s := State (prompt_world synced wspace [] []) [] in
  let s' := (runPrompt_workspace "ritchie-formulas-local" "Default" cmd0 s).2 in
  ∃ workspaces w0 w1,
    workspace_List (world s) = (inr workspaces, w0)
    ∧ FormulaWorkspaceInput
        (<["Default" := filepath_Join (userHomeDir cmd0) ["ritchie-formulas-local"]]>
           workspaces) w0
      = (inr wspace, w1)
    ∧ ((formula.Dir wspace
        = filepath_Join (userHomeDir cmd0) ["ritchie-formulas-local"]
        ∧ world s' = w1
        ∧ trace s' = trace s ++ [EvWorkspaceList None; EvWorkspaceInput None])
       ∨ (formula.Dir wspace
          ≠ filepath_Join (userHomeDir cmd0) ["ritchie-formulas-local"]
          ∧ trace s' = trace s ++ [EvWorkspaceList None; EvWorkspaceInput None;
                                   EvValidate wspace None; EvAdd wspace None]
          ∧ ∃ w2, workspace_Validate wspace w1 = (inr tt, w2)
                  ∧ workspace_Add wspace w2 = (inr tt, world s'))).
Proof.
  intros wspace s s'.
  apply (workspace_is_validated_before_use "ritchie-formulas-local" "Default" cmd0
           s s' wspace).
  refine (pair_eta_fst _ _ _). vm_compute. reflexivity.
Defined.

(** ** The batch entry point on the disk *)

Section Batch.
Implicit Types (fs : disk) (w : fsworld) (tr : list event).
Variable d : deleteFormulaCmd.

Lemma run_ReadJson w tr req :
  stdin_of w = inr req →
  call EvReadJson stdin_ReadJson (State w tr)
  = (Ok req, State w (tr ++ [EvReadJson None])).
Proof. intros Hreq. unfold call; simpl. by rewrite Hreq. Qed.

Lemma deletion_is_not_index (tr : list event) :
  Forall (λ ev, is_deletion ev = true) tr → Forall (λ ev, is_index ev = false) tr.
Proof. intros Htr. eapply Forall_impl; [done|]. by intros []. Qed.

(** X13.  Both trees hold the formula.  On a well-formed disk, for a
    batch request with plain segment names whose leaf has a directory as
    parent under the workspace root and under the local mirror root, the
    mirror path not lying under [workspace/segs[0]]: both passes return
    nil, each pruning its own tree from some level on, and the run goes on
    to the index from a disk where both leaves are gone and every path
    outside [workspace/segs[0]] and [mirror/segs[0]] is as before. *)
Theorem both_trees_are_pruned (ws : path) (segs : list string) w tr :
  segs ≠ [] →
  Forall (λ g, plain_name g = true) segs →
  wf (disk_of w) →
  stdin_of w = inr {| Workspace := ws; Groups := segs |} →
  disk_of w !! level ws segs (length segs - 1) = Some Directory →
  disk_of w !! level (ritchieLocalWorkspace d) segs (length segs - 1)
  = Some Directory →
  ¬ level ws segs 1 `prefix_of` level (ritchieLocalWorkspace d) segs (length segs - 1) →
  ∃ c1 c2 fs2,
    1 ≤ c1 ≤ length segs ∧ 1 ≤ c2 ≤ length segs
    ∧ fs2 = rm (level (ritchieLocalWorkspace d) segs c2)
              (rm (level ws segs c1) (disk_of w))
    ∧ runStdin d (State w tr)
      = (recriateTreeJson d (ritchieLocalWorkspace d) ;;; ret tt)
          (State (set_disk w fs2)
             (tr ++ EvReadJson None
                 :: unwind_trace ws segs c1 1
                 ++ unwind_trace (ritchieLocalWorkspace d) segs c2 1))
    ∧ (∀ q, (ws ++ segs) `prefix_of` q
            ∨ (ritchieLocalWorkspace d ++ segs) `prefix_of` q →
            fs2 !! q = None)
    ∧ (∀ q, ¬ level ws segs 1 `prefix_of` q →
            ¬ level (ritchieLocalWorkspace d) segs 1 `prefix_of` q →
            fs2 !! q = disk_of w !! q).
Proof.
  intros Hne Hnames Hwf Hreq Hparent1 Hparent2 Hapart.
  set (mirror := ritchieLocalWorkspace d) in *.
  destruct (deleteFormula_root_exact ws segs w (tr ++ [EvReadJson None]))
    as (c1 & Hc1 & _ & _ & Hrun1); [done..|].
  set (w1 := set_disk w (rm (level ws segs c1) (disk_of w))) in *.
  destruct (deleteFormula_root_exact mirror segs w1
              ((tr ++ [EvReadJson None]) ++ unwind_trace ws segs c1 1))
    as (c2 & Hc2 & _ & _ & Hrun2); [done|done|by apply wf_rm| |].
  { cbn [disk_of w1 set_disk]. rewrite lookup_rm_other; [done|].
    intros Hpre. apply Hapart. etrans; [|done]. apply level_prefix. lia. }
  cbn [disk_of w1 set_disk] in Hrun2. unfold w1 in Hrun2.
  rewrite set_disk_set_disk in Hrun2.
  exists c1, c2, (rm (level mirror segs c2) (rm (level ws segs c1) (disk_of w))).
  split; [done|]. split; [done|]. split; [done|]. split; [|split].
  - rewrite runStdin_passes, (bind_Ok _ _ _ _ _ (run_ReadJson _ _ _ Hreq)).
    unfold passes. cbn [Workspace Groups]. fold mirror.
    rewrite (bind_Ok _ _ _ _ _ Hrun1), (bind_Ok _ _ _ _ _ Hrun2).
    by rewrite <- !app_assoc.
  - intros q Hq. rewrite lookup_rm. case_decide as Hm; [done|].
    destruct Hq as [Hq|Hq].
    + apply lookup_rm_under. etrans; [|done].
      rewrite <- level_all. apply level_prefix. lia.
    + destruct Hm. etrans; [|done]. rewrite <- level_all. apply level_prefix. lia.
  - intros q Hq1 Hq2. rewrite !lookup_rm_other; [done| |].
    + intros Hpre. apply Hq1. etrans; [|done]. apply level_prefix. lia.
    + intros Hpre. apply Hq2. etrans; [|done]. apply level_prefix. lia.
Qed.

(** X14.  The workspace is the local mirror itself.  On a well-formed
    disk, for a batch request of two or more plain segments whose
    workspace is [ritchieHomeDir/repos/local], where the parent of the leaf
    is a directory with no sub-directory but the leaf: the first pass
    prunes the parent, the second pass runs on the same tree and returns
    the not-found error of listing that parent, which is what [runStdin]
    returns; the index is neither generated nor written, and the parent is
    gone. *)
Theorem mirror_as_workspace_fails_second_pass (segs : list string) w tr :
  2 ≤ length segs →
  Forall (λ g, plain_name g = true) segs →
  wf (disk_of w) →
  stdin_of w = inr {| Workspace := ritchieLocalWorkspace d; Groups := segs |} →
  disk_of w !! level (ritchieLocalWorkspace d) segs (length segs - 1)
  = Some Directory →
  chain (disk_of w) (ritchieLocalWorkspace d) segs (length segs - 1) = true →
  ∃ w' tr',
    runStdin d (State w tr)
    = (Err (PathError "open" (level (ritchieLocalWorkspace d) segs (length segs - 1))
              ENOENT),
       State w' (tr ++ tr'))
    ∧ Forall (λ ev, is_index ev = false) tr'
    ∧ ∀ q, level (ritchieLocalWorkspace d) segs (length segs - 1) `prefix_of` q →
           disk_of w' !! q = None.
Proof.
  intros Hn Hnames Hwf Hreq Hparent Hchain.
  set (mirror := ritchieLocalWorkspace d) in *.
  assert (segs ≠ []) as Hne by (intros ->; simpl in Hn; lia).
  destruct (deleteFormula_twice mirror segs w (tr ++ [EvReadJson None]))
    as (c & w1 & tr1 & tr2 & Hc & Hdisk & Hrun1 & Hrun2); [done..|].
  assert (c ≤ length segs - 1) as Hcut.
  { destruct (deleteFormula_root_exact mirror segs w (tr ++ [EvReadJson None]))
      as (c' & Hc' & _ & Hmin & Hrun1'); [done..|].
    rewrite Hrun1 in Hrun1'. injection Hrun1' as Hw1 _.
    assert (c' ≤ length segs - 1) as Hc'cut.
    { destruct (decide (c' ≤ length segs - 1)) as [|Hgt]; [done|].
      rewrite (Hmin (length segs - 1)) in Hchain by lia. done. }
    destruct (decide (c ≤ length segs - 1)) as [|Hgt]; [done|]. exfalso.
    assert (c = length segs) as -> by lia.
    assert (disk_of w1 !! level mirror segs (length segs - 1) = Some Directory)
      as Hstill.
    { rewrite Hdisk, lookup_rm_other; [done|].
      intros Hpre%level_prefix_inv; lia. }
    rewrite Hw1 in Hstill. cbn [disk_of set_disk] in Hstill.
    rewrite lookup_rm_under in Hstill; [done|]. apply level_prefix. lia. }
  rewrite decide_True in Hrun2 by lia.
  destruct (emits_deleteFormula mirror segs 0 (State w (tr ++ [EvReadJson None])))
    as (del1 & Hdel1 & HP1 & _).
  rewrite Hrun1 in Hdel1. simpl in Hdel1.
  destruct (emits_deleteFormula mirror segs 0 (State w1 tr1))
    as (del2 & Hdel2 & HP2 & _).
  rewrite Hrun2 in Hdel2. simpl in Hdel2. apply app_inv_head in Hdel2 as ->.
  exists w1, ([EvReadJson None] ++ del1 ++ del2). split; [|split].
  - rewrite runStdin_passes, (bind_Ok _ _ _ _ _ (run_ReadJson _ _ _ Hreq)).
    unfold passes. cbn [Workspace Groups]. fold mirror.
    rewrite (bind_Ok _ _ _ _ _ Hrun1), (bind_Err _ _ _ _ _ Hrun2).
    rewrite Hdel1. by rewrite <- !app_assoc.
  - apply Forall_app. split; [by apply Forall_singleton|].
    apply Forall_app. split; by apply deletion_is_not_index.
  - intros q Hq. rewrite Hdisk. apply lookup_rm_under. etrans; [|done].
    apply level_prefix. lia.
Qed.

End Batch.

Lemma both_trees_are_pruned_witness :
  let w := stdin_world synced {| Workspace := ["home"; "ws"]; Groups := ["a"; "b"] |} in
  ∃ c1 c2 fs2,
    1 ≤ c1 ≤ length ["a"; "b"] ∧ 1 ≤ c2 ≤ length ["a"; "b"]
    ∧ fs2 = rm (level (ritchieLocalWorkspace cmd0) ["a"; "b"] c2)
              (rm (level ["home"; "ws"] ["a"; "b"] c1) (disk_of w))
    ∧ runStdin cmd0 (State w [])
      = (recriateTreeJson cmd0 (ritchieLocalWorkspace cmd0) ;;; ret tt)
          (State (set_disk w fs2)
             ([] ++ EvReadJson None
                 :: unwind_trace ["home"; "ws"] ["a"; "b"] c1 1
                 ++ unwind_trace (ritchieLocalWorkspace cmd0) ["a"; "b"] c2 1))
    ∧ (∀ q, (["home"; "ws"] ++ ["a"; "b"]) `prefix_of` q
            ∨ (ritchieLocalWorkspace cmd0 ++ ["a"; "b"]) `prefix_of` q →
            fs2 !! q = None)
    ∧ (∀ q, ¬ level ["home"; "ws"] ["a"; "b"] 1 `prefix_of` q →
            ¬ level (ritchieLocalWorkspace cmd0) ["a"; "b"] 1 `prefix_of` q →
            fs2 !! q = disk_of w !! q).
Proof.
  intros w.
  apply (both_trees_are_pruned cmd0 ["home"; "ws"] ["a"; "b"] w []).
  - done.
  - repeat constructor.
  - exact wf_synced.
  - reflexivity.
  - by vm_compute.
  - by vm_compute.
  - intros [k Hk]. vm_compute in Hk. discriminate.
Defined.

Lemma mirror_as_workspace_fails_second_pass_witness :
  let w := stdin_world synced {| Workspace := ritchieLocalWorkspace cmd0;
                                 Groups := ["a"; "b"] |} in
  ∃ w' tr',
    runStdin cmd0 (State w [])
    = (Err (PathError "open"
              (level (ritchieLocalWorkspace cmd0) ["a"; "b"] (length ["a"; "b"] - 1))
              ENOENT),
       State w' ([] ++ tr'))
    ∧ Forall (λ ev, is_index ev = false) tr'
    ∧ ∀ q, level (ritchieLocalWorkspace cmd0) ["a"; "b"] (length ["a"; "b"] - 1)
             `prefix_of` q →
           disk_of w' !! q = None.
Proof.
  intros w.
  apply (mirror_as_workspace_fails_second_pass cmd0 ["a"; "b"] w []).
  - simpl. lia.
  - repeat constructor.
  - exact wf_synced.
  - reflexivity.
  - by vm_compute.
  - by vm_compute.
Defined.

(** The request names the local mirror as its workspace: the second pass
    fails and the index file keeps its old content. *)
Example mirror_as_workspace_scenario :
  let w := stdin_world synced {| Workspace := ["home"; ".rit"; "repos"; "local"];
                                 Groups := ["a"; "b"] |} in
  let '(r, s) := runStdin cmd0 (State w []) in
  r = Err (PathError "open" ["home"; ".rit"; "repos"; "local"; "a"] ENOENT)
  ∧ disk_of (world s) !! ["home"; ".rit"; "repos"; "local"; "tree.json"]
    = synced !! ["home"; ".rit"; "repos"; "local"; "tree.json"]
  ∧ trace s
    = [EvReadJson None;
       EvRemoveAll ["home"; ".rit"; "repos"; "local"; "a"; "b"] None;
       EvReadDir ["home"; ".rit"; "repos"; "local"; "a"] None;
       EvRemoveAll ["home"; ".rit"; "repos"; "local"; "a"] None;
       EvRemoveAll ["home"; ".rit"; "repos"; "local"; "a"; "b"] None;
       EvReadDir ["home"; ".rit"; "repos"; "local"; "a"]
         (Some (PathError "open" ["home"; ".rit"; "repos"; "local"; "a"] ENOENT))].
Proof. by vm_compute. Qed.
